(** * pyzlides: layout and pagination engine ([pyzlides/core.py])

    A shallow embedding of the element tree, the text wrapping, the
    renderers, the height estimator and the overflow-driven pagination
    of [pyzlides/core.py], with the properties of the specification
    stated and proved (or refuted) over it.

    Conventions of the embedding.
    - In the renderers, Python numbers (ints and floats) are idealised
      as exact rationals [Q]: coordinates and heights are right up to
      the rounding of binary floating point.  Numeric results are
      compared with [==] ([Qeq]) unless both sides are built by the same
      expression.
    - Where a number decides (the line count of the estimator, the
      split of the pagination) the last bit of a float can decide, and
      the estimator and the pagination are also given in Python's
      numbers, exact ints and binary64 floats
      ([_estimate_element_height_py],
      [render_with_overflow_detection_py]); the statements about these
      decisions are made there.
    - A Python [str] is a [list ascii] (code points below 256).
    - The canvas is a log of the drawing operations issued, in order.
      Drawing operations never fail.  [stringWidth], [os.path.exists] and
      [ImageReader] are parameters of the development.
    - A renderer returns an [outcome]: a height with the new canvas, a
      raised exception, or [OutOfFuel] when the one unbounded loop of the
      source ([Code._wrap_code_line]) has not finished within the fuel. *)

From Stdlib Require Import List Ascii String ZArith QArith Qminmax Qround Bool Lia Lqa.
From Stdlib Require Import Floats.
Import ListNotations.

Set Warnings "-inexact-float".

Local Open Scope Q_scope.

(** ** Python strings *)

Definition str := list ascii.

(** String literals. *)
Definition py (s : string) : str := list_ascii_of_string s.

Definition NL : ascii := "010"%char.
Definition SP : ascii := " "%char.
Definition TAB : ascii := "009"%char.

(** [str.isspace] on one character, for code points below 256:
    TAB, LF, VT, FF, CR, FS, GS, RS, US, space, NEL and NBSP. *)
Definition is_space (c : ascii) : bool :=
  let n := nat_of_ascii c in
  (((9 <=? n) && (n <=? 13)) || ((28 <=? n) && (n <=? 32))
   || (n =? 133) || (n =? 160))%nat.

(** [s.split(sep)] for a one-character separator: the pieces between the
    occurrences of [sep]; always at least one piece. *)
Fixpoint str_split (sep : ascii) (s : str) : list str :=
  match s with
  | [] => [[]]
  | c :: s' =>
      if Ascii.eqb c sep then [] :: str_split sep s'
      else match str_split sep s' with
           | [] => [[c]]
           | l :: ls => (c :: l) :: ls
           end
  end.

(** [s.lstrip()]. *)
Fixpoint lstrip (s : str) : str :=
  match s with
  | [] => []
  | c :: s' => if is_space c then lstrip s' else s
  end.

(** [s.rstrip()]: a trailing run of whitespace is removed. *)
Fixpoint rstrip (s : str) : str :=
  match s with
  | [] => []
  | c :: s' =>
      match rstrip s' with
      | [] => if is_space c then [] else [c]
      | r => c :: r
      end
  end.

(** [s.strip()]. *)
Definition strip (s : str) : str := rstrip (lstrip s).

(** Python truthiness of a string or a list: non-empty. *)
Definition truthy {A} (l : list A) : bool :=
  match l with [] => false | _ => true end.

(** ** Page geometry *)

Definition SLIDE_16_9 : Q * Q := (792, 891 # 2).
Definition DEFAULT_MARGIN_LEFT : Q := 50.
Definition DEFAULT_MARGIN_RIGHT : Q := 50.
Definition DEFAULT_MARGIN_TOP : Q := 50.
Definition DEFAULT_MARGIN_BOTTOM : Q := 50.

Definition get_available_width : Q :=
  fst SLIDE_16_9 - DEFAULT_MARGIN_LEFT - DEFAULT_MARGIN_RIGHT.

(** [a <= b] and [a < b] on numbers, as tests. *)
Definition Qleb (a b : Q) : bool := Qle_bool a b.
Definition Qltb (a b : Q) : bool := negb (Qle_bool b a).

(** ** Text wrapping *)

Section Wrap.

(** [canvas_obj.stringWidth(text, font_name, font_size)]. *)
Variable stringWidth : str -> str -> Q -> Q.

(** One iteration of the [for word in words] loop of [wrap_text], on
    the pair [(lines, current_line)]. *)
Definition wrap_step (font_name : str) (font_size max_width : Q)
    (st : list str * str) (word : str) : list str * str :=
  let '(lines, current_line) := st in
  let test_line :=
    current_line ++ (if truthy current_line then [SP] else []) ++ word in
  let text_width := stringWidth test_line font_name font_size in
  if Qleb text_width max_width then (lines, test_line)
  else if truthy current_line then (lines ++ [current_line], word)
  else (lines ++ [word], []).

Definition wrap_text (text font_name : str) (font_size max_width : Q)
    : list str :=
  let words := str_split SP text in
  let '(lines, current_line) :=
    fold_left (wrap_step font_name font_size max_width) words ([], []) in
  if truthy current_line then lines ++ [current_line] else lines.

End Wrap.

(** The metric of the Courier family: every glyph is 600/1000 em wide. *)
Definition courier_width (text font_name : str) (font_size : Q) : Q :=
  inject_Z (Z.of_nat (List.length text)) * (600 # 1000) * font_size.

(** ** Theme

    The theme is a dictionary; the code reads six keys, each through
    [theme.get(key, default)].  A key that is absent is [None]. *)

Record Theme : Type := mkTheme {
  theme_font : option str;
  theme_font_size : option Q;
  theme_header_font_size : option Q;
  theme_font_color : option str;
  theme_header_color : option str;
  theme_background_color : option str
}.

(** [theme.get(key, default)]. *)
Definition get {A} (field : option A) (default : A) : A :=
  match field with Some v => v | None => default end.

(** The default theme of [Config.get_default_config]. *)
Definition default_theme : Theme :=
  mkTheme (Some (py "Helvetica")) (Some 24) (Some 48)
          (Some (py "#000000")) (Some (py "#FF5733")) (Some (py "#FFFFFF")).

(** ** Canvas

    The drawing operations of the canvas capability that the renderers
    issue.  [HighlightedLine] stands for one call of
    [Code._render_highlighted_line], whose token colouring is not
    unfolded: it draws the given line from [(x, y)], token by token, and
    returns nothing; its scan consumes at least one character at every
    turn, so that it always comes back. *)

Inductive DrawOp : Type :=
| SetFont (font_name : str) (font_size : Q)
| SetFillColor (hex : str)
| DrawString (x y : Q) (text : str)
| Rect (x y width height : Q) (fill stroke : bool)
| DrawImage (path : str) (x y width height : Q)
| HighlightedLine (line : str) (x y : Q) (font_name : str) (font_size : Q).

Definition Canvas := list DrawOp.

(** ** Outcomes of a renderer *)

Inductive exn : Type := ZeroDivisionError.

Inductive outcome (A : Type) : Type :=
| Ok (a : A)
| Raise (e : exn)
| OutOfFuel.

Arguments Ok {A} a.
Arguments Raise {A} e.
Arguments OutOfFuel {A}.

(** A computation that draws on the canvas and may fail. *)
Definition M (A : Type) : Type := Canvas -> outcome (A * Canvas).

Definition ret {A} (a : A) : M A := fun cv => Ok (a, cv).

Definition bind {A B} (m : M A) (k : A -> M B) : M B :=
  fun cv =>
    match m cv with
    | Ok (a, cv') => k a cv'
    | Raise e => Raise e
    | OutOfFuel => OutOfFuel
    end.

Definition raise {A} (e : exn) : M A := fun _ => Raise e.
Definition out_of_fuel {A} : M A := fun _ => OutOfFuel.

(** One drawing operation, appended to the log. *)
Definition draw (op : DrawOp) : M unit := fun cv => Ok (tt, cv ++ [op]).

Notation "x <- m ;; k" := (bind m (fun x => k))
  (at level 61, m at next level, right associativity).
Notation "m ;;; k" := (bind m (fun _ => k))
  (at level 61, right associativity).

(** ** Elements *)

#[warnings="-register-all"]
Inductive Element : Type :=
| Head1 (text : str) (color : option str)
| Head2 (text : str) (color : option str)
| Head3 (text : str) (color : option str)
| BodyText (text : str) (color : option str)
| Bold (text : str) (color : option str)
| Code (code : str) (language : option str) (background_color : str)
| Img (path : str) (caption : str)
| Center (element : Element)
| Bottom (element : Element)
| TitleSlide (element : Element)
| GridLayout (elements : list Element) (columns : Z)
| BackgroundImage (path : str)
| CombinedElement (elements : list Element).

(** Induction on elements that also gives the hypothesis for the
    children held in a list. *)
Section ElementInd.
Variable P : Element -> Prop.
Hypothesis HHead1 : forall t c, P (Head1 t c).
Hypothesis HHead2 : forall t c, P (Head2 t c).
Hypothesis HHead3 : forall t c, P (Head3 t c).
Hypothesis HBodyText : forall t c, P (BodyText t c).
Hypothesis HBold : forall t c, P (Bold t c).
Hypothesis HCode : forall c l b, P (Code c l b).
Hypothesis HImg : forall p c, P (Img p c).
Hypothesis HCenter : forall e, P e -> P (Center e).
Hypothesis HBottom : forall e, P e -> P (Bottom e).
Hypothesis HTitleSlide : forall e, P e -> P (TitleSlide e).
Hypothesis HGridLayout : forall es n, Forall P es -> P (GridLayout es n).
Hypothesis HBackgroundImage : forall p, P (BackgroundImage p).
Hypothesis HCombinedElement : forall es, Forall P es -> P (CombinedElement es).

Fixpoint Element_nested_ind (e : Element) : P e :=
  let fix all (es : list Element) : Forall P es :=
    match es with
    | [] => Forall_nil P
    | e' :: es' => Forall_cons e' (Element_nested_ind e') (all es')
    end in
  match e with
  | Head1 t c => HHead1 t c
  | Head2 t c => HHead2 t c
  | Head3 t c => HHead3 t c
  | BodyText t c => HBodyText t c
  | Bold t c => HBold t c
  | Code c l b => HCode c l b
  | Img p c => HImg p c
  | Center e' => HCenter e' (Element_nested_ind e')
  | Bottom e' => HBottom e' (Element_nested_ind e')
  | TitleSlide e' => HTitleSlide e' (Element_nested_ind e')
  | GridLayout es n => HGridLayout es n (all es)
  | BackgroundImage p => HBackgroundImage p
  | CombinedElement es => HCombinedElement es (all es)
  end.
End ElementInd.

(** [self.color if self.color else theme.get(key, default)]. *)
Definition resolve_color (color : option str) (fallback : str) : str :=
  match color with
  | Some c => if truthy c then c else fallback
  | None => fallback
  end.

(** ** Renderers *)

Definition BOLD : str := py "-Bold".

Section Render.

Variable stringWidth : str -> str -> Q -> Q.
(** [os.path.exists]. *)
Variable path_exists : str -> bool.
(** [ImageReader(path)] followed by [getSize()]: the pixel size of the
    image, or the message of the exception raised while loading. *)
Variable ImageReader : str -> str + (Z * Z).
(** [get_lexer_by_name(language)]: [false] when it raises
    [ClassNotFound]. *)
Variable get_lexer_by_name : str -> bool.

(** The [for line in lines] loop of the text renderers. *)
Fixpoint draw_lines (lines : list str) (x current_y step : Q) : M unit :=
  match lines with
  | [] => ret tt
  | line :: rest =>
      draw (DrawString x current_y line) ;;;
      draw_lines rest x (current_y - step) step
  end.

(** The body shared by [Head1.render], [Head2.render], [Head3.render],
    [BodyText.render] and [Bold.render], which differ in the font, the
    size, the colour key, the line gap and the trailing gap. *)
Definition render_text (font_name : str) (font_size : Q) (color : str)
    (line_gap trailing_gap : Q) (text : str) (x y : Q) : M Q :=
  draw (SetFont font_name font_size) ;;;
  draw (SetFillColor color) ;;;
  let max_width := get_available_width in
  let lines := wrap_text stringWidth text font_name font_size max_width in
  draw_lines lines x y (font_size + line_gap) ;;;
  ret (inject_Z (Z.of_nat (List.length lines)) * (font_size + line_gap)
       + trailing_gap).

Definition Head1_render (text : str) (color : option str)
    (x y : Q) (theme : Theme) : M Q :=
  let font_name := get (theme_font theme) (py "Helvetica") ++ BOLD in
  let font_size := get (theme_header_font_size theme) 48 in
  render_text font_name font_size
    (resolve_color color (get (theme_header_color theme) (py "#FF5733")))
    5 5 text x y.

Definition Head2_render (text : str) (color : option str)
    (x y : Q) (theme : Theme) : M Q :=
  let font_name := get (theme_font theme) (py "Helvetica") ++ BOLD in
  let font_size := get (theme_header_font_size theme) 48 * (75 # 100) in
  render_text font_name font_size
    (resolve_color color (get (theme_header_color theme) (py "#FF5733")))
    4 4 text x y.

Definition Head3_render (text : str) (color : option str)
    (x y : Q) (theme : Theme) : M Q :=
  let font_name := get (theme_font theme) (py "Helvetica") ++ BOLD in
  let font_size := get (theme_header_font_size theme) 48 * (6 # 10) in
  render_text font_name font_size
    (resolve_color color (get (theme_header_color theme) (py "#FF5733")))
    3 3 text x y.

Definition BodyText_render (text : str) (color : option str)
    (x y : Q) (theme : Theme) : M Q :=
  let font_name := get (theme_font theme) (py "Helvetica") in
  let font_size := get (theme_font_size theme) 24 in
  render_text font_name font_size
    (resolve_color color (get (theme_font_color theme) (py "#000000")))
    2 3 text x y.

Definition Bold_render (text : str) (color : option str)
    (x y : Q) (theme : Theme) : M Q :=
  let font_name := get (theme_font theme) (py "Helvetica") ++ BOLD in
  let font_size := get (theme_font_size theme) 24 in
  render_text font_name font_size
    (resolve_color color (get (theme_font_color theme) (py "#000000")))
    2 3 text x y.

(** *** Code blocks *)

(** [not line.strip()]: the line holds whitespace only. *)
Definition blank (line : str) : bool := negb (truthy (strip line)).

(** [while code_lines and not code_lines[0].strip(): code_lines.pop(0)]. *)
Fixpoint pop_leading_blank (code_lines : list str) : list str :=
  match code_lines with
  | [] => []
  | line :: rest => if blank line then pop_leading_blank rest else code_lines
  end.

(** [while code_lines and not code_lines[-1].strip(): code_lines.pop()]. *)
Definition pop_trailing_blank (code_lines : list str) : list str :=
  rev (pop_leading_blank (rev code_lines)).

(** The leading run of spaces and tabs of [Code._wrap_code_line]. *)
Fixpoint leading_whitespace (line : str) : str :=
  match line with
  | c :: rest =>
      if Ascii.eqb c SP || Ascii.eqb c TAB then c :: leading_whitespace rest
      else []
  | [] => []
  end.

(** The inner [for i, char in enumerate(remaining_content)] loop: the
    line built so far, and [Some i] when it left through [break] at
    index [i], [None] when the whole content fitted (the [else] of the
    [for]). *)
Fixpoint fit_chars (font_name : str) (font_size max_width : Q)
    (current_line remaining_content : str) (i : nat) : str * option nat :=
  match remaining_content with
  | [] => (current_line, None)
  | char :: rest =>
      let test_line := current_line ++ [char] in
      if Qleb (stringWidth test_line font_name font_size) max_width
      then fit_chars font_name font_size max_width test_line rest (S i)
      else (current_line, Some i)
  end.

Definition is_break_char (c : ascii) : bool :=
  existsb (Ascii.eqb c)
    [SP; TAB; ","%char; ";"%char; "("%char; ")"%char;
     "["%char; "]"%char; "{"%char; "}"%char].

(** [for j in range(i, max(0, i - 20), -1)]: [count] indices from [j]
    downwards; the new break point when a break character is met. *)
Fixpoint search_break (remaining_content : str) (j count : nat)
    : option nat :=
  match count with
  | O => None
  | S count' =>
      if is_break_char (nth j remaining_content SP) then Some (j + 1)%nat
      else search_break remaining_content (j - 1) count'
  end.

(** The [while remaining_line] loop of [Code._wrap_code_line]; [None]
    when the fuel is exhausted before the loop is left. *)
Fixpoint wrap_code_loop (fuel : nat) (font_name : str)
    (font_size max_width : Q) (leading : str)
    (wrapped_lines : list str) (remaining_line : str)
    : option (list str) :=
  match fuel with
  | O => None
  | S fuel' =>
      if negb (truthy remaining_line) then Some wrapped_lines else
      let indent :=
        if truthy wrapped_lines then leading ++ py "    " else leading in
      let remaining_content :=
        if truthy wrapped_lines then lstrip remaining_line
        else skipn (List.length leading) remaining_line in
      match fit_chars font_name font_size max_width
              indent remaining_content 0 with
      | (current_line, None) => Some (wrapped_lines ++ [current_line])
      | (current_line, Some i) =>
          let break_point :=
            match search_break remaining_content i (i - Nat.max 0 (i - 20))
            with
            | Some b => b
            | None => i
            end in
          let wrapped_lines' :=
            wrapped_lines
            ++ [firstn (List.length indent + break_point) current_line] in
          let remaining_line' := lstrip (skipn break_point remaining_content) in
          if negb (truthy remaining_line') then Some wrapped_lines'
          else wrap_code_loop fuel' font_name font_size max_width leading
                 wrapped_lines' remaining_line'
      end
  end.

Definition _wrap_code_line (fuel : nat) (line font_name : str)
    (font_size max_width : Q) : option (list str) :=
  let leading := leading_whitespace line in
  if blank line then Some [line]
  else if Qleb (stringWidth line font_name font_size) max_width
  then Some [line]
  else wrap_code_loop fuel font_name font_size max_width leading [] line.

(** The [for wrapped_line in wrapped_lines] loop of [Code.render]; the
    [y] after the last line is returned. *)
Fixpoint draw_code_segments (segments : list str) (x current_y line_height : Q)
    (font_name : str) (font_size : Q) : M Q :=
  match segments with
  | [] => ret current_y
  | wrapped_line :: rest =>
      draw (HighlightedLine wrapped_line x current_y font_name font_size) ;;;
      draw_code_segments rest x (current_y - line_height) line_height
        font_name font_size
  end.

(** The [for line in code_lines] loop of [Code.render]. *)
Fixpoint draw_code_lines (fuel : nat) (code_lines : list str)
    (x current_y line_height max_width : Q)
    (font_name : str) (font_size : Q) : M unit :=
  match code_lines with
  | [] => ret tt
  | line :: rest =>
      let line_width := stringWidth line font_name font_size in
      if Qleb line_width max_width then
        draw (HighlightedLine line x current_y font_name font_size) ;;;
        draw_code_lines fuel rest x (current_y - line_height) line_height
          max_width font_name font_size
      else
        match _wrap_code_line fuel line font_name font_size max_width with
        | None => out_of_fuel
        | Some wrapped_lines =>
            y' <- draw_code_segments wrapped_lines x current_y line_height
                    font_name font_size ;;
            draw_code_lines fuel rest x y' line_height max_width
              font_name font_size
        end
  end.

(** [code_lines] of [Code.render]: the lines of the code without the
    leading and trailing blank lines. *)
Definition Code_render_lines (code : str) (language : option str)
    : list str :=
  let highlighted_code :=
    match language with
    | Some l =>
        if truthy l then
          (* _apply_basic_highlighting returns the code unchanged *)
          if get_lexer_by_name l then code else code
        else code
    | None => code
    end in
  pop_trailing_blank (pop_leading_blank (str_split NL highlighted_code)).

Definition Code_render (fuel : nat) (code : str) (language : option str)
    (background_color : str) (x y : Q) (theme : Theme) : M Q :=
  let font_name := py "Courier" in
  let font_size := get (theme_font_size theme) 24 * (8 # 10) in
  let max_width := get_available_width - 20 in
  let code_lines := Code_render_lines code language in
  let line_height := font_size + 2 in
  let padding := 10 in
  let total_content_height :=
    inject_Z (Z.of_nat (List.length code_lines)) * line_height
    + 2 * padding in
  draw (SetFillColor background_color) ;;;
  draw (Rect (x - 10) (y - total_content_height + padding)
             (max_width + 20) total_content_height true true) ;;;
  draw (SetFillColor (get (theme_font_color theme) (py "#000000"))) ;;;
  draw (SetFont font_name font_size) ;;;
  draw_code_lines fuel code_lines x (y - padding) line_height max_width
    font_name font_size ;;;
  ret (total_content_height + 10).

(** *** Images *)

(** The placeholder drawn by the [except Exception as e] handler of
    [Img.render]. *)
Definition Img_render_error (message : str) (x y : Q) (theme : Theme)
    : M Q :=
  draw (SetFont (get (theme_font theme) (py "Helvetica"))
                (get (theme_font_size theme) 24)) ;;;
  draw (SetFillColor (py "#FF0000")) ;;;
  draw (DrawString x y (py "[Error loading image: " ++ message ++ py "]")) ;;;
  ret 30.

Definition Img_render (path caption : str) (x y : Q) (theme : Theme)
    : M Q :=
  if path_exists path then
    match ImageReader path with
    | inl message => Img_render_error message x y theme
    | inr (img_width, img_height) =>
        let max_width := 400 in
        let max_height := 300 in
        if (img_width =? 0)%Z || (img_height =? 0)%Z then
          (* ZeroDivisionError, caught by the handler *)
          Img_render_error (py "division by zero") x y theme
        else
          let scale :=
            Qmin (Qmin (max_width / inject_Z img_width)
                       (max_height / inject_Z img_height)) 1 in
          let scaled_width := inject_Z img_width * scale in
          let scaled_height := inject_Z img_height * scale in
          draw (DrawImage path x (y - scaled_height)
                          scaled_width scaled_height) ;;;
          let total_height := scaled_height in
          if truthy caption then
            draw (SetFont (get (theme_font theme) (py "Helvetica"))
                          (get (theme_font_size theme) 20)) ;;;
            draw (SetFillColor
                    (get (theme_font_color theme) (py "#000000"))) ;;;
            draw (DrawString x (y - scaled_height - 25) caption) ;;;
            ret (total_height + 30)
          else ret total_height
    end
  else
    draw (SetFont (get (theme_font theme) (py "Helvetica"))
                  (get (theme_font_size theme) 24)) ;;;
    draw (SetFillColor (py "#FF0000")) ;;;
    draw (DrawString x y (py "[Image not found: " ++ path ++ py "]")) ;;;
    if truthy caption then
      draw (DrawString x (y - 30) caption) ;;;
      ret 60
    else ret 30.

Definition BackgroundImage_render (path : str) (x y : Q) (theme : Theme)
    : M Q :=
  if path_exists path then
    match ImageReader path with
    | inr _ =>
        draw (DrawImage path 0 0 (fst SLIDE_16_9) (snd SLIDE_16_9)) ;;;
        ret 0
    | inl _ => ret 0
    end
  else ret 0.

(** *** Positional wrappers *)

(** [isinstance(element, (Head1, Head2, Head3, BodyText, Bold))]. *)
Definition is_text_element (element : Element) : bool :=
  match element with
  | Head1 _ _ | Head2 _ _ | Head3 _ _ | BodyText _ _ | Bold _ _ => true
  | _ => false
  end.

(** [Center._estimate_text_width]: the width of the whole text. *)
Definition Center_estimate_text_width (element : Element) (theme : Theme)
    : Q :=
  match element with
  | Head1 text _ =>
      stringWidth text (get (theme_font theme) (py "Helvetica") ++ BOLD)
        (get (theme_header_font_size theme) 48)
  | Head2 text _ =>
      stringWidth text (get (theme_font theme) (py "Helvetica") ++ BOLD)
        (get (theme_header_font_size theme) 48 * (75 # 100))
  | Head3 text _ =>
      stringWidth text (get (theme_font theme) (py "Helvetica") ++ BOLD)
        (get (theme_header_font_size theme) 48 * (6 # 10))
  | BodyText text _ =>
      stringWidth text (get (theme_font theme) (py "Helvetica"))
        (get (theme_font_size theme) 24)
  | Bold text _ =>
      stringWidth text (get (theme_font theme) (py "Helvetica") ++ BOLD)
        (get (theme_font_size theme) 24)
  | _ => 0
  end.

(** The [center_x] that [Center.render] passes to its child. *)
Definition Center_center_x (element : Element) (theme : Theme) : Q :=
  let page_width := fst SLIDE_16_9 in
  let available_width :=
    page_width - DEFAULT_MARGIN_LEFT - DEFAULT_MARGIN_RIGHT in
  let center_x := DEFAULT_MARGIN_LEFT + available_width / 2 in
  if is_text_element element then
    let estimated_text_width := Center_estimate_text_width element theme in
    let center_x :=
      Qmax DEFAULT_MARGIN_LEFT (center_x - estimated_text_width / 2) in
    Qmin center_x (page_width - DEFAULT_MARGIN_RIGHT - estimated_text_width)
  else center_x.

(** The width of the longest wrapped line, as the loops of
    [TitleSlide._estimate_text_width] compute it. *)
Definition longest_line_width (text font_name : str) (font_size : Q) : Q :=
  let max_width := get_available_width in
  let lines := wrap_text stringWidth text font_name font_size max_width in
  fold_left
    (fun max_line_width line =>
       Qmax max_line_width (stringWidth line font_name font_size))
    lines 0.

Definition TitleSlide_estimate_text_width (element : Element)
    (theme : Theme) : Q :=
  match element with
  | Head1 text _ =>
      longest_line_width text
        (get (theme_font theme) (py "Helvetica") ++ BOLD)
        (get (theme_header_font_size theme) 48)
  | Head2 text _ =>
      longest_line_width text
        (get (theme_font theme) (py "Helvetica") ++ BOLD)
        (get (theme_header_font_size theme) 48 * (75 # 100))
  | Head3 text _ =>
      longest_line_width text
        (get (theme_font theme) (py "Helvetica") ++ BOLD)
        (get (theme_header_font_size theme) 48 * (6 # 10))
  | BodyText text _ =>
      longest_line_width text (get (theme_font theme) (py "Helvetica"))
        (get (theme_font_size theme) 24)
  | Bold text _ =>
      longest_line_width text
        (get (theme_font theme) (py "Helvetica") ++ BOLD)
        (get (theme_font_size theme) 24)
  | _ => 0
  end.

Definition TitleSlide_center_x (element : Element) (theme : Theme) : Q :=
  let page_width := fst SLIDE_16_9 in
  let available_width :=
    page_width - DEFAULT_MARGIN_LEFT - DEFAULT_MARGIN_RIGHT in
  if is_text_element element then
    let estimated_text_width :=
      TitleSlide_estimate_text_width element theme in
    let center_x := page_width / 2 - estimated_text_width / 2 in
    let center_x := Qmax DEFAULT_MARGIN_LEFT center_x in
    Qmin center_x (page_width - DEFAULT_MARGIN_RIGHT - estimated_text_width)
  else DEFAULT_MARGIN_LEFT + available_width / 2.

(** *** Containers

    The loops of [CombinedElement.render] and [GridLayout.render], over
    the renderer [render_element] of the children. *)

Section Loops.
Variable render_element : Element -> Q -> Q -> Theme -> M Q.

Fixpoint CombinedElement_loop (elements : list Element)
    (x current_y total_height : Q) (theme : Theme) : M Q :=
  match elements with
  | [] => ret total_height
  | element :: rest =>
      height <- render_element element x current_y theme ;;
      CombinedElement_loop rest x (current_y - height)
        (total_height + height) theme
  end.

(** [for i, element in enumerate(self.elements)], left through
    [break] as soon as [i >= self.columns]. *)
Fixpoint GridLayout_loop (elements : list Element) (i columns : Z)
    (column_width y max_height : Q) (theme : Theme) : M Q :=
  match elements with
  | [] => ret max_height
  | element :: rest =>
      if (i >=? columns)%Z then ret max_height
      else
        let column_x := 50 + inject_Z i * column_width in
        height <- render_element element column_x y theme ;;
        GridLayout_loop rest (i + 1) columns column_width y
          (Qmax max_height height) theme
  end.
End Loops.

(** [element.render(canvas_obj, x, y, theme)], by dynamic dispatch on
    the class of the element. *)
Fixpoint render (fuel : nat) (element : Element) (x y : Q) (theme : Theme)
    {struct element} : M Q :=
  match element with
  | Head1 text color => Head1_render text color x y theme
  | Head2 text color => Head2_render text color x y theme
  | Head3 text color => Head3_render text color x y theme
  | BodyText text color => BodyText_render text color x y theme
  | Bold text color => Bold_render text color x y theme
  | Code code language background_color =>
      Code_render fuel code language background_color x y theme
  | Img path caption => Img_render path caption x y theme
  | Center child =>
      render fuel child (Center_center_x child theme) y theme
  | Bottom child =>
      let bottom_y := 50 in
      render fuel child x bottom_y theme
  | TitleSlide child =>
      let center_y := snd SLIDE_16_9 / 2 in
      render fuel child (TitleSlide_center_x child theme) center_y theme
  | GridLayout elements columns =>
      let page_width := fst SLIDE_16_9 in
      if (columns =? 0)%Z then raise ZeroDivisionError
      else
        let column_width := (page_width - 100) / inject_Z columns in
        GridLayout_loop (render fuel) elements 0 columns column_width y 0
          theme
  | BackgroundImage path => BackgroundImage_render path x y theme
  | CombinedElement elements =>
      CombinedElement_loop (render fuel) elements x y 0 theme
  end.

End Render.

(** ** Slides: height estimation and pagination *)

(** [l[:n]] for a Python integer [n]: the first [n] items, or all but the
    last [-n] when [n] is negative. *)
Definition slice_to {A} (l : list A) (n : Z) : list A :=
  if (0 <=? n)%Z then firstn (Z.to_nat n) l
  else firstn (List.length l - Z.to_nat (- n)) l.

(** [max(1, len(text) * font_size // max_width + 1)], in exact
    arithmetic; [estimated_lines_py] is the count in Python's numbers,
    which can be one less where the font size is a float (see
    [estimated_lines_rounding]). *)
Definition estimated_lines (text : str) (font_size max_width : Q) : Z :=
  Z.max 1 (Qfloor (inject_Z (Z.of_nat (List.length text)) * font_size
                   / max_width) + 1).

(** [Slide._estimate_element_height], in exact arithmetic
    ([_estimate_element_height_py] is the estimate in Python's numbers).
    Every class of the element type is recognised, so the fallback of 50
    for an unknown object is not reached. *)
Fixpoint _estimate_element_height (element : Element) (theme : Theme) : Q :=
  match element with
  | Head1 text _ =>
      let font_size := get (theme_header_font_size theme) 48 in
      let max_width := get_available_width in
      inject_Z (estimated_lines text font_size max_width) * (font_size + 5) + 5
  | Head2 text _ =>
      let font_size := get (theme_header_font_size theme) 48 * (75 # 100) in
      let max_width := get_available_width in
      inject_Z (estimated_lines text font_size max_width) * (font_size + 4) + 4
  | Head3 text _ =>
      let font_size := get (theme_header_font_size theme) 48 * (6 # 10) in
      let max_width := get_available_width in
      inject_Z (estimated_lines text font_size max_width) * (font_size + 3) + 3
  | BodyText text _ =>
      let font_size := get (theme_font_size theme) 24 in
      let max_width := get_available_width in
      inject_Z (estimated_lines text font_size max_width) * (font_size + 2) + 3
  | Bold text _ =>
      let font_size := get (theme_font_size theme) 24 in
      let max_width := get_available_width in
      inject_Z (estimated_lines text font_size max_width) * (font_size + 2) + 3
  | Code code _ _ =>
      let font_size := get (theme_font_size theme) 24 * (8 # 10) in
      let code_lines := str_split NL (strip code) in
      let line_height := font_size + 2 in
      let padding := 10 in
      inject_Z (Z.of_nat (List.length code_lines)) * line_height
      + 2 * padding + 10
  | Img _ _ => 350
  | Center child => _estimate_element_height child theme
  | Bottom child => _estimate_element_height child theme
  | TitleSlide child => _estimate_element_height child theme
  | GridLayout elements columns =>
      fold_left
        (fun max_height height => Qmax max_height height)
        (* the heights of [element.elements[:element.columns]]; the slice is
           taken after the map so that the recursion is structural, see
           [slice_to_map] *)
        (slice_to
           (map (fun grid_element =>
                   _estimate_element_height grid_element theme) elements)
           columns)
        0
  | BackgroundImage _ => 0
  | CombinedElement elements =>
      fold_left
        (fun total_height height => total_height + height)
        (map (fun sub_element => _estimate_element_height sub_element theme)
             elements)
        0
  end.

Record Slide : Type := mkSlide { slide_elements : list Element }.

(** The state of the loop of [render_with_overflow_detection]. *)
Record PageState : Type := mkPageState {
  slides : list Slide;
  current_slide_elements : list Element;
  current_y : Q
}.

(** The body of the loop of [render_with_overflow_detection], in exact
    arithmetic ([overflow_step_py] is the loop in Python's numbers,
    where the two ways of computing the cursor, [current_y -=
    estimated_height + 10] and [... - estimated_height - 10], can differ
    in the last bit; see [pagination_rounding_decides]). *)
Definition overflow_step (theme : Theme) (st : PageState) (element : Element)
    : PageState :=
  let page_height := snd SLIDE_16_9 in
  let bottom_margin := DEFAULT_MARGIN_BOTTOM in
  let estimated_height := _estimate_element_height element theme in
  if Qltb (current_y st - estimated_height - 10) bottom_margin
     && truthy (current_slide_elements st)
  then
    mkPageState (slides st ++ [mkSlide (current_slide_elements st)])
                [element]
                (page_height - DEFAULT_MARGIN_TOP - estimated_height - 10)
  else
    mkPageState (slides st)
                (current_slide_elements st ++ [element])
                (current_y st - (estimated_height + 10)).

Definition render_with_overflow_detection (self : Slide) (theme : Theme)
    : list Slide :=
  let page_height := snd SLIDE_16_9 in
  let st :=
    fold_left (overflow_step theme) (slide_elements self)
      (mkPageState [] [] (page_height - DEFAULT_MARGIN_TOP)) in
  let slides :=
    if truthy (current_slide_elements st)
    then slides st ++ [mkSlide (current_slide_elements st)]
    else slides st in
  if negb (truthy slides) then [self] else slides.

(** ** Notions used by the statements *)

(** The elements of a list of physical slides, in order. *)
Definition flatten (physical : list Slide) : list Element :=
  List.concat (map slide_elements physical).

(** The slides of a loop state once the pending elements are flushed. *)
Definition flush (st : PageState) : list Slide :=
  if truthy (current_slide_elements st)
  then slides st ++ [mkSlide (current_slide_elements st)]
  else slides st.

(** The top of the content area, where [current_y] starts. *)
Definition top_y : Q := snd SLIDE_16_9 - DEFAULT_MARGIN_TOP.

(** A theme whose font sizes are not negative. *)
Definition sizes_nonneg (theme : Theme) : Prop :=
  0 <= get (theme_font_size theme) 24
  /\ 0 <= get (theme_header_font_size theme) 48.

(** The height formula of the specification for a text element:
    [lineCount * (fontSize + lineGap) + trailingGap]. *)
Definition text_height (line_count : Z) (font_size line_gap trailing_gap : Q)
    : Q :=
  inject_Z line_count * (font_size + line_gap) + trailing_gap.

(** The words joined by single spaces, [" ".join(words)]. *)
Fixpoint join (words : list str) : str :=
  match words with
  | [] => []
  | [w] => w
  | w :: rest => w ++ SP :: join rest
  end.

(** [sum(heights)], accumulated from 0 as the code does. *)
Definition sum_heights (heights : list Q) : Q :=
  fold_left (fun total h => total + h) heights 0.

(** [max(0, *heights)], accumulated from 0 as the code does. *)
Definition max_heights (heights : list Q) : Q :=
  fold_left (fun m h => Qmax m h) heights 0.

(** A theme that selects the Courier family, which [courier_width]
    measures. *)
Definition courier_theme : Theme :=
  mkTheme (Some (py "Courier")) (Some 24) (Some 48)
          (Some (py "#000000")) (Some (py "#FF5733")) (Some (py "#FFFFFF")).

(** File systems and image loaders for the examples. *)
Definition no_file (path : str) : bool := false.
Definition every_file (path : str) : bool := true.
Definition broken_image (path : str) : str + (Z * Z) :=
  inl (py "cannot identify image file").
Definition image_640_480 (path : str) : str + (Z * Z) := inr (640, 480)%Z.
Definition every_lexer (language : str) : bool := true.

(** The code block of the specification's example: two indented lines
    around one empty line. *)
Definition code_example : str := py "  x = 1" ++ [NL; NL] ++ py "  y = 2".

(** Children rendered one below the other from [y0]: each child is
    rendered at a [y] equal to [y0] minus the sum [offset] of the heights
    of the children before it, on the canvas that the child before it
    left, and returns its own height. *)
Inductive stacked (render_element : Element -> Q -> Q -> Theme -> M Q)
    (x : Q) (theme : Theme) (y0 : Q)
    : Q -> list Element -> Canvas -> list Q -> Canvas -> Prop :=
| stacked_nil : forall offset cv,
    stacked render_element x theme y0 offset [] cv [] cv
| stacked_cons : forall offset element rest cv y height cv1 heights cv2,
    y == y0 - offset ->
    render_element element x y theme cv = Ok (height, cv1) ->
    stacked render_element x theme y0 (offset + height) rest cv1 heights cv2 ->
    stacked render_element x theme y0 offset (element :: rest) cv
      (height :: heights) cv2.

(** Children rendered side by side: the child of index [i] is rendered at
    the left edge [50 + i * column_width] of its column, all at the same
    [y], each on the canvas that the child before it left. *)
Inductive in_columns (render_element : Element -> Q -> Q -> Theme -> M Q)
    (y : Q) (theme : Theme) (column_width : Q)
    : Z -> list Element -> Canvas -> list Q -> Canvas -> Prop :=
| in_columns_nil : forall i cv,
    in_columns render_element y theme column_width i [] cv [] cv
| in_columns_cons : forall i element rest cv height cv1 heights cv2,
    render_element element (50 + inject_Z i * column_width) y theme cv
    = Ok (height, cv1) ->
    in_columns render_element y theme column_width (i + 1) rest cv1
      heights cv2 ->
    in_columns render_element y theme column_width i (element :: rest) cv
      (height :: heights) cv2.

(** A renderer that returns a height on the children of a list, wherever
    and on whatever canvas they are rendered. *)
Definition all_return (render_element : Element -> Q -> Q -> Theme -> M Q)
    (theme : Theme) (children : list Element) : Prop :=
  forall child, In child children ->
  forall x y cv, exists height cv',
    render_element child x y theme cv = Ok (height, cv').

(** The code holds at least one character that is not whitespace. *)
Definition has_non_whitespace (s : str) : Prop :=
  exists c, In c s /\ is_space c = false.

(** Two lines that are both blank or both not blank. *)
Definition same_blank (a b : str) : Prop := blank a = blank b.

(** A line of code indented by 59 spaces: at the 19.2pt Courier of the
    default theme it measures 60 * 11.52 = 691.2, more than the 672 of a
    code block, and its indentation alone measures 679.68. *)
Definition deep_line : str := repeat SP 59 ++ py "x".

(** A line of code makes progress in [_wrap_code_line] when each of its
    characters fits on its own after the indentation of the line, and
    after the continuation indentation (four more spaces). *)
Definition makes_progress (stringWidth : str -> str -> Q -> Q)
    (font_name : str) (font_size max_width : Q) (line : str) : Prop :=
  forall c, In c line ->
    Qleb (stringWidth (leading_whitespace line ++ [c]) font_name font_size)
      max_width = true
    /\ Qleb (stringWidth ((leading_whitespace line ++ py "    ") ++ [c])
               font_name font_size) max_width = true.

(** A renderer whose height for [element] does not depend on where, nor
    on which canvas, it is rendered. *)
Definition height_fixed (render_element : Element -> Q -> Q -> Theme -> M Q)
    (theme : Theme) (element : Element) : Prop :=
  forall x y cv h cv1 x' y' cv' h' cv1',
    render_element element x y theme cv = Ok (h, cv1) ->
    render_element element x' y' theme cv' = Ok (h', cv1') ->
    h = h'.

(** *** Pagination by estimate *)

(** The estimated cursor after one more element. *)
Definition est_step (theme : Theme) (cy : Q) (element : Element) : Q :=
  cy - (_estimate_element_height element theme + 10).

(** The estimated cursor after the elements of a slide, from the top. *)
Definition running_y (theme : Theme) (elements : list Element) : Q :=
  fold_left (est_step theme) elements top_y.

(** From the cursor [cy], every further element leaves the estimated
    cursor at or above the bottom margin. *)
Fixpoint fits_from (theme : Theme) (cy : Q) (elements : list Element)
    : bool :=
  match elements with
  | [] => true
  | element :: rest =>
      Qleb DEFAULT_MARGIN_BOTTOM (est_step theme cy element)
      && fits_from theme (est_step theme cy element) rest
  end.

(** The elements of one slide fit by estimate: after the first element,
    which is placed unconditionally, no element brings the estimated
    cursor below the bottom margin. *)
Definition chunk_fits (theme : Theme) (elements : list Element) : bool :=
  match elements with
  | [] => true
  | first :: rest => fits_from theme (est_step theme top_y first) rest
  end.

(** The slide [next] was opened because its first element did not fit by
    estimate after the elements of [closed]. *)
Definition boundary (theme : Theme) (closed next : list Element) : Prop :=
  match next with
  | [] => True
  | first :: _ => running_y theme (closed ++ [first]) < DEFAULT_MARGIN_BOTTOM
  end.

Fixpoint boundaries (theme : Theme) (chunks : list (list Element)) : Prop :=
  match chunks with
  | [] => True
  | closed :: rest =>
      match rest with
      | [] => True
      | next :: _ => boundary theme closed next
      end
      /\ boundaries theme rest
  end.

(** The invariant of the loop of [render_with_overflow_detection]. *)
Definition page_inv (theme : Theme) (st : PageState) : Prop :=
  Forall (fun s => slide_elements s <> []
                   /\ chunk_fits theme (slide_elements s) = true) (slides st)
  /\ chunk_fits theme (current_slide_elements st) = true
  /\ current_y st == running_y theme (current_slide_elements st)
  /\ (current_slide_elements st = [] -> slides st = [])
  /\ boundaries theme
       (map slide_elements (slides st) ++ [current_slide_elements st]).

(** *** Words *)

(** The words of a text: the pieces between spaces that are not empty. *)
Definition nonempty_words (s : str) : list str :=
  filter truthy (str_split SP s).

(** *** Text elements *)

(** The text of a text element with the font name and the font size in
    which its renderer sets it. *)
Definition text_font (element : Element) (theme : Theme)
    : option (str * str * Q) :=
  match element with
  | Head1 text _ =>
      Some (text, get (theme_font theme) (py "Helvetica") ++ BOLD,
            get (theme_header_font_size theme) 48)
  | Head2 text _ =>
      Some (text, get (theme_font theme) (py "Helvetica") ++ BOLD,
            get (theme_header_font_size theme) 48 * (75 # 100))
  | Head3 text _ =>
      Some (text, get (theme_font theme) (py "Helvetica") ++ BOLD,
            get (theme_header_font_size theme) 48 * (6 # 10))
  | BodyText text _ =>
      Some (text, get (theme_font theme) (py "Helvetica"),
            get (theme_font_size theme) 24)
  | Bold text _ =>
      Some (text, get (theme_font theme) (py "Helvetica") ++ BOLD,
            get (theme_font_size theme) 24)
  | _ => None
  end.

(** An image loader that reports no negative size. *)
Definition sizes_of_images_nonneg (ImageReader : str -> str + (Z * Z))
    : Prop :=
  forall path w h, ImageReader path = inr (w, h) -> (0 <= w /\ 0 <= h)%Z.

(** ** Rendering a slide and generating the document *)

Section Document.

Variable stringWidth : str -> str -> Q -> Q.
Variable path_exists : str -> bool.
Variable ImageReader : str -> str + (Z * Z).
Variable get_lexer_by_name : str -> bool.

(** The [for element in self.elements] loop of [Slide.render], over the
    renderer of the elements. *)
Fixpoint Slide_render_loop
    (render_element : Element -> Q -> Q -> Theme -> M Q)
    (elements : list Element) (current_y : Q) (theme : Theme) : M unit :=
  match elements with
  | [] => ret tt
  | element :: rest =>
      height <- render_element element DEFAULT_MARGIN_LEFT current_y theme ;;
      Slide_render_loop render_element rest (current_y - (height + 10)) theme
  end.

(** [Slide.render]. *)
Definition Slide_render (fuel : nat) (self : Slide) (theme : Theme) : M unit :=
  let page_height := snd SLIDE_16_9 in
  let current_y := page_height - DEFAULT_MARGIN_TOP in
  Slide_render_loop
    (render stringWidth path_exists ImageReader get_lexer_by_name fuel)
    (slide_elements self) current_y theme.

(** [PyzlidesPDF.render_slide]: the background, then the slide, then
    [showPage()], which closes the page; the result is the page drawn. *)
Definition render_slide (fuel : nat) (slide : Slide) (theme : Theme)
    : outcome Canvas :=
  let bg_color := get (theme_background_color theme) (py "#FFFFFF") in
  match
    (draw (SetFillColor bg_color) ;;;
     draw (Rect 0 0 (fst SLIDE_16_9) (snd SLIDE_16_9) true false) ;;;
     Slide_render fuel slide theme) []
  with
  | Ok (_, page) => Ok page
  | Raise e => Raise e
  | OutOfFuel => OutOfFuel
  end.

(** The inner loop of [PyzlidesPDF.generate], over the physical slides of
    one slide: the count of pages and the pages so far. *)
Fixpoint render_overflow_slides (fuel : nat) (overflow_slides : list Slide)
    (theme : Theme) (total_slides_rendered : nat) (pages : list Canvas)
    : outcome (nat * list Canvas) :=
  match overflow_slides with
  | [] => Ok (total_slides_rendered, pages)
  | overflow_slide :: rest =>
      match render_slide fuel overflow_slide theme with
      | Ok page =>
          render_overflow_slides fuel rest theme (S total_slides_rendered)
            (pages ++ [page])
      | Raise e => Raise e
      | OutOfFuel => OutOfFuel
      end
  end.

(** The outer loop of [PyzlidesPDF.generate]. *)
Fixpoint generate_loop (fuel : nat) (slides : list Slide) (theme : Theme)
    (total_slides_rendered : nat) (pages : list Canvas)
    : outcome (nat * list Canvas) :=
  match slides with
  | [] => Ok (total_slides_rendered, pages)
  | slide :: rest =>
      let overflow_slides := render_with_overflow_detection slide theme in
      match render_overflow_slides fuel overflow_slides theme
              total_slides_rendered pages with
      | Ok (total, pages') => generate_loop fuel rest theme total pages'
      | Raise e => Raise e
      | OutOfFuel => OutOfFuel
      end
  end.

(** [PyzlidesPDF.generate]: the count that is printed and the pages of
    the document that [save()] writes.  An exception leaves the loops
    before [save()]: no document is written. *)
Definition generate (fuel : nat) (slides : list Slide) (theme : Theme)
    : outcome (nat * list Canvas) :=
  generate_loop fuel slides theme 0 [].

End Document.

(** Elements rendered as a slide does, from [y0]: each at the left
    margin and at a [y] equal to [y0] minus the sum [offset] of the
    heights, each with a gap of 10, of the elements before it. *)
Inductive stacked_with_gap
    (render_element : Element -> Q -> Q -> Theme -> M Q)
    (theme : Theme) (y0 : Q)
    : Q -> list Element -> Canvas -> list Q -> Canvas -> Prop :=
| stacked_with_gap_nil : forall offset cv,
    stacked_with_gap render_element theme y0 offset [] cv [] cv
| stacked_with_gap_cons :
    forall offset element rest cv y height cv1 heights cv2,
    y == y0 - offset ->
    render_element element DEFAULT_MARGIN_LEFT y theme cv
    = Ok (height, cv1) ->
    stacked_with_gap render_element theme y0 (offset + (height + 10))
      rest cv1 heights cv2 ->
    stacked_with_gap render_element theme y0 offset (element :: rest) cv
      (height :: heights) cv2.

(** The number of pages of a list of slides: the physical slides of
    each. *)
Definition count_pages (slides : list Slide) (theme : Theme) : nat :=
  list_sum
    (map (fun slide =>
            List.length (render_with_overflow_detection slide theme))
         slides).

(** A computation that only appends to the canvas. *)
Definition appends_only {A} (m : M A) : Prop :=
  forall cv a cv', m cv = Ok (a, cv') -> exists ops, cv' = cv ++ ops.

(** The two operations with which [render_slide] begins every page: the
    background colour and the rectangle that fills the page. *)
Definition page_background (theme : Theme) : Canvas :=
  [SetFillColor (get (theme_background_color theme) (py "#FFFFFF"));
   Rect 0 0 (fst SLIDE_16_9) (snd SLIDE_16_9) true false].

(** ** Operators

    The right operand of [+]: a string, an element, or any other
    object. *)
Inductive operand : Type :=
| a_str (s : str)
| an_element (e : Element)
| another_object.

(** [BaseElement.__add__]; [None] is [NotImplemented]. *)
Definition BaseElement_add (self : Element) (other : operand)
    : option Element :=
  match other with
  | an_element e => Some (CombinedElement [self; e])
  | _ => None
  end.

(** [self.__add__(other)], by dynamic dispatch on the class of [self]:
    the text classes and [Code] take a string, [CombinedElement] appends
    to its elements, the other classes inherit [BaseElement.__add__]. *)
Definition Element_add (self : Element) (other : operand) : option Element :=
  match self, other with
  | Head1 text color, a_str s => Some (Head1 (text ++ s) color)
  | Head2 text color, a_str s => Some (Head2 (text ++ s) color)
  | Head3 text color, a_str s => Some (Head3 (text ++ s) color)
  | BodyText text color, a_str s => Some (BodyText (text ++ s) color)
  | Bold text color, a_str s => Some (Bold (text ++ s) color)
  | Code code language background_color, a_str s =>
      Some (Code (code ++ s) language background_color)
  | CombinedElement elements, an_element e =>
      Some (CombinedElement (elements ++ [e]))
  | CombinedElement _, _ => None
  | _, _ => BaseElement_add self other
  end.

(** [Bold.__radd__]: a string on the left gives a string. *)
Definition Bold_radd (text : str) (other : operand) : option str :=
  match other with
  | a_str s => Some (s ++ text)
  | _ => None
  end.

(** The elements that [+] puts under the combined element. *)
Definition operands_of (element : Element) : list Element :=
  match element with
  | CombinedElement elements => elements
  | _ => [element]
  end.

(** ** Configuration *)

(** The theme [Config.get_theme] returns for a configuration without a
    [theme] key: the empty dictionary. *)
Definition empty_theme : Theme := mkTheme None None None None None None.

(** An image with a caption occurs in the element. *)
Fixpoint has_caption (element : Element) : bool :=
  match element with
  | Img _ caption => truthy caption
  | Center child | Bottom child | TitleSlide child => has_caption child
  | GridLayout elements _ => existsb has_caption elements
  | CombinedElement elements => existsb has_caption elements
  | _ => false
  end.

(** ** Syntax highlighting of a line of code

    [Code._render_highlighted_line]: the operations that
    [HighlightedLine] stands for in the log of [Code.render].  The line
    is cut into pieces from left to right, each drawn in the colour of
    its kind.  [str.isdigit], [str.isalpha] and [str.isalnum] are
    parameters; the [while i < len(line)] loop takes fuel. *)

Definition DQUOTE : ascii := "034"%char.
Definition SQUOTE : ascii := "039"%char.
Definition BACKSLASH : ascii := "092"%char.

Fixpoint str_eqb (a b : str) : bool :=
  match a, b with
  | [], [] => true
  | c :: a', d :: b' => Ascii.eqb c d && str_eqb a' b'
  | _, _ => false
  end.

(** [keywords.get(self.language, [])]. *)
Definition keywords (language : option str) : list str :=
  match language with
  | None => []
  | Some l =>
      if str_eqb l (py "python") then
        map py ["def"; "class"; "if"; "else"; "elif"; "for"; "while";
                "import"; "from"; "return"; "try"; "except"; "finally";
                "with"; "as"; "and"; "or"; "not"; "in"; "is"; "lambda";
                "yield"; "global"; "nonlocal"; "True"; "False";
                "None"]%string
      else if str_eqb l (py "javascript") then
        map py ["function"; "var"; "let"; "const"; "if"; "else"; "for";
                "while"; "do"; "switch"; "case"; "default"; "break";
                "continue"; "return"; "try"; "catch"; "finally"; "throw";
                "new"; "this"; "typeof"; "instanceof"; "true"; "false";
                "null"; "undefined"]%string
      else if str_eqb l (py "java") then
        map py ["public"; "private"; "protected"; "static"; "final";
                "class"; "interface"; "extends"; "implements"; "if";
                "else"; "for"; "while"; "do"; "switch"; "case"; "default";
                "break"; "continue"; "return"; "try"; "catch"; "finally";
                "throw"; "throws"; "new"; "this"; "super"; "true"; "false";
                "null"]%string
      else []
  end.

(** The inner loop of the string branch with the [if i < len(line)]
    after it: how many characters after the opening quote belong to the
    string, the closing quote included when there is one.  A backslash
    takes the character after it along. *)
Fixpoint scan_string (quote_char : ascii) (after : str) : nat :=
  match after with
  | [] => 0
  | c :: after' =>
      if Ascii.eqb c quote_char then 1
      else if Ascii.eqb c BACKSLASH then
        match after' with
        | [] => 1
        | _ :: after'' => S (S (scan_string quote_char after''))
        end
      else S (scan_string quote_char after')
  end.

(** [while i < len(line) and p(line[i]): i += 1]: the length of the run
    of characters that satisfy [p]. *)
Fixpoint run_length (p : ascii -> bool) (s : str) : nat :=
  match s with
  | c :: s' => if p c then S (run_length p s') else 0
  | [] => 0
  end.

Section Highlight.

Variable stringWidth : str -> str -> Q -> Q.
Variables isdigit isalpha isalnum : ascii -> bool.

(** The [while i < len(line)] loop, on what is left of the line from
    [i] on. *)
Fixpoint highlight_loop (fuel : nat) (language : option str) (rest : str)
    (current_x y : Q) (font_name : str) (font_size : Q) (theme : Theme)
    {struct fuel} : M unit :=
  match rest with
  | [] => ret tt
  | char :: after =>
      match fuel with
      | O => out_of_fuel
      | S fuel' =>
          if Ascii.eqb char "#"
             || (Ascii.eqb char "/"
                 && match after with
                    | next :: _ => Ascii.eqb next "/"
                    | [] => false
                    end)
          then
            let comment_text := rest in
            draw (SetFillColor (py "#808080")) ;;;
            draw (DrawString current_x y comment_text)
          else if Ascii.eqb char DQUOTE || Ascii.eqb char SQUOTE then
            let taken := scan_string char after in
            let string_text := char :: firstn taken after in
            draw (SetFillColor (py "#008000")) ;;;
            draw (DrawString current_x y string_text) ;;;
            highlight_loop fuel' language (skipn taken after)
              (current_x + stringWidth string_text font_name font_size) y
              font_name font_size theme
          else if isdigit char then
            let taken :=
              run_length (fun c => isdigit c || Ascii.eqb c ".") rest in
            let number_text := firstn taken rest in
            draw (SetFillColor (py "#FF6600")) ;;;
            draw (DrawString current_x y number_text) ;;;
            highlight_loop fuel' language (skipn taken rest)
              (current_x + stringWidth number_text font_name font_size) y
              font_name font_size theme
          else if isalpha char || Ascii.eqb char "_" then
            let taken :=
              run_length (fun c => isalnum c || Ascii.eqb c "_") rest in
            let word := firstn taken rest in
            let language_keywords := keywords language in
            draw (SetFillColor
                    (if existsb (str_eqb word) language_keywords
                     then py "#0000FF"
                     else get (theme_font_color theme) (py "#000000"))) ;;;
            draw (DrawString current_x y word) ;;;
            highlight_loop fuel' language (skipn taken rest)
              (current_x + stringWidth word font_name font_size) y
              font_name font_size theme
          else
            draw (SetFillColor
                    (get (theme_font_color theme) (py "#000000"))) ;;;
            draw (DrawString current_x y [char]) ;;;
            highlight_loop fuel' language after
              (current_x + stringWidth [char] font_name font_size) y
              font_name font_size theme
      end
  end.

Definition _render_highlighted_line (fuel : nat) (language : option str)
    (line : str) (x y : Q) (font_name : str) (font_size : Q)
    (theme : Theme) : M unit :=
  highlight_loop fuel language line x y font_name font_size theme.

(** Pieces drawn from left to right on the line [y]: each is a colour
    and a string, the first at [x], each next one further right by the
    width of the one before it. *)
Inductive laid_out (y : Q) (font_name : str) (font_size : Q)
    : Q -> Canvas -> Prop :=
| laid_out_nil : forall x, laid_out y font_name font_size x []
| laid_out_cons : forall x color text rest,
    laid_out y font_name font_size
      (x + stringWidth text font_name font_size) rest ->
    laid_out y font_name font_size x
      (SetFillColor color :: DrawString x y text :: rest).

End Highlight.

(** The text drawn by the operations, in order. *)
Definition drawn_text (ops : Canvas) : str :=
  flat_map (fun op => match op with
                      | DrawString _ _ text => text
                      | _ => []
                      end) ops.

(** The ASCII digits and letters, for the examples. *)
Definition ascii_isdigit (c : ascii) : bool :=
  let n := nat_of_ascii c in ((48 <=? n) && (n <=? 57))%nat.
Definition ascii_isalpha (c : ascii) : bool :=
  let n := nat_of_ascii c in
  (((65 <=? n) && (n <=? 90)) || ((97 <=? n) && (n <=? 122)))%nat.
Definition ascii_isalnum (c : ascii) : bool :=
  ascii_isalpha c || ascii_isdigit c.

(** ** Python numbers

    Where the code decides by a number (how many lines a text is
    estimated to take, whether an element still fits on the slide) the
    outcome can turn on the last bit of a float.  For these places the
    numbers are modelled as Python has them: an [int] is exact, a
    [float] is a binary64 (the kernel's primitive floats), and an
    operation on an [int] and a [float] first converts the [int].
    Conversions of ints beyond the range of a float, which raise
    [OverflowError] in Python, give an infinity here. *)

Module Float64.

(** [float(n)]: the nearest binary64, ties to even. *)
Definition of_Z (n : Z) : float :=
  SF2Prim (binary_normalize prec emax n 0 false).

(** C's [floor]. *)
Definition floor (f : float) : float :=
  match Prim2SF f with
  | S754_finite s m e =>
      if (0 <=? e)%Z then f
      else of_Z (Z.shiftr (if s then Z.neg m else Z.pos m) (- e))
  | _ => f
  end.

(** C's [fmod]: the remainder of the truncated division, which is
    exact and has the sign of [x]. *)
Definition fmod (x y : float) : float :=
  match Prim2SF x, Prim2SF y with
  | S754_finite sx mx ex, S754_finite _ my ey =>
      let e := Z.min ex ey in
      let X := Z.shiftl (Z.pos mx) (ex - e) in
      let Y := Z.shiftl (Z.pos my) (ey - e) in
      let R := Z.modulo X Y in
      SF2Prim (binary_normalize prec emax (if sx then (- R)%Z else R) e sx)
  | S754_zero _, S754_finite _ _ _ => x
  | S754_finite _ _ _, S754_infinity _ => x
  | S754_zero _, S754_infinity _ => x
  | _, _ => nan
  end.

(** [if (f)] in C: not zero; a NaN counts as not zero. *)
Definition nonzero (f : float) : bool := negb (PrimFloat.eqb f zero).

(** [copysign(0.0, f)]. *)
Definition zero_with_sign_of (f : float) : float :=
  if get_sign f then neg_zero else zero.

(** CPython's [float_floor_div] (through [_float_div_mod]), for a
    divisor that is not zero. *)
Definition floor_div (vx wx : float) : float :=
  let remainder := fmod vx wx in
  let quotient := PrimFloat.div (PrimFloat.sub vx remainder) wx in
  let quotient :=
    if nonzero remainder
    then if negb (Bool.eqb (PrimFloat.ltb wx zero)
                    (PrimFloat.ltb remainder zero))
         then PrimFloat.sub quotient one else quotient
    else quotient in
  if nonzero quotient then
    let floordiv := floor quotient in
    if PrimFloat.ltb 0.5%float (PrimFloat.sub quotient floordiv)
    then PrimFloat.add floordiv one else floordiv
  else zero_with_sign_of (PrimFloat.div vx wx).

(** [n < f] and [f < n] for an int and a float, which Python compares
    exactly. *)
Definition Z_ltb (n : Z) (f : float) : bool :=
  match Prim2SF f with
  | S754_nan => false
  | S754_infinity s => negb s
  | S754_zero _ => (n <? 0)%Z
  | S754_finite s m e =>
      let v := if s then Z.neg m else Z.pos m in
      if (0 <=? e)%Z then (n <? Z.shiftl v e)%Z
      else (Z.shiftl n (- e) <? v)%Z
  end.

Definition ltb_Z (f : float) (n : Z) : bool :=
  match Prim2SF f with
  | S754_nan => false
  | S754_infinity s => s
  | S754_zero _ => (0 <? n)%Z
  | S754_finite s m e =>
      let v := if s then Z.neg m else Z.pos m in
      if (0 <=? e)%Z then (Z.shiftl v e <? n)%Z
      else (v <? Z.shiftl n (- e))%Z
  end.

End Float64.

Inductive pynum : Type :=
| PyInt (n : Z)
| PyFloat (f : float).

(** [float(a)]. *)
Definition py_float (a : pynum) : float :=
  match a with
  | PyInt n => Float64.of_Z n
  | PyFloat f => f
  end.

(** [a + b], [a - b], [a * b]. *)
Definition py_add (a b : pynum) : pynum :=
  match a, b with
  | PyInt n, PyInt m => PyInt (n + m)
  | _, _ => PyFloat (PrimFloat.add (py_float a) (py_float b))
  end.

Definition py_sub (a b : pynum) : pynum :=
  match a, b with
  | PyInt n, PyInt m => PyInt (n - m)
  | _, _ => PyFloat (PrimFloat.sub (py_float a) (py_float b))
  end.

Definition py_mul (a b : pynum) : pynum :=
  match a, b with
  | PyInt n, PyInt m => PyInt (n * m)
  | _, _ => PyFloat (PrimFloat.mul (py_float a) (py_float b))
  end.

(** [a // b] for a divisor that is not zero (the one divisor of this
    program is the content width, 692). *)
Definition py_floordiv (a b : pynum) : pynum :=
  match a, b with
  | PyInt n, PyInt m => PyInt (n / m)
  | _, _ => PyFloat (Float64.floor_div (py_float a) (py_float b))
  end.

(** [a < b]. *)
Definition py_lt (a b : pynum) : bool :=
  match a, b with
  | PyInt n, PyInt m => (n <? m)%Z
  | PyInt n, PyFloat f => Float64.Z_ltb n f
  | PyFloat f, PyInt m => Float64.ltb_Z f m
  | PyFloat f, PyFloat g => PrimFloat.ltb f g
  end.

(** [max(a, b)]: the first argument unless the second is greater. *)
Definition py_max (a b : pynum) : pynum := if py_lt a b then b else a.

Definition py_len {A} (l : list A) : pynum := PyInt (Z.of_nat (List.length l)).

(** *** The estimator and the pagination in Python's numbers *)

(** The two numeric keys of the theme, as Python holds them. *)
Record PyTheme : Type := mkPyTheme {
  py_font_size : option pynum;
  py_header_font_size : option pynum
}.

(** The theme of [Config.get_default_config], and the empty theme. *)
Definition default_py_theme : PyTheme :=
  mkPyTheme (Some (PyInt 24)) (Some (PyInt 48)).
Definition empty_py_theme : PyTheme := mkPyTheme None None.

(** [SLIDE_16_9 = (792, 445.5)] and [get_available_width()]. *)
Definition SLIDE_16_9_py : pynum * pynum := (PyInt 792, PyFloat 445.5%float).
Definition get_available_width_py : pynum :=
  py_sub (py_sub (fst SLIDE_16_9_py) (PyInt 50)) (PyInt 50).

(** [max(1, len(text) * font_size // max_width + 1)]. *)
Definition estimated_lines_py (text : str) (font_size max_width : pynum)
    : pynum :=
  py_max (PyInt 1)
    (py_add (py_floordiv (py_mul (py_len text) font_size) max_width)
       (PyInt 1)).

(** [Slide._estimate_element_height]. *)
Fixpoint _estimate_element_height_py (element : Element) (theme : PyTheme)
    : pynum :=
  match element with
  | Head1 text _ =>
      let font_size := get (py_header_font_size theme) (PyInt 48) in
      let max_width := get_available_width_py in
      let estimated_lines := estimated_lines_py text font_size max_width in
      py_add (py_mul estimated_lines (py_add font_size (PyInt 5))) (PyInt 5)
  | Head2 text _ =>
      let font_size :=
        py_mul (get (py_header_font_size theme) (PyInt 48))
          (PyFloat 0.75%float) in
      let max_width := get_available_width_py in
      let estimated_lines := estimated_lines_py text font_size max_width in
      py_add (py_mul estimated_lines (py_add font_size (PyInt 4))) (PyInt 4)
  | Head3 text _ =>
      let font_size :=
        py_mul (get (py_header_font_size theme) (PyInt 48))
          (PyFloat 0.6%float) in
      let max_width := get_available_width_py in
      let estimated_lines := estimated_lines_py text font_size max_width in
      py_add (py_mul estimated_lines (py_add font_size (PyInt 3))) (PyInt 3)
  | BodyText text _ =>
      let font_size := get (py_font_size theme) (PyInt 24) in
      let max_width := get_available_width_py in
      let estimated_lines := estimated_lines_py text font_size max_width in
      py_add (py_mul estimated_lines (py_add font_size (PyInt 2))) (PyInt 3)
  | Bold text _ =>
      let font_size := get (py_font_size theme) (PyInt 24) in
      let max_width := get_available_width_py in
      let estimated_lines := estimated_lines_py text font_size max_width in
      py_add (py_mul estimated_lines (py_add font_size (PyInt 2))) (PyInt 3)
  | Code code _ _ =>
      let font_size :=
        py_mul (get (py_font_size theme) (PyInt 24)) (PyFloat 0.8%float) in
      let code_lines := str_split NL (strip code) in
      let line_height := py_add font_size (PyInt 2) in
      let padding := PyInt 10 in
      py_add (py_add (py_mul (py_len code_lines) line_height)
                (py_mul (PyInt 2) padding))
        (PyInt 10)
  | Img _ _ => PyInt 350
  | Center child => _estimate_element_height_py child theme
  | Bottom child => _estimate_element_height_py child theme
  | TitleSlide child => _estimate_element_height_py child theme
  | GridLayout elements columns =>
      fold_left
        (fun max_height height => py_max max_height height)
        (slice_to
           (map (fun grid_element =>
                   _estimate_element_height_py grid_element theme) elements)
           columns)
        (PyInt 0)
  | BackgroundImage _ => PyInt 0
  | CombinedElement elements =>
      fold_left
        (fun total_height height => py_add total_height height)
        (map (fun sub_element =>
                _estimate_element_height_py sub_element theme) elements)
        (PyInt 0)
  end.

(** The state of the loop of [render_with_overflow_detection]. *)
Record PyPageState : Type := mkPyPageState {
  py_slides : list Slide;
  py_current_slide_elements : list Element;
  py_current_y : pynum
}.

(** [page_height - DEFAULT_MARGIN_TOP], where [current_y] starts. *)
Definition top_y_py : pynum := py_sub (snd SLIDE_16_9_py) (PyInt 50).

(** [current_y - estimated_height - 10 < bottom_margin]: below the
    cursor [current_y] the element does not fit. *)
Definition overflows (theme : PyTheme) (current_y : pynum)
    (element : Element) : bool :=
  py_lt
    (py_sub (py_sub current_y (_estimate_element_height_py element theme))
       (PyInt 10))
    (PyInt 50).

(** [current_y -= estimated_height + 10]: the cursor below an element
    that is added to the slide. *)
Definition placed (theme : PyTheme) (current_y : pynum) (element : Element)
    : pynum :=
  py_sub current_y
    (py_add (_estimate_element_height_py element theme) (PyInt 10)).

(** [page_height - DEFAULT_MARGIN_TOP - estimated_height - 10]: the
    cursor below an element that opens a new slide. *)
Definition opened (theme : PyTheme) (element : Element) : pynum :=
  py_sub (py_sub top_y_py (_estimate_element_height_py element theme))
    (PyInt 10).

Definition overflow_step_py (theme : PyTheme) (st : PyPageState)
    (element : Element) : PyPageState :=
  if overflows theme (py_current_y st) element
     && truthy (py_current_slide_elements st)
  then
    mkPyPageState
      (py_slides st ++ [mkSlide (py_current_slide_elements st)])
      [element]
      (opened theme element)
  else
    mkPyPageState
      (py_slides st)
      (py_current_slide_elements st ++ [element])
      (placed theme (py_current_y st) element).

Definition render_with_overflow_detection_py (self : Slide) (theme : PyTheme)
    : list Slide :=
  let st :=
    fold_left (overflow_step_py theme) (slide_elements self)
      (mkPyPageState [] [] top_y_py) in
  let slides :=
    if truthy (py_current_slide_elements st)
    then py_slides st ++ [mkSlide (py_current_slide_elements st)]
    else py_slides st in
  if negb (truthy slides) then [self] else slides.

(** *** What the pagination leaves on a slide *)

(** The cursor below the first element of a physical slide: the slide
    is the first one, begun at the top, or it was opened by an element
    that did not fit on the one before. *)
Definition first_cursor (theme : PyTheme) (is_first : bool)
    (element : Element) : pynum :=
  if is_first then placed theme top_y_py element else opened theme element.

(** From the cursor [current_y] on, each of the elements fits below the
    ones before it. *)
Fixpoint holds (theme : PyTheme) (current_y : pynum)
    (elements : list Element) : bool :=
  match elements with
  | [] => true
  | element :: rest =>
      negb (overflows theme current_y element)
      && holds theme (placed theme current_y element) rest
  end.

(** The elements of a physical slide fit after its first element. *)
Definition slide_holds (theme : PyTheme) (is_first : bool)
    (elements : list Element) : bool :=
  match elements with
  | [] => true
  | element :: rest => holds theme (first_cursor theme is_first element) rest
  end.

(** The cursor below the last element of a physical slide. *)
Definition slide_cursor (theme : PyTheme) (is_first : bool)
    (elements : list Element) : pynum :=
  match elements with
  | [] => top_y_py
  | element :: rest =>
      fold_left (placed theme) rest (first_cursor theme is_first element)
  end.

(** Physical slides as the loop forms them: none is empty, each holds
    its elements, and the first element of each next one did not fit
    below the one before. *)
Inductive paged (theme : PyTheme) : bool -> list (list Element) -> Prop :=
| paged_last : forall is_first chunk,
    chunk <> [] ->
    slide_holds theme is_first chunk = true ->
    paged theme is_first [chunk]
| paged_next : forall is_first chunk element rest chunks,
    chunk <> [] ->
    slide_holds theme is_first chunk = true ->
    overflows theme (slide_cursor theme is_first chunk) element = true ->
    paged theme false ((element :: rest) :: chunks) ->
    paged theme is_first (chunk :: (element :: rest) :: chunks).

(** *** The formula of a text element *)

(** The theme key and the factor that give the font size of a text
    class. *)
Inductive SizeKey : Type := key_header_font_size | key_font_size.
Inductive SizeFactor : Type := whole | three_quarters | six_tenths.

(** The text of a text element with the key and factor of its font
    size, its line gap and its trailing gap. *)
Definition text_class (element : Element)
    : option (str * SizeKey * SizeFactor * Z * Z) :=
  match element with
  | Head1 text _ => Some (text, key_header_font_size, whole, 5, 5)%Z
  | Head2 text _ =>
      Some (text, key_header_font_size, three_quarters, 4, 4)%Z
  | Head3 text _ => Some (text, key_header_font_size, six_tenths, 3, 3)%Z
  | BodyText text _ => Some (text, key_font_size, whole, 2, 3)%Z
  | Bold text _ => Some (text, key_font_size, whole, 2, 3)%Z
  | _ => None
  end.

(** The font size in Python's numbers, and in exact arithmetic. *)
Definition class_size_py (theme : PyTheme) (key : SizeKey)
    (factor : SizeFactor) : pynum :=
  let base :=
    match key with
    | key_header_font_size => get (py_header_font_size theme) (PyInt 48)
    | key_font_size => get (py_font_size theme) (PyInt 24)
    end in
  match factor with
  | whole => base
  | three_quarters => py_mul base (PyFloat 0.75%float)
  | six_tenths => py_mul base (PyFloat 0.6%float)
  end.

Definition class_size (theme : Theme) (key : SizeKey) (factor : SizeFactor)
    : Q :=
  let base :=
    match key with
    | key_header_font_size => get (theme_header_font_size theme) 48
    | key_font_size => get (theme_font_size theme) 24
    end in
  match factor with
  | whole => base
  | three_quarters => base * (75 # 100)
  | six_tenths => base * (6 # 10)
  end.

(** * Properties *)

(** ** Numbers *)

(** Linear arithmetic once the constants of the page are unfolded. *)
Ltac page_lra :=
  unfold top_y, get_available_width, DEFAULT_MARGIN_LEFT,
    DEFAULT_MARGIN_RIGHT, DEFAULT_MARGIN_TOP, DEFAULT_MARGIN_BOTTOM,
    SLIDE_16_9 in *;
  cbn [fst snd] in *; lra.

Lemma Qleb_true (a b : Q) : Qleb a b = true <-> a <= b.
Proof. apply Qle_bool_iff. Qed.

Lemma Qleb_false (a b : Q) : Qleb a b = false <-> b < a.
Proof.
  unfold Qleb. split; intro H.
  - apply Qnot_le_lt. intro Hle. apply Qle_bool_iff in Hle. congruence.
  - destruct (Qle_bool a b) eqn:E; [|reflexivity].
    apply Qle_bool_iff in E. exfalso. apply (Qlt_not_le _ _ H E).
Qed.

Lemma Qltb_true (a b : Q) : Qltb a b = true <-> a < b.
Proof.
  unfold Qltb. rewrite negb_true_iff. apply Qleb_false.
Qed.

Lemma Qltb_false (a b : Q) : Qltb a b = false <-> b <= a.
Proof.
  unfold Qltb. rewrite negb_false_iff. apply Qleb_true.
Qed.

Lemma Qmax_ge_l (a b : Q) : a <= Qmax a b.
Proof. apply Q.le_max_l. Qed.

Lemma Qmax_ge_r (a b : Q) : b <= Qmax a b.
Proof. apply Q.le_max_r. Qed.

Lemma Qmax_cases (a b : Q) : Qmax a b = a \/ Qmax a b = b.
Proof.
  unfold Qmax, GenericMinMax.gmax. destruct (a ?= b); auto.
Qed.

Lemma Qmin_cases (a b : Q) : Qmin a b = a \/ Qmin a b = b.
Proof.
  unfold Qmin, GenericMinMax.gmin. destruct (a ?= b); auto.
Qed.

Lemma truthy_true {A} (l : list A) : truthy l = true <-> l <> [].
Proof. destruct l; simpl; split; congruence. Qed.

Lemma truthy_false {A} (l : list A) : truthy l = false <-> l = [].
Proof. destruct l; simpl; split; congruence. Qed.

(** ** Pagination *)

Lemma flatten_app (a b : list Slide) : flatten (a ++ b) = flatten a ++ flatten b.
Proof. unfold flatten. now rewrite map_app, concat_app. Qed.

Lemma flatten_single (es : list Element) : flatten [mkSlide es] = es.
Proof. unfold flatten. simpl. apply app_nil_r. Qed.

(** One step either closes the pending slide and starts a new one with
    the element, or appends the element to the pending slide. *)
Lemma overflow_step_cases (theme : Theme) (st : PageState) (e : Element) :
  (slides (overflow_step theme st e)
     = slides st ++ [mkSlide (current_slide_elements st)]
   /\ current_slide_elements (overflow_step theme st e) = [e]
   /\ current_slide_elements st <> [])
  \/ (slides (overflow_step theme st e) = slides st
      /\ current_slide_elements (overflow_step theme st e)
         = current_slide_elements st ++ [e]).
Proof.
  unfold overflow_step.
  destruct (Qltb _ _ && truthy (current_slide_elements st)) eqn:E; simpl.
  - left. apply andb_true_iff in E. destruct E as [_ E].
    apply truthy_true in E. auto.
  - right. auto.
Qed.

(** What the loop leaves, once flushed, extends the slides closed so far
    by slides that hold the pending elements followed by the remaining
    ones. *)
Lemma overflow_fold_flush (theme : Theme) (es : list Element) :
  forall st,
    exists extra,
      flush (fold_left (overflow_step theme) es st) = slides st ++ extra
      /\ flatten extra = current_slide_elements st ++ es.
Proof.
  induction es as [|e es IH]; intro st; simpl.
  - unfold flush. destruct (current_slide_elements st) as [|c cs] eqn:E; simpl.
    + exists []. now rewrite app_nil_r.
    + exists [mkSlide (c :: cs)]. split; [reflexivity|].
      rewrite flatten_single. now rewrite app_nil_r.
  - destruct (IH (overflow_step theme st e)) as [extra [Hf Hx]].
    destruct (overflow_step_cases theme st e) as [[Hs [Hc _]]|[Hs Hc]].
    + exists (mkSlide (current_slide_elements st) :: extra).
      rewrite Hf, Hs, Hc in *. split.
      * now rewrite <- app_assoc.
      * change (mkSlide (current_slide_elements st) :: extra)
          with ([mkSlide (current_slide_elements st)] ++ extra).
        rewrite flatten_app, flatten_single, Hx. reflexivity.
    + exists extra. rewrite Hf, Hs, Hx, Hc. split; [reflexivity|].
      now rewrite <- app_assoc.
Qed.


Lemma render_with_overflow_detection_flush (self : Slide) (theme : Theme) :
  slide_elements self <> [] ->
  render_with_overflow_detection self theme
  = flush (fold_left (overflow_step theme) (slide_elements self)
             (mkPageState [] [] top_y)).
Proof.
  intro Hne. unfold render_with_overflow_detection.
  fold top_y.
  set (st := fold_left _ _ _).
  fold (flush st).
  destruct (overflow_fold_flush theme (slide_elements self)
              (mkPageState [] [] top_y)) as [extra [Hf Hx]].
  fold st in Hf. simpl in Hf, Hx. rewrite Hf.
  destruct extra as [|s extra]; [|reflexivity].
  unfold flatten in Hx. simpl in Hx. congruence.
Qed.

(** C1.  Pagination of a non-empty slide produces at least one physical
    slide, and the elements of the physical slides, concatenated in
    order, are exactly the elements of the original slide. *)
Theorem pagination_preserves_elements (self : Slide) (theme : Theme) :
  slide_elements self <> [] ->
  render_with_overflow_detection self theme <> []
  /\ flatten (render_with_overflow_detection self theme)
     = slide_elements self.
Proof.
  intro Hne.
  rewrite (render_with_overflow_detection_flush self theme Hne).
  destruct (overflow_fold_flush theme (slide_elements self)
              (mkPageState [] [] top_y)) as [extra [Hf Hx]].
  rewrite Hf. simpl in Hf, Hx |- *. split; [|exact Hx].
  intro Hnil. apply Hne. rewrite <- Hx, Hnil. reflexivity.
Qed.

Lemma pagination_preserves_elements_witness :
  let self :=
    mkSlide [Head1 (py "Title") None; Img (py "a.png") [];
             BodyText (py "text") None] in
  render_with_overflow_detection self default_theme <> []
  /\ flatten (render_with_overflow_detection self default_theme)
     = slide_elements self.
Proof.
  apply pagination_preserves_elements. simpl. discriminate.
Defined.

(** *** Estimated heights are not negative *)

Lemma fold_max_ge_init (l : list Q) :
  forall init, init <= fold_left (fun m h => Qmax m h) l init.
Proof.
  induction l as [|h l IH]; intro init; simpl.
  - apply Qle_refl.
  - eapply Qle_trans; [apply (Qmax_ge_l init h)|apply IH].
Qed.

Lemma fold_plus_nonneg (l : list Q) :
  Forall (fun h => 0 <= h) l ->
  forall init, 0 <= init -> 0 <= fold_left (fun t h => t + h) l init.
Proof.
  induction 1 as [|h l Hh _ IH]; intros init Hi; simpl.
  - exact Hi.
  - apply IH. lra.
Qed.

Lemma estimated_lines_pos (text : str) (font_size max_width : Q) :
  (1 <= estimated_lines text font_size max_width)%Z.
Proof. unfold estimated_lines. apply Z.le_max_l. Qed.

Lemma text_height_nonneg (n : Z) (font_size gap trailing : Q) :
  (0 <= n)%Z -> 0 <= font_size -> 0 <= gap -> 0 <= trailing ->
  0 <= inject_Z n * (font_size + gap) + trailing.
Proof.
  intros Hn Hf Hg Ht.
  assert (Hp : 0 <= inject_Z n * (font_size + gap)).
  { apply Qmult_le_0_compat; [|lra].
    change 0 with (inject_Z 0). now rewrite <- Zle_Qle. }
  lra.
Qed.

Lemma estimate_nonneg (theme : Theme) :
  sizes_nonneg theme ->
  forall e, 0 <= _estimate_element_height e theme.
Proof.
  intros [Hf Hh] e.
  induction e as [t c|t c|t c|t c|t c|c l b|p c|e IH|e IH|e IH|es n IH|p|es IH]
    using Element_nested_ind; simpl; try assumption.
  - apply text_height_nonneg; try lra.
    pose proof (estimated_lines_pos t (get (theme_header_font_size theme) 48)
                  get_available_width). lia.
  - apply text_height_nonneg; try lra.
    pose proof (estimated_lines_pos t
                  (get (theme_header_font_size theme) 48 * (75 # 100))
                  get_available_width). lia.
  - apply text_height_nonneg; try lra.
    pose proof (estimated_lines_pos t
                  (get (theme_header_font_size theme) 48 * (6 # 10))
                  get_available_width). lia.
  - apply text_height_nonneg; try lra.
    pose proof (estimated_lines_pos t (get (theme_font_size theme) 24)
                  get_available_width). lia.
  - apply text_height_nonneg; try lra.
    pose proof (estimated_lines_pos t (get (theme_font_size theme) 24)
                  get_available_width). lia.
  - assert (H0 : 0 <= inject_Z (Z.of_nat
                      (List.length (str_split NL (strip c))))
                    * (get (theme_font_size theme) 24 * (8 # 10) + 2) + 10).
    { apply text_height_nonneg; try lra. lia. }
    lra.
  - lra.
  - apply fold_max_ge_init.
  - lra.
  - apply fold_plus_nonneg; [|lra].
    apply Forall_map. exact IH.
Qed.

(** *** The cursor never rises above its starting point *)









(** ** Centering *)

Lemma Center_render_start
    (stringWidth : str -> str -> Q -> Q) (path_exists : str -> bool)
    (ImageReader : str -> str + (Z * Z)) (get_lexer_by_name : str -> bool)
    (fuel : nat) (child : Element) (x y : Q) (theme : Theme) :
  render stringWidth path_exists ImageReader get_lexer_by_name fuel
    (Center child) x y theme
  = render stringWidth path_exists ImageReader get_lexer_by_name fuel
      child (Center_center_x stringWidth child theme) y theme.
Proof. reflexivity. Qed.

(** The two clamps of [Center.render], in terms of the width that
    [Center._estimate_text_width] measures, which is the width of the
    whole text on one line: the start position plus that width never
    exceeds [pageWidth - rightMargin], and the start position is not
    less than [leftMargin] when that width is at most the width of the
    content area. *)
Lemma Center_start_bounds
    (stringWidth : str -> str -> Q -> Q) (child : Element) (theme : Theme) :
  is_text_element child = true ->
  let width := Center_estimate_text_width stringWidth child theme in
  let start := Center_center_x stringWidth child theme in
  start + width <= fst SLIDE_16_9 - DEFAULT_MARGIN_RIGHT
  /\ (width <= get_available_width -> DEFAULT_MARGIN_LEFT <= start).
Proof.
  intros Htext width start. subst start. unfold Center_center_x.
  rewrite Htext. fold width.
  set (centred :=
         Qmax DEFAULT_MARGIN_LEFT
           (DEFAULT_MARGIN_LEFT
            + (fst SLIDE_16_9 - DEFAULT_MARGIN_LEFT - DEFAULT_MARGIN_RIGHT) / 2
            - width / 2)).
  set (limit := fst SLIDE_16_9 - DEFAULT_MARGIN_RIGHT - width).
  split.
  - pose proof (Q.le_min_r centred limit) as Hr. subst limit. lra.
  - intro Hfit. apply Q.min_glb.
    + apply Qmax_ge_l.
    + subst limit. page_lra.
Qed.

(** A single word wider than the content area cannot satisfy both
    bounds: a body text of one 50-letter word measures 720 in 24pt
    Courier, and [Center] starts it at 22, left of the margin. *)
Lemma Center_start_left_of_margin :
  let child := BodyText (repeat "a"%char 50) None in
  let width := Center_estimate_text_width courier_width child courier_theme in
  let start := Center_center_x courier_width child courier_theme in
  is_text_element child = true
  /\ width == 720 /\ start == 22
  /\ ~ (start + width <= fst SLIDE_16_9 - DEFAULT_MARGIN_RIGHT
        /\ DEFAULT_MARGIN_LEFT <= start).
Proof.
  cbv zeta. repeat split; try reflexivity.
  intros [_ H]. vm_compute in H. apply H. reflexivity.
Qed.

(** C3.  [Center] measures the text on one line although the child
    wraps it.  A body text of ten 9-letter words (99 characters) in 24pt
    Courier is wrapped by the child into three lines, the longest 561.6
    wide, which fit the content area of 692.  [Center._estimate_text_width]
    measures 1425.6, and [Center.render] starts the child at
    742 - 1425.6 = -683.6: left of the margin of 50, and with the first
    line ending at -122, left of the page.  [TitleSlide], which measures
    the longest wrapped line, starts the same text at 115.2. *)
Theorem Center_measures_unwrapped_text :
  let text := join (repeat (py "aaaaaaaaa") 10) in
  let child := BodyText text None in
  let lines := wrap_text courier_width text (py "Courier") 24 692 in
  let start := Center_center_x courier_width child courier_theme in
  is_text_element child = true
  /\ map (@List.length ascii) lines = [39; 39; 19]%nat
  /\ Forall (fun line => courier_width line (py "Courier") 24 <= 5616 # 10)
       lines
  /\ Center_estimate_text_width courier_width child courier_theme
     == 14256 # 10
  /\ start == - (6836 # 10)
  /\ start < DEFAULT_MARGIN_LEFT
  /\ TitleSlide_center_x courier_width child courier_theme == 1152 # 10
  /\ exists height cv' line1 line2 line3,
       lines = [line1; line2; line3]
       /\ render courier_width no_file broken_image every_lexer 0
            (Center child) 50 300 courier_theme []
          = Ok (height, cv')
       /\ cv' = [SetFont (py "Courier") 24; SetFillColor (py "#000000");
                 DrawString start 300 line1;
                 DrawString start (300 - (24 + 2)) line2;
                 DrawString start (300 - (24 + 2) - (24 + 2)) line3].
Proof.
  cbv zeta. split; [reflexivity|]. split; [vm_compute; reflexivity|].
  split; [repeat constructor; vm_compute; discriminate|].
  split; [vm_compute; reflexivity|]. split; [vm_compute; reflexivity|].
  split; [vm_compute; reflexivity|]. split; [vm_compute; reflexivity|].
  destruct (render courier_width no_file broken_image every_lexer 0
              (Center (BodyText (join (repeat (py "aaaaaaaaa") 10)) None))
              50 300 courier_theme []) as [[height cv']| |] eqn:E;
    [|vm_compute in E; discriminate E..].
  exists height, cv'. eexists _, _, _.
  split; [vm_compute; reflexivity|]. split; [reflexivity|].
  vm_compute in E. injection E as _ <-. vm_compute. reflexivity.
Qed.

(** ** Code blocks: the example of the specification *)

Lemma Code_render_lines_eq (get_lexer_by_name : str -> bool) (code : str)
    (language : option str) :
  Code_render_lines get_lexer_by_name code language
  = pop_trailing_blank (pop_leading_blank (str_split NL code)).
Proof.
  unfold Code_render_lines.
  destruct language as [l|]; [|reflexivity].
  destruct (truthy l); [|reflexivity].
  destruct (get_lexer_by_name l); reflexivity.
Qed.

(** C4, as the code has it.  For the code ["  x = 1\n\n  y = 2"] the line
    count that enters the height is 3, in [Code.render] and in the
    estimator: the empty line in the middle is kept and counted. *)
Theorem code_example_line_count (get_lexer_by_name : str -> bool)
    (language : option str) :
  List.length (Code_render_lines get_lexer_by_name code_example language)
  = 3%nat
  /\ List.length (str_split NL (strip code_example)) = 3%nat.
Proof.
  rewrite Code_render_lines_eq. split; reflexivity.
Qed.

(** C4 as stated fails: neither line count is 2. *)
Lemma code_example_line_count_not_2 :
  List.length (Code_render_lines every_lexer code_example None) <> 2%nat
  /\ List.length (str_split NL (strip code_example)) <> 2%nat.
Proof. split; vm_compute; discriminate. Qed.

(** ** Images *)

Section ImgFacts.

Variable stringWidth : str -> str -> Q -> Q.
Variable path_exists : str -> bool.
Variable ImageReader : str -> str + (Z * Z).
Variable get_lexer_by_name : str -> bool.

Let render_here :=
  render stringWidth path_exists ImageReader get_lexer_by_name.

(** A path that does not exist: 30 without a caption, 60 with one, and
    nothing is raised. *)
Lemma Img_render_missing (fuel : nat) (path caption : str) (x y : Q)
    (theme : Theme) (cv : Canvas) :
  path_exists path = false ->
  exists cv',
    render_here fuel (Img path caption) x y theme cv
    = Ok (if truthy caption then 60 else 30, cv').
Proof.
  intro Hno. unfold render_here. cbn [render]. unfold Img_render.
  rewrite Hno. destruct caption as [|c caption]; cbn; eexists; reflexivity.
Qed.

(** A path that exists but does not load: 30, with or without a caption,
    and nothing is raised. *)
Lemma Img_render_load_error (fuel : nat) (path caption message : str)
    (x y : Q) (theme : Theme) (cv : Canvas) :
  path_exists path = true ->
  ImageReader path = inl message ->
  exists cv',
    render_here fuel (Img path caption) x y theme cv = Ok (30, cv').
Proof.
  intros Hyes Herr. unfold render_here. cbn [render]. unfold Img_render.
  rewrite Hyes, Herr. cbn. eexists; reflexivity.
Qed.

(** Rendering an image never raises and never runs out of fuel. *)
Lemma Img_render_returns (fuel : nat) (path caption : str) (x y : Q)
    (theme : Theme) (cv : Canvas) :
  exists height cv',
    render_here fuel (Img path caption) x y theme cv = Ok (height, cv').
Proof.
  unfold render_here. cbn [render]. unfold Img_render.
  destruct (path_exists path).
  - destruct (ImageReader path) as [message|[w h]].
    + cbn. eexists _, _; reflexivity.
    + destruct ((w =? 0)%Z || (h =? 0)%Z).
      * cbn. eexists _, _; reflexivity.
      * destruct (truthy caption); cbn; eexists _, _; reflexivity.
  - destruct (truthy caption); cbn; eexists _, _; reflexivity.
Qed.

End ImgFacts.

(** An image of 640 by 480 pixels is scaled by 0.625 to fit the box of
    400 by 300 and takes 300, or 330 with a caption. *)
Lemma Img_render_scaled :
  exists height cv height' cv',
    render courier_width every_file image_640_480 every_lexer 0
      (Img (py "photo.png") []) 50 300 default_theme [] = Ok (height, cv)
    /\ height == 300
    /\ render courier_width every_file image_640_480 every_lexer 0
         (Img (py "photo.png") (py "A caption")) 50 300 default_theme []
       = Ok (height', cv')
    /\ height' == 330.
Proof.
  destruct (render courier_width every_file image_640_480 every_lexer 0
              (Img (py "photo.png") []) 50 300 default_theme [])
    as [[h cv]| |] eqn:E; try (vm_compute in E; discriminate E).
  destruct (render courier_width every_file image_640_480 every_lexer 0
              (Img (py "photo.png") (py "A caption")) 50 300 default_theme [])
    as [[h' cv']| |] eqn:E'; try (vm_compute in E'; discriminate E').
  exists h, cv, h', cv'.
  vm_compute in E. injection E as <- _.
  vm_compute in E'. injection E' as <- _.
  repeat split; reflexivity.
Qed.

(** C5, at the input where the code departs from it: an image file that
    exists but cannot be decoded, given with a caption, renders with
    height 30 (not 60) and the caption is not drawn. *)
Theorem Img_load_error_ignores_caption :
  render courier_width every_file broken_image every_lexer 0
    (Img (py "photo.png") (py "A caption")) 50 300 default_theme []
  = Ok (30,
        [SetFont (py "Helvetica") 24;
         SetFillColor (py "#FF0000");
         DrawString 50 300
           (py "[Error loading image: cannot identify image file]")]).
Proof. reflexivity. Qed.

(** The sibling path, a file that does not exist, draws the caption and
    returns 60. *)
Lemma Img_missing_draws_caption :
  render courier_width no_file broken_image every_lexer 0
    (Img (py "photo.png") (py "A caption")) 50 300 default_theme []
  = Ok (60,
        [SetFont (py "Helvetica") 24;
         SetFillColor (py "#FF0000");
         DrawString 50 300 (py "[Image not found: photo.png]");
         DrawString 50 (300 - 30) (py "A caption")]).
Proof. reflexivity. Qed.

(** ** The estimator on text elements *)

Lemma render_text_height (stringWidth : str -> str -> Q -> Q)
    (font_name : str) (font_size : Q) (color : str) (gap trailing : Q)
    (text : str) (x y : Q) (cv : Canvas) :
  exists cv',
    render_text stringWidth font_name font_size color gap trailing text x y cv
    = Ok (text_height
            (Z.of_nat (List.length
               (wrap_text stringWidth text font_name font_size
                  get_available_width)))
            font_size gap trailing, cv').
Proof.
  unfold render_text, text_height.
  set (lines := wrap_text _ _ _ _ _).
  assert (Hdraw : forall ls yy step c0,
             exists c1, draw_lines ls x yy step c0 = Ok (tt, c1)).
  { induction ls as [|l ls IH]; intros yy step c0; cbn.
    - eexists; reflexivity.
    - apply IH. }
  unfold bind, draw. cbn.
  destruct (Hdraw lines y (font_size + gap)
              ((cv ++ [SetFont font_name font_size]) ++ [SetFillColor color]))
    as [c1 Hc1].
  rewrite Hc1. eexists; reflexivity.
Qed.

(** C6, as the code has it.  For a heading, body or bold element the
    estimator takes [max(1, len(text) * font_size // 692 + 1)] lines, in
    Python's numbers, with the font size of the class, and puts them in
    [lines * (font_size + gap) + trailing]; the renderer of the class,
    whenever it returns, returns the same formula, with the same font
    size, gap and trailing gap, on the lines it wrapped. *)
Theorem estimate_text_element
    (stringWidth : str -> str -> Q -> Q) (path_exists : str -> bool)
    (ImageReader : str -> str + (Z * Z)) (get_lexer_by_name : str -> bool)
    (element : Element) (text : str) (key : SizeKey) (factor : SizeFactor)
    (gap trailing : Z) :
  text_class element = Some (text, key, factor, gap, trailing) ->
  (forall theme : PyTheme,
     let font_size := class_size_py theme key factor in
     let lines :=
       py_max (PyInt 1)
         (py_add (py_floordiv (py_mul (py_len text) font_size) (PyInt 692))
            (PyInt 1)) in
     _estimate_element_height_py element theme
     = py_add (py_mul lines (py_add font_size (PyInt gap)))
         (PyInt trailing))
  /\ (forall (theme : Theme) fuel x y cv height cv',
        render stringWidth path_exists ImageReader get_lexer_by_name
          fuel element x y theme cv
        = Ok (height, cv') ->
        let font_size := class_size theme key factor in
        exists font_name,
          height
          = text_height
              (Z.of_nat (List.length
                 (wrap_text stringWidth text font_name font_size
                    get_available_width)))
              font_size (inject_Z gap) (inject_Z trailing)).
Proof.
  intro Hclass.
  destruct element; try discriminate; cbn in Hclass;
    injection Hclass as <- <- <- <- <-;
    (split; [intro theme; reflexivity|]);
    intros theme fuel x y cv height cv' Hrun; cbn [render] in Hrun;
    unfold Head1_render, Head2_render, Head3_render, BodyText_render,
      Bold_render in Hrun;
    match type of Hrun with
    | render_text ?sw ?f ?s ?c ?g ?t ?txt ?x ?y ?cv = _ =>
        destruct (render_text_height sw f s c g t txt x y cv) as [cv1 H];
        rewrite H in Hrun; injection Hrun as <- _;
        exists f; reflexivity
    end.
Qed.

Lemma estimate_text_element_witness :
  let text := repeat "a"%char 865 in
  let element := Head3 text None in
  (_estimate_element_height_py element default_py_theme
   = PyFloat 1147.8%float
   /\ py_max (PyInt 1)
        (py_add
           (py_floordiv
              (py_mul (py_len text)
                 (class_size_py default_py_theme key_header_font_size
                    six_tenths))
              (PyInt 692))
           (PyInt 1))
      = PyFloat 36%float)
  /\ (forall theme : PyTheme,
        let font_size := class_size_py theme key_header_font_size six_tenths in
        let lines :=
          py_max (PyInt 1)
            (py_add (py_floordiv (py_mul (py_len text) font_size) (PyInt 692))
               (PyInt 1)) in
        _estimate_element_height_py element theme
        = py_add (py_mul lines (py_add font_size (PyInt 3))) (PyInt 3))
  /\ (forall (theme : Theme) fuel x y cv height cv',
        render courier_width no_file broken_image every_lexer
          fuel element x y theme cv
        = Ok (height, cv') ->
        let font_size := class_size theme key_header_font_size six_tenths in
        exists font_name,
          height
          = text_height
              (Z.of_nat (List.length
                 (wrap_text courier_width text font_name font_size
                    get_available_width)))
              font_size (inject_Z 3) (inject_Z 3)).
Proof.
  intros text element.
  split; [split; vm_compute; reflexivity|].
  exact (estimate_text_element courier_width no_file broken_image every_lexer
           element text key_header_font_size six_tenths 3 3 eq_refl).
Defined.

(** C6 as stated fails: a body text of 173 characters at size 24 has
    173 * 24 / 692 = 6, whose ceiling is 6, and the estimator counts 7
    lines and estimates 7 * 26 + 3 = 185, not 6 * 26 + 3 = 159; an empty
    text has ceiling 0 and is counted as 1 line.  All the numbers are
    ints here. *)
Lemma estimated_lines_not_ceiling :
  let text := repeat "a"%char 173 in
  Qceiling (inject_Z (Z.of_nat (List.length text)) * 24 / 692) = 6%Z
  /\ estimated_lines_py text (PyInt 24) get_available_width_py = PyInt 7
  /\ _estimate_element_height_py (BodyText text None) default_py_theme
     = PyInt 185
  /\ Qceiling (inject_Z (Z.of_nat (@List.length ascii [])) * 24 / 692) = 0%Z
  /\ estimated_lines_py [] (PyInt 24) get_available_width_py = PyInt 1.
Proof.
  cbv zeta. repeat split; vm_compute; reflexivity.
Qed.

(** Where the font size is a float the last bit decides: for a third
    heading of 865 characters, 48 * 0.6 is 28.799999999999997 in
    binary64, the product with 865 stays below 36 * 692 = 24912, and 36
    lines are counted; in exact arithmetic the product is 24912 and the
    count would be 37. *)
Lemma estimated_lines_rounding :
  let text := repeat "a"%char 865 in
  class_size_py default_py_theme key_header_font_size six_tenths
  = PyFloat 28.799999999999997%float
  /\ estimated_lines_py text
       (class_size_py default_py_theme key_header_font_size six_tenths)
       get_available_width_py
     = PyFloat 36%float
  /\ estimated_lines text
       (class_size default_theme key_header_font_size six_tenths)
       get_available_width
     = 37%Z.
Proof.
  cbv zeta. repeat split; vm_compute; reflexivity.
Qed.

(** With an int font size, as in the default configuration, the count
    is in ints and exact: one more than the floor of the quotient, which
    is the ceiling unless 692 divides [len(text) * font_size], and one
    more than the ceiling when it does. *)
Lemma estimated_lines_int (text : str) (n : Z) :
  let product := (Z.of_nat (List.length text) * n)%Z in
  let ceiling := ((product + 691) / 692)%Z in
  estimated_lines_py text (PyInt n) get_available_width_py
  = PyInt (Z.max 1 (product / 692 + 1))
  /\ ((0 < product)%Z -> (product mod 692 <> 0)%Z ->
      estimated_lines_py text (PyInt n) get_available_width_py
      = PyInt ceiling)
  /\ ((0 <= product)%Z -> (product mod 692 = 0)%Z ->
      estimated_lines_py text (PyInt n) get_available_width_py
      = PyInt (ceiling + 1)).
Proof.
  intros product ceiling.
  assert (H : estimated_lines_py text (PyInt n) get_available_width_py
              = PyInt (Z.max 1 (product / 692 + 1))).
  { unfold estimated_lines_py, py_len, get_available_width_py.
    cbn [py_mul py_floordiv py_add py_sub SLIDE_16_9_py fst].
    change (792 - 50 - 50)%Z with 692%Z. fold product.
    unfold py_max. cbn [py_lt].
    destruct (1 <? product / 692 + 1)%Z eqn:E;
      [apply Z.ltb_lt in E|apply Z.ltb_ge in E]; f_equal; lia. }
  split; [exact H|].
  pose proof (Z.div_mod product 692 ltac:(lia)) as Hdm.
  pose proof (Z.mod_pos_bound product 692 ltac:(lia)) as Hm.
  split; intros Hp Hr; rewrite H; f_equal; subst ceiling.
  - assert (Hq : ((product + 691) / 692 = product / 692 + 1)%Z).
    { symmetry. apply Z.div_unique with (r := (product mod 692 - 1)%Z); lia. }
    rewrite Hq.
    assert (0 <= product / 692)%Z by (apply Z.div_pos; lia). lia.
  - assert (Hq : ((product + 691) / 692 = product / 692)%Z).
    { symmetry. apply Z.div_unique with (r := 691%Z); lia. }
    rewrite Hq.
    assert (0 <= product / 692)%Z by (apply Z.div_pos; lia). lia.
Qed.

(** ** Containers *)

Section ContainerLoops.

Variable render_element : Element -> Q -> Q -> Theme -> M Q.

Lemma CombinedElement_loop_stacked (theme : Theme) (x y0 : Q)
    (elements : list Element) :
  forall current_y total offset cv height cv',
    CombinedElement_loop render_element elements x current_y total theme cv
    = Ok (height, cv') ->
    current_y == y0 - offset ->
    exists heights,
      stacked render_element x theme y0 offset elements cv heights cv'
      /\ height = fold_left (fun t h => t + h) heights total.
Proof.
  induction elements as [|e es IH]; intros cy total offset cv H cv' Hrun Hy.
  - cbn in Hrun. injection Hrun as <- <-.
    exists []. split; [constructor|reflexivity].
  - cbn in Hrun. unfold bind in Hrun.
    destruct (render_element e x cy theme cv) as [[h cv1]| |] eqn:He;
      try discriminate.
    destruct (IH (cy - h) (total + h) (offset + h) cv1 H cv' Hrun)
      as [hs [Hst Hsum]].
    { rewrite Hy. ring. }
    exists (h :: hs). split; [|exact Hsum].
    econstructor; eassumption.
Qed.

Lemma CombinedElement_loop_returns (theme : Theme) (elements : list Element) :
  all_return render_element theme elements ->
  forall x current_y total cv,
    exists height cv',
      CombinedElement_loop render_element elements x current_y total theme cv
      = Ok (height, cv').
Proof.
  induction elements as [|e es IH]; intros Hall x cy total cv.
  - cbn. eexists _, _; reflexivity.
  - cbn. unfold bind.
    destruct (Hall e (or_introl eq_refl) x cy cv) as [h [cv1 He]].
    rewrite He. apply IH.
    intros c Hc. apply Hall. now right.
Qed.

(** The grid loop never looks at the children from index [columns] on. *)
Lemma GridLayout_loop_firstn (theme : Theme) (columns : Z)
    (column_width y : Q) (elements : list Element) :
  forall i max_height cv,
    GridLayout_loop render_element elements i columns column_width y
      max_height theme cv
    = GridLayout_loop render_element
        (firstn (Z.to_nat (columns - i)) elements) i columns column_width y
        max_height theme cv.
Proof.
  induction elements as [|e es IH]; intros i m cv.
  - now rewrite firstn_nil.
  - cbn [GridLayout_loop].
    destruct (i >=? columns)%Z eqn:Hi.
    + replace (Z.to_nat (columns - i)) with 0%nat by lia. reflexivity.
    + replace (Z.to_nat (columns - i))
        with (S (Z.to_nat (columns - (i + 1)))) by lia.
      cbn [firstn GridLayout_loop]. rewrite Hi.
      unfold bind.
      destruct (render_element e _ y theme cv) as [[h cv1]| |];
        try reflexivity.
      apply IH.
Qed.

Lemma GridLayout_loop_in_columns (theme : Theme) (columns : Z)
    (column_width y : Q) (elements : list Element) :
  forall i max_height cv height cv',
    GridLayout_loop render_element elements i columns column_width y
      max_height theme cv
    = Ok (height, cv') ->
    exists heights,
      in_columns render_element y theme column_width i
        (firstn (Z.to_nat (columns - i)) elements) cv heights cv'
      /\ height = fold_left (fun m h => Qmax m h) heights max_height.
Proof.
  induction elements as [|e es IH]; intros i m cv H cv' Hrun.
  - rewrite firstn_nil. cbn in Hrun. injection Hrun as <- <-.
    exists []. split; [constructor|reflexivity].
  - cbn [GridLayout_loop] in Hrun.
    destruct (i >=? columns)%Z eqn:Hi.
    + replace (Z.to_nat (columns - i)) with 0%nat by lia.
      cbn in Hrun. injection Hrun as <- <-.
      exists []. split; [constructor|reflexivity].
    + replace (Z.to_nat (columns - i))
        with (S (Z.to_nat (columns - (i + 1)))) by lia.
      cbn [firstn]. unfold bind in Hrun.
      destruct (render_element e _ y theme cv) as [[h cv1]| |] eqn:He;
        try discriminate.
      destruct (IH (i + 1)%Z (Qmax m h) cv1 H cv' Hrun) as [hs [Hcol Hmax]].
      exists (h :: hs). split; [|exact Hmax].
      econstructor; eassumption.
Qed.

Lemma GridLayout_loop_returns (theme : Theme) (columns : Z)
    (column_width y : Q) (elements : list Element) :
  all_return render_element theme elements ->
  forall i max_height cv,
    exists height cv',
      GridLayout_loop render_element elements i columns column_width y
        max_height theme cv
      = Ok (height, cv').
Proof.
  induction elements as [|e es IH]; intros Hall i m cv.
  - cbn. eexists _, _; reflexivity.
  - cbn [GridLayout_loop]. destruct (i >=? columns)%Z.
    + cbn. eexists _, _; reflexivity.
    + unfold bind.
      destruct (Hall e (or_introl eq_refl)
                  (50 + inject_Z i * column_width) y cv) as [h [cv1 He]].
      rewrite He. apply IH.
      intros c Hc. apply Hall. now right.
Qed.

Lemma CombinedElement_loop_height_fixed (theme : Theme)
    (elements : list Element) :
  Forall (height_fixed render_element theme) elements ->
  forall x cy total cv h cv1 x' cy' cv' h' cv1',
    CombinedElement_loop render_element elements x cy total theme cv
    = Ok (h, cv1) ->
    CombinedElement_loop render_element elements x' cy' total theme cv'
    = Ok (h', cv1') ->
    h = h'.
Proof.
  induction 1 as [|e es He _ IH];
    intros x cy total cv h cv1 x' cy' cv' h' cv1' H1 H2; cbn in H1, H2.
  - unfold ret in H1, H2. congruence.
  - unfold bind in H1, H2.
    destruct (render_element e x cy theme cv) as [[a c]| |] eqn:E1;
      try discriminate.
    destruct (render_element e x' cy' theme cv') as [[a' c']| |] eqn:E2;
      try discriminate.
    rewrite <- (He _ _ _ _ _ _ _ _ _ _ E1 E2) in H2.
    exact (IH _ _ _ _ _ _ _ _ _ _ _ H1 H2).
Qed.

Lemma GridLayout_loop_height_fixed (theme : Theme) (columns : Z)
    (elements : list Element) :
  Forall (height_fixed render_element theme) elements ->
  forall i cw y m cv h cv1 cw' y' cv' h' cv1',
    GridLayout_loop render_element elements i columns cw y m theme cv
    = Ok (h, cv1) ->
    GridLayout_loop render_element elements i columns cw' y' m theme cv'
    = Ok (h', cv1') ->
    h = h'.
Proof.
  induction 1 as [|e es He _ IH];
    intros i cw y m cv h cv1 cw' y' cv' h' cv1' H1 H2;
    cbn [GridLayout_loop] in H1, H2.
  - unfold ret in H1, H2. congruence.
  - destruct (i >=? columns)%Z.
    + unfold ret in H1, H2. congruence.
    + unfold bind in H1, H2.
      destruct (render_element e _ y theme cv) as [[a c]| |] eqn:E1;
        try discriminate.
      destruct (render_element e _ y' theme cv') as [[a' c']| |] eqn:E2;
        try discriminate.
      rewrite <- (He _ _ _ _ _ _ _ _ _ _ E1 E2) in H2.
      exact (IH _ _ _ _ _ _ _ _ _ _ _ _ H1 H2).
Qed.

End ContainerLoops.

(** The maximum from 0 bounds every height and is 0 or one of them. *)
Lemma max_heights_spec (heights : list Q) :
  Forall (fun h => h <= max_heights heights) heights
  /\ (max_heights heights = 0 \/ In (max_heights heights) heights).
Proof.
  unfold max_heights. generalize 0 as init.
  induction heights as [|h hs IH]; intro init; cbn.
  - split; [constructor|now left].
  - destruct (IH (Qmax init h)) as [Hall Hin]. split.
    + constructor; [|exact Hall].
      eapply Qle_trans; [apply (Qmax_ge_r init h)|apply fold_max_ge_init].
    + destruct Hin as [Hin|Hin]; [|now right; right].
      rewrite Hin.
      destruct (Qmax_cases init h) as [Hm|Hm]; rewrite Hm; auto.
Qed.

Lemma slice_to_map {A B} (f : A -> B) (l : list A) (n : Z) :
  slice_to (map f l) n = map f (slice_to l n).
Proof.
  unfold slice_to. rewrite length_map.
  destruct (0 <=? n)%Z; apply firstn_map.
Qed.

Lemma slice_to_nonneg {A} (l : list A) (n : Z) :
  (0 <= n)%Z -> slice_to l n = firstn (Z.to_nat n) l.
Proof.
  intro Hn. unfold slice_to.
  destruct (0 <=? n)%Z eqn:E; [reflexivity|lia].
Qed.

Section Containers.

Variable stringWidth : str -> str -> Q -> Q.
Variable path_exists : str -> bool.
Variable ImageReader : str -> str + (Z * Z).
Variable get_lexer_by_name : str -> bool.
Variable fuel : nat.

Let rend := render stringWidth path_exists ImageReader get_lexer_by_name fuel.

(** C8.  Whenever a [CombinedElement] renders, from any position and with
    any theme, its children have been rendered in list order, each at the
    start [y] minus the sum of the heights of the children before it, and
    the height returned is the sum of the heights the children returned.
    It renders whenever its children do. *)
Theorem CombinedElement_render_sum (elements : list Element) (x y : Q)
    (theme : Theme) (cv : Canvas) :
  (forall height cv',
     rend (CombinedElement elements) x y theme cv = Ok (height, cv') ->
     exists heights,
       stacked rend x theme y 0 elements cv heights cv'
       /\ height = sum_heights heights)
  /\ (all_return rend theme elements ->
      exists height cv',
        rend (CombinedElement elements) x y theme cv = Ok (height, cv')).
Proof.
  split.
  - intros height cv' Hrun.
    apply (CombinedElement_loop_stacked rend theme x y elements
             y 0 0 cv height cv' Hrun).
    ring.
  - intro Hall.
    apply (CombinedElement_loop_returns rend theme elements Hall).
Qed.

(** The property of the specification for two children:
    [height(Concat([a, b])) == height(a) + height(b)], with [b] rendered
    below [a]. *)
Lemma CombinedElement_render_pair (a b : Element) (x y : Q) (theme : Theme)
    (cv : Canvas) (height : Q) (cv' : Canvas) :
  rend (CombinedElement [a; b]) x y theme cv = Ok (height, cv') ->
  exists ya ha cv1 yb hb,
    rend a x ya theme cv = Ok (ha, cv1)
    /\ rend b x yb theme cv1 = Ok (hb, cv')
    /\ ya == y /\ yb == y - ha
    /\ height == ha + hb.
Proof.
  intro Hrun.
  destruct (CombinedElement_loop_stacked rend theme x y [a; b]
              y 0 0 cv height cv' Hrun ltac:(ring)) as [hs [Hst Hh]].
  inversion Hst as [|? ? ? ? ya ha cv1 hs1 ? Hya Ha Hst1]; subst.
  inversion Hst1 as [|? ? ? ? yb hb cv2 hs2 ? Hyb Hb Hst2]; subst.
  inversion Hst2; subst.
  exists ya, ha, cv1, yb, hb. repeat split; try assumption.
  - rewrite Hya. ring.
  - rewrite Hyb. ring.
  - unfold sum_heights. cbn. ring.
Qed.

(** C7, as the code has it.  For a grid of at least one column, children
    from index [columns] on are never rendered: the outcome is that of the
    grid without them; whenever the grid renders, exactly its first
    [columns] children have been rendered, each in its column, and the
    height returned is the maximum (from 0) of the heights they returned,
    not their sum; the grid renders whenever these children do; and the
    estimator takes the maximum over the estimates of the same
    children. *)
Theorem GridLayout_first_columns (elements : list Element) (columns : Z)
    (x y : Q) (theme : Theme) (cv : Canvas) :
  (1 <= columns)%Z ->
  let shown := firstn (Z.to_nat columns) elements in
  let column_width := (fst SLIDE_16_9 - 100) / inject_Z columns in
  rend (GridLayout elements columns) x y theme cv
  = rend (GridLayout shown columns) x y theme cv
  /\ (forall height cv',
        rend (GridLayout elements columns) x y theme cv = Ok (height, cv') ->
        exists heights,
          in_columns rend y theme column_width 0 shown cv heights cv'
          /\ height = max_heights heights)
  /\ (all_return rend theme shown ->
      exists height cv',
        rend (GridLayout elements columns) x y theme cv = Ok (height, cv'))
  /\ _estimate_element_height (GridLayout elements columns) theme
     = max_heights
         (map (fun e => _estimate_element_height e theme) shown).
Proof.
  intros Hcol shown column_width.
  assert (Hnz : (columns =? 0)%Z = false) by lia.
  assert (Hshown : shown = firstn (Z.to_nat (columns - 0)) elements)
    by (unfold shown; now rewrite Z.sub_0_r).
  unfold rend. cbn [render]. rewrite Hnz. fold rend.
  repeat split.
  - rewrite (GridLayout_loop_firstn rend theme columns _ y elements).
    rewrite (GridLayout_loop_firstn rend theme columns _ y shown).
    rewrite <- Hshown. unfold shown at 2.
    rewrite firstn_firstn, Z.sub_0_r, Nat.min_id. reflexivity.
  - intros height cv' Hrun. rewrite Hshown.
    apply (GridLayout_loop_in_columns rend theme columns _ y elements
             0%Z 0 cv height cv' Hrun).
  - intro Hall.
    rewrite (GridLayout_loop_firstn rend theme columns _ y elements).
    rewrite <- Hshown.
    apply (GridLayout_loop_returns rend theme columns _ y shown Hall).
  - cbn [_estimate_element_height].
    rewrite slice_to_map, slice_to_nonneg by lia. reflexivity.
Qed.

End Containers.

(** C7 as stated fails for a grid of no column: [render] raises
    [ZeroDivisionError] and returns no height. *)
Lemma GridLayout_zero_columns_raises :
  let grid :=
    GridLayout [BodyText (py "left") None; BodyText (py "right") None] 0 in
  render courier_width no_file broken_image every_lexer 0 grid 50 300
    default_theme []
  = Raise ZeroDivisionError
  /\ ~ exists height cv',
         render courier_width no_file broken_image every_lexer 0 grid 50 300
           default_theme []
         = Ok (height, cv').
Proof.
  cbv zeta. split; [reflexivity|].
  intros [height [cv' H]]. discriminate H.
Qed.

Lemma CombinedElement_render_sum_witness :
  let children :=
    [BodyText (py "first") None; BodyText (py "second") None] in
  let rend := render courier_width no_file broken_image every_lexer 0 in
  exists height cv' heights,
    rend (CombinedElement children) 50 300 courier_theme [] = Ok (height, cv')
    /\ stacked rend 50 courier_theme 300 0 children [] heights cv'
    /\ height = sum_heights heights
    /\ height == 58.
Proof.
  intros children rend.
  destruct (CombinedElement_render_sum courier_width no_file broken_image
              every_lexer 0 children 50 300 courier_theme []) as [Hsum _].
  fold rend in Hsum.
  destruct (rend (CombinedElement children) 50 300 courier_theme [])
    as [[height cv']| |] eqn:E; try (vm_compute in E; discriminate E).
  destruct (Hsum height cv' eq_refl) as [heights [Hst Hh]].
  exists height, cv', heights. repeat split; try assumption.
  vm_compute in E. injection E as <- _. reflexivity.
Defined.

Lemma GridLayout_first_columns_witness :
  let a := BodyText (py "left") None in
  let b := BodyText (py "right") None in
  let c := BodyText (py "dropped") None in
  let rend := render courier_width no_file broken_image every_lexer 0 in
  rend (GridLayout [a; b; c] 2) 50 300 courier_theme []
  = rend (GridLayout [a; b] 2) 50 300 courier_theme []
  /\ _estimate_element_height (GridLayout [a; b; c] 2) courier_theme
     = max_heights
         (map (fun e => _estimate_element_height e courier_theme) [a; b])
  /\ exists height cv',
       rend (GridLayout [a; b; c] 2) 50 300 courier_theme []
       = Ok (height, cv')
       /\ height == 29.
Proof.
  intros a b c rend.
  destruct (GridLayout_first_columns courier_width no_file broken_image
              every_lexer 0 [a; b; c] 2 50 300 courier_theme []
              ltac:(lia)) as [Hfirst [_ [_ Hest]]].
  split; [exact Hfirst|]. split; [exact Hest|].
  destruct (rend (GridLayout [a; b; c] 2) 50 300 courier_theme [])
    as [[height cv']| |] eqn:E; try (vm_compute in E; discriminate E).
  exists height, cv'. split; [reflexivity|].
  vm_compute in E. injection E as <- _. reflexivity.
Defined.

(** ** Text wrapping *)

Lemma str_split_not_nil (sep : ascii) (s : str) : str_split sep s <> [].
Proof.
  destruct s as [|c s]; cbn; [discriminate|].
  destruct (Ascii.eqb c sep); [discriminate|].
  destruct (str_split sep s); discriminate.
Qed.

Lemma str_split_cons_other (sep c : ascii) (s : str) :
  Ascii.eqb c sep = false ->
  exists l ls,
    str_split sep s = l :: ls /\ str_split sep (c :: s) = (c :: l) :: ls.
Proof.
  intro Hc. cbn. rewrite Hc.
  destruct (str_split sep s) as [|l ls] eqn:E.
  - exfalso. exact (str_split_not_nil sep s E).
  - exists l, ls. auto.
Qed.

Lemma join_cons (w : str) (ws : list str) :
  ws <> [] -> join (w :: ws) = w ++ SP :: join ws.
Proof. destruct ws; [congruence|reflexivity]. Qed.

(** Splitting on spaces and joining with spaces gives the text back. *)
Lemma join_str_split (s : str) : join (str_split SP s) = s.
Proof.
  induction s as [|c s IH]; [reflexivity|].
  destruct (Ascii.eqb c SP) eqn:Hc.
  - cbn [str_split]. rewrite Hc.
    rewrite join_cons by apply str_split_not_nil.
    rewrite IH. apply Ascii.eqb_eq in Hc. now subst c.
  - destruct (str_split_cons_other SP c s Hc) as [l [ls [Hs Hcs]]].
    rewrite Hcs. rewrite Hs in IH.
    destruct ls as [|l' ls].
    + cbn in *. now rewrite IH.
    + rewrite join_cons in * by discriminate.
      cbn [app]. now rewrite IH.
Qed.

Lemma join_head (w : str) (ws : list str) :
  exists rest, join (w :: ws) = w ++ rest.
Proof.
  destruct ws as [|w' ws].
  - exists []. cbn. now rewrite app_nil_r.
  - exists (SP :: join (w' :: ws)). reflexivity.
Qed.

Lemma join_merge (cur w : str) (ws : list str) :
  join ((cur ++ [SP] ++ w) :: ws) = join (cur :: w :: ws).
Proof.
  destruct ws as [|w' ws]; cbn [join].
  - reflexivity.
  - now rewrite <- !app_assoc.
Qed.

Section WrapFacts.

Variable stringWidth : str -> str -> Q -> Q.
Variables (font_name : str) (font_size max_width : Q).

(** While every line tried fits, the loop of [wrap_text] keeps joining
    the words onto a non-empty current line. *)
Lemma wrap_fold_fits (words : list str) :
  forall lines current_line,
    truthy current_line = true ->
    (forall pre suf,
       join (current_line :: words) = pre ++ suf ->
       stringWidth pre font_name font_size <= max_width) ->
    fold_left (wrap_step stringWidth font_name font_size max_width) words
      (lines, current_line)
    = (lines, join (current_line :: words)).
Proof.
  induction words as [|w ws IH]; intros lines cur Hcur Hfit.
  - reflexivity.
  - cbn [fold_left]. unfold wrap_step at 2. rewrite Hcur.
    assert (Hle : Qleb (stringWidth (cur ++ [SP] ++ w) font_name font_size)
                    max_width = true).
    { apply Qleb_true.
      destruct (join_head w ws) as [rest Hrest].
      apply (Hfit (cur ++ [SP] ++ w) rest).
      rewrite join_cons by discriminate. rewrite Hrest.
      now rewrite <- !app_assoc. }
    rewrite Hle. rewrite IH.
    + now rewrite join_merge.
    + destruct cur; [discriminate|reflexivity].
    + intros pre suf Hj. apply (Hfit pre suf).
      now rewrite <- join_merge.
Qed.

(** C2, as the code has it.  A text that is not empty and does not begin
    with a space, whose measured width is at most [max_width] and none of
    whose prefixes measures more than the whole, is wrapped into exactly
    one line, equal to the text. *)
Theorem wrap_text_single_line (text : str) :
  text <> [] ->
  (forall rest, text <> SP :: rest) ->
  stringWidth text font_name font_size <= max_width ->
  (forall pre suf,
     text = pre ++ suf ->
     stringWidth pre font_name font_size
     <= stringWidth text font_name font_size) ->
  wrap_text stringWidth text font_name font_size max_width = [text].
Proof.
  intros Hne Hsp Hw Hmono.
  assert (Hfit : forall pre suf, text = pre ++ suf ->
                   stringWidth pre font_name font_size <= max_width).
  { intros pre suf Hps. eapply Qle_trans; [apply (Hmono pre suf Hps)|exact Hw]. }
  destruct text as [|c t]; [congruence|].
  assert (Hc : Ascii.eqb c SP = false).
  { destruct (Ascii.eqb c SP) eqn:E; [|reflexivity].
    apply Ascii.eqb_eq in E. subst c. exfalso. exact (Hsp t eq_refl). }
  destruct (str_split_cons_other SP c t Hc) as [l [ls [_ Hsplit]]].
  pose proof (join_str_split (c :: t)) as Hjoin. rewrite Hsplit in Hjoin.
  unfold wrap_text. rewrite Hsplit. cbn [fold_left].
  unfold wrap_step at 2. cbn [truthy app].
  assert (Hle : Qleb (stringWidth (c :: l) font_name font_size) max_width
                = true).
  { apply Qleb_true. destruct (join_head (c :: l) ls) as [rest Hrest].
    apply (Hfit (c :: l) rest). now rewrite <- Hjoin. }
  rewrite Hle. rewrite wrap_fold_fits.
  - rewrite Hjoin. reflexivity.
  - reflexivity.
  - intros pre suf Hps. apply (Hfit pre suf). now rewrite <- Hjoin.
Qed.

End WrapFacts.

Lemma courier_width_prefix (pre suf font_name : str) (font_size : Q) :
  0 <= font_size ->
  courier_width pre font_name font_size
  <= courier_width (pre ++ suf) font_name font_size.
Proof.
  intro Hs. unfold courier_width.
  apply Qmult_le_compat_r; [|exact Hs].
  apply Qmult_le_compat_r; [|discriminate].
  rewrite <- Zle_Qle. rewrite length_app. lia.
Qed.

Lemma wrap_text_single_line_witness :
  wrap_text courier_width (py "hello wide  world ") (py "Courier") 24 692
  = [py "hello wide  world "].
Proof.
  apply wrap_text_single_line.
  - discriminate.
  - discriminate.
  - vm_compute. discriminate.
  - intros pre suf ->. apply courier_width_prefix. discriminate.
Defined.

(** C2 as stated fails: the empty text and a text that begins with a
    space measure less than [max_width], yet the first is wrapped into no
    line at all and the second loses its leading space. *)
Lemma wrap_text_not_the_input :
  courier_width [] (py "Courier") 24 <= 692
  /\ wrap_text courier_width [] (py "Courier") 24 692 = []
  /\ courier_width (py " a") (py "Courier") 24 <= 692
  /\ wrap_text courier_width (py " a") (py "Courier") 24 692 = [py "a"]
  /\ wrap_text courier_width (py " a") (py "Courier") 24 692 <> [py " a"].
Proof.
  repeat split; try (vm_compute; discriminate).
Qed.

(** ** Code blocks: blank lines and the two ways of trimming *)

Lemma NL_is_space : is_space NL = true.
Proof. reflexivity. Qed.

Lemma not_space_not_NL (c : ascii) :
  is_space c = false -> Ascii.eqb c NL = false.
Proof.
  intro H. destruct (Ascii.eqb c NL) eqn:E; [|reflexivity].
  apply Ascii.eqb_eq in E. subst c. discriminate H.
Qed.

Lemma lstrip_nil_iff (s : str) : lstrip s = [] <-> forallb is_space s = true.
Proof.
  induction s as [|c s IH]; cbn; [tauto|].
  destruct (is_space c); cbn; [exact IH|]. split; discriminate.
Qed.

Lemma rstrip_nil_iff (s : str) : rstrip s = [] <-> forallb is_space s = true.
Proof.
  induction s as [|c s IH]; cbn; [tauto|].
  destruct (rstrip s) as [|r rs] eqn:E.
  - destruct IH as [IH _]. rewrite (IH eq_refl), andb_true_r.
    destruct (is_space c); split; congruence.
  - split; [discriminate|]. intro H. apply andb_true_iff in H.
    destruct H as [_ H]. apply IH in H. discriminate H.
Qed.

Lemma lstrip_all_space (s : str) :
  forallb is_space (lstrip s) = forallb is_space s.
Proof.
  induction s as [|c s IH]; [reflexivity|]. cbn.
  destruct (is_space c) eqn:E; cbn; [exact IH|now rewrite E].
Qed.

Lemma blank_iff (line : str) : blank line = forallb is_space line.
Proof.
  unfold blank, strip.
  destruct (forallb is_space line) eqn:E.
  - rewrite <- lstrip_all_space in E. apply rstrip_nil_iff in E.
    now rewrite E.
  - destruct (rstrip (lstrip line)) eqn:R; [|reflexivity].
    apply rstrip_nil_iff in R. rewrite lstrip_all_space in R. congruence.
Qed.

Lemma blank_cons (c : ascii) (line : str) :
  blank (c :: line) = is_space c && blank line.
Proof. now rewrite !blank_iff. Qed.

Lemma has_non_whitespace_iff (s : str) :
  has_non_whitespace s <-> forallb is_space s = false.
Proof.
  unfold has_non_whitespace. induction s as [|c s IH]; cbn.
  - split; [intros [c [[] _]]|discriminate].
  - split.
    + intros [d [[->|Hin] Hd]].
      * now rewrite Hd.
      * apply andb_false_iff. right. apply IH. now exists d.
    + intro H. apply andb_false_iff in H. destruct H as [H|H].
      * exists c. auto.
      * apply IH in H. destruct H as [d [Hin Hd]]. exists d. auto.
Qed.

(** The lines of a text of whitespace are all blank. *)
Lemma str_split_all_space (s : str) :
  forallb is_space s = true -> forallb blank (str_split NL s) = true.
Proof.
  induction s as [|c s IH]; intro H; [reflexivity|].
  cbn in H. apply andb_true_iff in H. destruct H as [Hc Hs].
  specialize (IH Hs). cbn [str_split].
  destruct (Ascii.eqb c NL).
  - cbn. exact IH.
  - destruct (str_split NL s) as [|l ls]; cbn in *.
    + now rewrite blank_cons, Hc.
    + apply andb_true_iff in IH. destruct IH as [Hl Hls].
      now rewrite blank_cons, Hc, Hl, Hls.
Qed.

Lemma pop_leading_blank_all (code_lines : list str) :
  forallb blank code_lines = true -> pop_leading_blank code_lines = [].
Proof.
  induction code_lines as [|l ls IH]; intro H; [reflexivity|].
  cbn in *. apply andb_true_iff in H. destruct H as [Hl Hls].
  rewrite Hl. now apply IH.
Qed.

Lemma pop_leading_blank_snoc (code_lines : list str) (line : str) :
  pop_leading_blank (code_lines ++ [line])
  = match pop_leading_blank code_lines with
    | [] => if blank line then [] else [line]
    | kept => kept ++ [line]
    end.
Proof.
  induction code_lines as [|l ls IH]; cbn; [reflexivity|].
  destruct (blank l); [exact IH|reflexivity].
Qed.

(** Popping from the end, by cases on the first line. *)
Lemma pop_trailing_blank_cons (line : str) (code_lines : list str) :
  pop_trailing_blank (line :: code_lines)
  = match pop_trailing_blank code_lines with
    | [] => if blank line then [] else [line]
    | kept => line :: kept
    end.
Proof.
  unfold pop_trailing_blank. cbn [rev]. rewrite pop_leading_blank_snoc.
  destruct (pop_leading_blank (rev code_lines)) as [|k ks] eqn:E.
  - cbn. destruct (blank line); reflexivity.
  - rewrite rev_app_distr. cbn [rev app].
    destruct (rev ks ++ [k]) eqn:R; [|reflexivity].
    destruct (rev ks); discriminate R.
Qed.

Lemma pop_trailing_blank_all (code_lines : list str) :
  forallb blank code_lines = true -> pop_trailing_blank code_lines = [].
Proof.
  induction code_lines as [|l ls IH]; intro H; [reflexivity|].
  cbn in H. apply andb_true_iff in H. destruct H as [Hl Hls].
  rewrite pop_trailing_blank_cons, (IH Hls), Hl. reflexivity.
Qed.

Lemma pop_trailing_blank_same (a b : list str) :
  Forall2 same_blank a b ->
  List.length (pop_trailing_blank a) = List.length (pop_trailing_blank b).
Proof.
  induction 1 as [|x y xs ys Hxy _ IH]; [reflexivity|].
  rewrite !pop_trailing_blank_cons. unfold same_blank in Hxy.
  destruct (pop_trailing_blank xs), (pop_trailing_blank ys);
    try discriminate IH.
  - rewrite Hxy. destruct (blank y); reflexivity.
  - cbn in *. now rewrite IH.
Qed.

Lemma Forall2_same_blank_refl (a : list str) : Forall2 same_blank a a.
Proof. induction a; constructor; [reflexivity|assumption]. Qed.

(** Popping the leading blank lines against stripping the text on the
    left: the same lines up to the whitespace that begins the first. *)
Lemma pop_leading_blank_lstrip (s : str) :
  has_non_whitespace s ->
  Forall2 same_blank (pop_leading_blank (str_split NL s))
    (str_split NL (lstrip s)).
Proof.
  induction s as [|c s IH]; intro H.
  - destruct H as [c [[] _]].
  - cbn [lstrip]. destruct (is_space c) eqn:Hc.
    + assert (Hs : has_non_whitespace s).
      { apply has_non_whitespace_iff. apply has_non_whitespace_iff in H.
        cbn in H. now rewrite Hc in H. }
      specialize (IH Hs). cbn [str_split].
      destruct (Ascii.eqb c NL).
      * cbn [pop_leading_blank]. exact IH.
      * destruct (str_split NL s) as [|l ls] eqn:E.
        { exfalso. exact (str_split_not_nil NL s E). }
        cbn [pop_leading_blank] in *. rewrite blank_cons, Hc. cbn [andb].
        destruct (blank l) eqn:Hl; [exact IH|].
        inversion IH as [|? x ? xs Hlx Hrest]; subst.
        constructor; [|exact Hrest].
        unfold same_blank in *. now rewrite blank_cons, Hc.
    + destruct (str_split_cons_other NL c s (not_space_not_NL c Hc))
        as [l [ls [_ Hcs]]].
      rewrite Hcs. cbn [pop_leading_blank].
      rewrite blank_cons, Hc. cbn [andb].
      apply Forall2_same_blank_refl.
Qed.

(** Popping the trailing blank lines against stripping the text on the
    right: the same number of lines. *)
Lemma pop_trailing_blank_rstrip (s : str) :
  has_non_whitespace s ->
  List.length (pop_trailing_blank (str_split NL s))
  = List.length (str_split NL (rstrip s)).
Proof.
  induction s as [|c s IH]; intro H.
  - destruct H as [c [[] _]].
  - cbn [rstrip]. destruct (rstrip s) as [|r rs] eqn:R.
    + (* the rest is whitespace: [c] is the last character kept *)
      apply rstrip_nil_iff in R.
      assert (Hc : is_space c = false).
      { apply has_non_whitespace_iff in H. cbn in H.
        rewrite R, andb_true_r in H. exact H. }
      rewrite Hc.
      destruct (str_split_cons_other NL c s (not_space_not_NL c Hc))
        as [l [ls [Hs Hcs]]].
      rewrite Hcs, pop_trailing_blank_cons.
      pose proof (str_split_all_space s R) as Hall. rewrite Hs in Hall.
      cbn in Hall. apply andb_true_iff in Hall. destruct Hall as [_ Hls].
      rewrite (pop_trailing_blank_all ls Hls), blank_cons, Hc.
      cbn. rewrite (not_space_not_NL c Hc). reflexivity.
    + assert (Hs : has_non_whitespace s).
      { apply has_non_whitespace_iff.
        destruct (forallb is_space s) eqn:E; [|reflexivity].
        apply rstrip_nil_iff in E. congruence. }
      specialize (IH Hs).
      assert (Hkept : pop_trailing_blank (str_split NL s) <> []).
      { intro Hnil. rewrite Hnil in IH. cbn [List.length] in IH.
        pose proof (str_split_not_nil NL (r :: rs)) as Hn.
        destruct (str_split NL (r :: rs)); [congruence|discriminate IH]. }
      destruct (Ascii.eqb c NL) eqn:Hnl.
      * cbn [str_split]. rewrite Hnl. rewrite pop_trailing_blank_cons.
        destruct (pop_trailing_blank (str_split NL s)) eqn:P;
          [congruence|].
        cbn [List.length] in *. now rewrite IH.
      * destruct (str_split_cons_other NL c s Hnl) as [l [ls [Hsl Hcs]]].
        destruct (str_split_cons_other NL c (r :: rs) Hnl)
          as [l' [ls' [Hsl' Hcs']]].
        rewrite Hcs, Hcs'. rewrite Hsl, Hsl' in *.
        rewrite pop_trailing_blank_cons in *.
        destruct (pop_trailing_blank ls) eqn:P.
        { destruct (blank l) eqn:Hl; [congruence|].
          rewrite blank_cons, Hl, andb_false_r. exact IH. }
        exact IH.
Qed.

(** The two line counts agree on a code that is not all whitespace. *)
Lemma code_line_counts_agree (get_lexer_by_name : str -> bool)
    (code : str) (language : option str) :
  has_non_whitespace code ->
  List.length (Code_render_lines get_lexer_by_name code language)
  = List.length (str_split NL (strip code)).
Proof.
  intro H. rewrite Code_render_lines_eq. unfold strip.
  rewrite (pop_trailing_blank_same _ _ (pop_leading_blank_lstrip code H)).
  apply pop_trailing_blank_rstrip.
  apply has_non_whitespace_iff. rewrite lstrip_all_space.
  now apply has_non_whitespace_iff.
Qed.

Lemma draw_code_segments_returns (segments : list str) (x line_height : Q)
    (font_name : str) (font_size : Q) :
  forall current_y cv,
    exists y' cv',
      draw_code_segments segments x current_y line_height font_name
        font_size cv = Ok (y', cv').
Proof.
  induction segments as [|s ss IH]; intros cy cv; cbn.
  - eexists _, _; reflexivity.
  - apply IH.
Qed.


Lemma lstrip_length (s : str) : (List.length (lstrip s) <= List.length s)%nat.
Proof.
  induction s as [|c s IH]; cbn; [lia|].
  destruct (is_space c); cbn; lia.
Qed.

Lemma lstrip_incl (s : str) (c : ascii) : In c (lstrip s) -> In c s.
Proof.
  induction s as [|d s IH]; cbn; [tauto|].
  destruct (is_space d); cbn; tauto.
Qed.

Lemma skipn_incl {A} (n : nat) (l : list A) (a : A) :
  In a (skipn n l) -> In a l.
Proof.
  intro H. rewrite <- (firstn_skipn n l). apply in_or_app. now right.
Qed.

(** ** Code blocks: when wrapping finishes *)

Section WrapCodeFacts.

Variable stringWidth : str -> str -> Q -> Q.
Variables (font_name : str) (font_size max_width : Q).

(** The index at which [fit_chars] breaks is not before the index it
    started from, and is after it when the first character fits. *)
Lemma fit_chars_index (content : str) :
  forall current_line k line i,
    fit_chars stringWidth font_name font_size max_width
      current_line content k = (line, Some i) ->
    (k <= i)%nat
    /\ (forall c rest,
          content = c :: rest ->
          Qleb (stringWidth (current_line ++ [c]) font_name font_size)
            max_width = true ->
          (S k <= i)%nat).
Proof.
  induction content as [|c rest IH]; intros cur k line i H; cbn in H.
  - discriminate.
  - destruct (Qleb _ _) eqn:E.
    + destruct (IH _ _ _ _ H) as [Hk _]. split; [lia|].
      intros c' rest' _ _. lia.
    + injection H as _ <-. split; [lia|].
      intros c' rest' Heq Hfit. injection Heq as <- <-. congruence.
Qed.

Lemma search_break_positive (content : str) (count : nat) :
  forall j b, search_break content j count = Some b -> (1 <= b)%nat.
Proof.
  induction count as [|n IH]; intros j b H; cbn [search_break] in H;
    [discriminate|].
  destruct (is_break_char (nth j content SP)).
  - injection H as <-. lia.
  - now apply IH in H.
Qed.

Lemma wrap_code_loop_finishes (line : str) :
  makes_progress stringWidth font_name font_size max_width line ->
  forall fuel wrapped_lines remaining_line,
    (forall c, In c remaining_line -> In c line) ->
    (List.length remaining_line < fuel)%nat ->
    wrap_code_loop stringWidth fuel font_name font_size max_width
      (leading_whitespace line) wrapped_lines remaining_line <> None.
Proof.
  intros Hprog fuel.
  induction fuel as [|fuel IH]; intros wl rem Hin Hlen; [lia|].
  cbn [wrap_code_loop].
  destruct (truthy rem) eqn:Hrem; cbn [negb]; [|discriminate].
  set (indent := if truthy wl then leading_whitespace line ++ py "    "
                 else leading_whitespace line).
  set (content := if truthy wl then lstrip rem
                  else skipn (List.length (leading_whitespace line)) rem).
  assert (Hcin : forall c, In c content -> In c line).
  { intros c Hc. apply Hin. unfold content in Hc.
    destruct (truthy wl); [now apply lstrip_incl|now apply skipn_incl in Hc]. }
  assert (Hclen : (List.length content <= List.length rem)%nat).
  { unfold content. destruct (truthy wl); [apply lstrip_length|].
    rewrite length_skipn. lia. }
  destruct (fit_chars _ _ _ _ indent content 0) as [cur [i|]] eqn:Hfit;
    [|discriminate].
  set (bp := match search_break content i (i - Nat.max 0 (i - 20)) with
             | Some b => b
             | None => i
             end).
  assert (Hbp : (1 <= bp)%nat).
  { unfold bp. destruct (search_break _ _ _) as [b|] eqn:Hs.
    - now apply search_break_positive in Hs.
    - destruct content as [|c rest] eqn:Hcontent; [discriminate Hfit|].
      destruct (fit_chars_index _ _ _ _ _ Hfit) as [_ Hi].
      apply (Hi c rest eq_refl).
      destruct (Hprog c (Hcin c (or_introl eq_refl))) as [H1 H2].
      unfold indent. destruct (truthy wl); assumption. }
  destruct (truthy (lstrip (skipn bp content))) eqn:Hnext; cbn [negb];
    [|discriminate].
  apply IH.
  - intros c Hc. apply Hcin. apply (skipn_incl bp). now apply lstrip_incl.
  - pose proof (lstrip_length (skipn bp content)) as H1.
    rewrite length_skipn in H1.
    destruct content; [destruct bp; discriminate Hnext|].
    cbn [List.length] in *. lia.
Qed.

Lemma _wrap_code_line_finishes (fuel : nat) (line : str) :
  makes_progress stringWidth font_name font_size max_width line ->
  (List.length line < fuel)%nat ->
  _wrap_code_line stringWidth fuel line font_name font_size max_width
  <> None.
Proof.
  intros Hprog Hlen. unfold _wrap_code_line.
  destruct (blank line); [discriminate|].
  destruct (Qleb _ _); [discriminate|].
  apply wrap_code_loop_finishes; auto.
Qed.

(** With fuel above the length of every line, the loop over the lines of
    a code block returns when each line fits or makes progress. *)
Lemma draw_code_lines_returns (fuel : nat) (code_lines : list str)
    (x line_height : Q) :
  Forall
    (fun line =>
       (stringWidth line font_name font_size <= max_width
        \/ makes_progress stringWidth font_name font_size max_width line)
       /\ (List.length line < fuel)%nat)
    code_lines ->
  forall current_y cv,
    exists cv',
      draw_code_lines stringWidth fuel code_lines x current_y line_height
        max_width font_name font_size cv
      = Ok (tt, cv').
Proof.
  induction 1 as [|line rest [Hline Hlen] _ IH]; intros cy cv;
    cbn [draw_code_lines].
  - eexists; reflexivity.
  - destruct (Qleb (stringWidth line font_name font_size) max_width) eqn:E.
    + unfold bind at 1, draw at 1. apply IH.
    + destruct Hline as [Hfit|Hprog].
      { apply Qleb_true in Hfit. congruence. }
      destruct (_wrap_code_line stringWidth fuel line font_name font_size
                  max_width) as [segments|] eqn:W.
      * unfold bind at 1.
        destruct (draw_code_segments_returns segments x line_height
                    font_name font_size cy cv) as [y' [cv1 Hseg]].
        rewrite Hseg. apply IH.
      * exfalso. exact (_wrap_code_line_finishes fuel line Hprog Hlen W).
Qed.

End WrapCodeFacts.

(** ** Code blocks: the height returned and the estimate *)

Section CodeFacts.

Variable stringWidth : str -> str -> Q -> Q.
Variable path_exists : str -> bool.
Variable ImageReader : str -> str + (Z * Z).
Variable get_lexer_by_name : str -> bool.

(** The height that [Code.render] returns is fixed before any line is
    measured: it depends on the number of trimmed lines only. *)
Lemma Code_render_height (fuel : nat) (code : str) (language : option str)
    (background_color : str) (x y : Q) (theme : Theme) (cv : Canvas)
    (height : Q) (cv' : Canvas) :
  Code_render stringWidth get_lexer_by_name fuel code language
    background_color x y theme cv = Ok (height, cv') ->
  height
  = inject_Z (Z.of_nat
      (List.length (Code_render_lines get_lexer_by_name code language)))
    * (get (theme_font_size theme) 24 * (8 # 10) + 2) + 2 * 10 + 10.
Proof.
  unfold Code_render, bind, draw.
  destruct (draw_code_lines _ _ _ _ _ _ _ _ _ _) as [[u c]| |];
    try discriminate.
  intro H. injection H as <- _. reflexivity.
Qed.

(** Whenever [Code.render] returns on a code that is not all whitespace,
    what it returns is the estimate,
    [trimmedLineCount * (0.8 * fontSize + 2) + 2 * 10 + 10]. *)
Lemma Code_render_is_estimate (fuel : nat) (code : str)
    (language : option str) (background_color : str) (x y : Q)
    (theme : Theme) (cv : Canvas) (height : Q) (cv' : Canvas) :
  has_non_whitespace code ->
  render stringWidth path_exists ImageReader get_lexer_by_name fuel
    (Code code language background_color) x y theme cv = Ok (height, cv') ->
  height = _estimate_element_height (Code code language background_color) theme
  /\ height
     = inject_Z (Z.of_nat (List.length (str_split NL (strip code))))
       * (get (theme_font_size theme) 24 * (8 # 10) + 2) + 2 * 10 + 10.
Proof.
  intros Hcode Hrun. cbn [render] in Hrun.
  apply Code_render_height in Hrun.
  rewrite (code_line_counts_agree _ _ _ Hcode) in Hrun.
  split; exact Hrun.
Qed.

(** With fuel above the length of every line, [Code.render] returns when
    each trimmed line fits the width of a code block or makes progress
    in [_wrap_code_line]; what it returns is then the estimate. *)
Lemma Code_render_returns (fuel : nat) (code : str)
    (language : option str) (background_color : str) (x y : Q)
    (theme : Theme) (cv : Canvas) :
  let font_size := get (theme_font_size theme) 24 * (8 # 10) in
  let max_width := get_available_width - 20 in
  Forall
    (fun line =>
       (stringWidth line (py "Courier") font_size <= max_width
        \/ makes_progress stringWidth (py "Courier") font_size max_width line)
       /\ (List.length line < fuel)%nat)
    (Code_render_lines get_lexer_by_name code language) ->
  exists height cv',
    render stringWidth path_exists ImageReader get_lexer_by_name fuel
      (Code code language background_color) x y theme cv = Ok (height, cv').
Proof.
  intros font_size max_width Hlines. cbn [render]. unfold Code_render.
  fold font_size max_width.
  unfold bind, draw.
  match goal with
  | |- context [draw_code_lines _ _ _ _ ?cy ?lh _ _ _ ?c0] =>
      destruct (draw_code_lines_returns stringWidth (py "Courier") font_size
                  max_width fuel _ x lh Hlines cy c0) as [c1 Hc1]
  end.
  rewrite Hc1. eexists _, _; reflexivity.
Qed.

End CodeFacts.


(** ** Heights do not depend on the position *)

Section HeightFixed.

Variable stringWidth : str -> str -> Q -> Q.
Variable path_exists : str -> bool.
Variable ImageReader : str -> str + (Z * Z).
Variable get_lexer_by_name : str -> bool.
Variable fuel : nat.

Let rend := render stringWidth path_exists ImageReader get_lexer_by_name fuel.

(** The height an element returns does not depend on the position nor
    on the canvas. *)
Lemma render_height_fixed (theme : Theme) (element : Element) :
  height_fixed rend theme element.
Proof.
  induction element
    as [t c|t c|t c|t c|t c|c l b|p c|e IH|e IH|e IH|es n IH|p|es IH]
    using Element_nested_ind;
    intros x y cv h cv1 x' y' cv' h' cv1' H1 H2;
    unfold rend in H1, H2; cbn [render] in H1, H2; fold rend in H1, H2.
  1-5: unfold Head1_render, Head2_render, Head3_render, BodyText_render,
         Bold_render in H1, H2;
       match type of H1 with
       | render_text ?sw ?f ?s ?col ?g ?tr ?txt _ _ _ = _ =>
           destruct (render_text_height sw f s col g tr txt x y cv)
             as [c1 E1];
           destruct (render_text_height sw f s col g tr txt x' y' cv')
             as [c2 E2]
       end; congruence.
  - apply Code_render_height in H1. apply Code_render_height in H2.
    congruence.
  - unfold Img_render, Img_render_error in H1, H2.
    destruct (path_exists p).
    + destruct (ImageReader p) as [message|[w hh]].
      * unfold bind, draw, ret in H1, H2. congruence.
      * destruct ((w =? 0)%Z || (hh =? 0)%Z).
        { unfold bind, draw, ret in H1, H2. congruence. }
        destruct (truthy c); unfold bind, draw, ret in H1, H2; congruence.
    + destruct (truthy c); unfold bind, draw, ret in H1, H2; congruence.
  - exact (IH _ _ _ _ _ _ _ _ _ _ H1 H2).
  - exact (IH _ _ _ _ _ _ _ _ _ _ H1 H2).
  - exact (IH _ _ _ _ _ _ _ _ _ _ H1 H2).
  - destruct (n =? 0)%Z; [discriminate H1|].
    exact (GridLayout_loop_height_fixed rend theme n es IH
             _ _ _ _ _ _ _ _ _ _ _ _ H1 H2).
  - unfold BackgroundImage_render in H1, H2.
    destruct (path_exists p); [destruct (ImageReader p)|];
      unfold bind, draw, ret in H1, H2; congruence.
  - exact (CombinedElement_loop_height_fixed rend theme es IH
             _ _ _ _ _ _ _ _ _ _ _ H1 H2).
Qed.

(** The property of the specification with the children measured on
    their own, anywhere: [height(Concat([a, b])) == height(a) + height(b)]. *)
Lemma CombinedElement_height_pair (a b : Element) (theme : Theme)
    (x y : Q) (cv : Canvas) (height : Q) (cv' : Canvas)
    (xa ya : Q) (cva : Canvas) (ha : Q) (cva' : Canvas)
    (xb yb : Q) (cvb : Canvas) (hb : Q) (cvb' : Canvas) :
  rend (CombinedElement [a; b]) x y theme cv = Ok (height, cv') ->
  rend a xa ya theme cva = Ok (ha, cva') ->
  rend b xb yb theme cvb = Ok (hb, cvb') ->
  height == ha + hb.
Proof.
  intros Hrun Ha Hb.
  destruct (CombinedElement_render_pair stringWidth path_exists ImageReader
              get_lexer_by_name fuel a b x y theme cv height cv' Hrun)
    as [ya' [ha' [cv1 [yb' [hb' [Ha' [Hb' [_ [_ Hsum]]]]]]]]].
  rewrite (render_height_fixed theme a _ _ _ _ _ _ _ _ _ _ Ha Ha').
  rewrite (render_height_fixed theme b _ _ _ _ _ _ _ _ _ _ Hb Hb').
  exact Hsum.
Qed.

End HeightFixed.

(** ** Code blocks: a line whose indentation fills the width

    With text left to place and a continuation indentation after which
    not even one character fits, an iteration of the loop of
    [_wrap_code_line] appends the bare indentation and leaves the
    remaining text as it was. *)
Lemma wrap_code_loop_stuck (fuel : nat) :
  forall wrapped_lines,
    wrapped_lines <> [] ->
    wrap_code_loop courier_width fuel (py "Courier") (24 * (8 # 10))
      (get_available_width - 20) (repeat SP 59) wrapped_lines (py "x")
    = None.
Proof.
  induction fuel as [|fuel IH]; intros wl Hwl; [reflexivity|].
  destruct wl as [|w wl]; [congruence|].
  cbn [wrap_code_loop].
  change (truthy (py "x")) with true.
  change (truthy (w :: wl)) with true.
  change (lstrip (py "x")) with (py "x").
  cbn [negb].
  assert (Hfit :
    fit_chars courier_width (py "Courier") (24 * (8 # 10))
      (get_available_width - 20) (repeat SP 59 ++ py "    ") (py "x") 0
    = (repeat SP 59 ++ py "    ", Some 0%nat)) by (vm_compute; reflexivity).
  rewrite Hfit.
  change (search_break (py "x") 0 (0 - Nat.max 0 (0 - 20))) with (@None nat).
  cbv iota beta.
  change (lstrip (skipn 0 (py "x"))) with (py "x").
  change (truthy (py "x")) with true. cbn [negb].
  apply IH. destruct wl; discriminate.
Qed.

Lemma wrap_deep_line_never_finishes (fuel : nat) :
  _wrap_code_line courier_width fuel deep_line (py "Courier") (24 * (8 # 10))
    (get_available_width - 20)
  = None.
Proof.
  unfold _wrap_code_line.
  assert (Hb : blank deep_line = false) by reflexivity.
  assert (Hw : Qleb (courier_width deep_line (py "Courier") (24 * (8 # 10)))
                 (get_available_width - 20) = false)
    by (vm_compute; reflexivity).
  rewrite Hb, Hw.
  change (leading_whitespace deep_line) with (repeat SP 59).
  destruct fuel as [|fuel]; [reflexivity|].
  cbn [wrap_code_loop].
  change (truthy deep_line) with true.
  change (truthy (@nil str)) with false.
  cbn [negb].
  change (skipn (List.length (repeat SP 59)) deep_line) with (py "x").
  assert (Hfit :
    fit_chars courier_width (py "Courier") (24 * (8 # 10))
      (get_available_width - 20) (repeat SP 59) (py "x") 0
    = (repeat SP 59, Some 0%nat)) by (vm_compute; reflexivity).
  rewrite Hfit.
  change (search_break (py "x") 0 (0 - Nat.max 0 (0 - 20))) with (@None nat).
  cbv iota beta.
  change (lstrip (skipn 0 (py "x"))) with (py "x").
  change (truthy (py "x")) with true. cbn [negb].
  apply wrap_code_loop_stuck. discriminate.
Qed.

(** C10, at the input where the code departs from it.  A code line
    indented so far that its first character no longer fits after the
    indentation makes [_wrap_code_line] loop without consuming anything:
    [Code.render] returns no height, whatever the fuel. *)
Theorem Code_render_deep_line_never_returns (fuel : nat) :
  render courier_width no_file broken_image every_lexer fuel
    (Code deep_line None (py "#F5F5F5")) 50 300 default_theme []
  = OutOfFuel.
Proof.
  cbn [render]. unfold Code_render.
  change (Code_render_lines every_lexer deep_line None) with [deep_line].
  change (get (theme_font_size default_theme) 24) with 24.
  unfold bind at 1 2 3 4 5. unfold draw at 1 2 3 4.
  cbn [draw_code_lines].
  assert (Hw : Qleb (courier_width deep_line (py "Courier") (24 * (8 # 10)))
                 (get_available_width - 20) = false)
    by (vm_compute; reflexivity).
  rewrite Hw, wrap_deep_line_never_finishes. reflexivity.
Qed.

(** ** Pagination: what the physical slides look like *)

Lemma Qleb_proper (a b c d : Q) : a == c -> b == d -> Qleb a b = Qleb c d.
Proof. intros H1 H2. unfold Qleb. now rewrite H1, H2. Qed.

Lemma Qltb_proper (a b c d : Q) : a == c -> b == d -> Qltb a b = Qltb c d.
Proof. intros H1 H2. unfold Qltb, Qleb. now rewrite H1, H2. Qed.

Lemma running_y_snoc (theme : Theme) (elements : list Element) (e : Element) :
  running_y theme (elements ++ [e]) = est_step theme (running_y theme elements) e.
Proof. unfold running_y. now rewrite fold_left_app. Qed.

Lemma fits_from_app (theme : Theme) (a b : list Element) :
  forall cy,
    fits_from theme cy (a ++ b)
    = fits_from theme cy a && fits_from theme (fold_left (est_step theme) a cy) b.
Proof.
  induction a as [|e a IH]; intro cy; cbn [app fits_from fold_left].
  - reflexivity.
  - rewrite IH. now rewrite andb_assoc.
Qed.

Lemma chunk_fits_snoc (theme : Theme) (c : list Element) (e : Element) :
  c <> [] ->
  chunk_fits theme (c ++ [e])
  = chunk_fits theme c
    && Qleb DEFAULT_MARGIN_BOTTOM (running_y theme (c ++ [e])).
Proof.
  intro Hc. destruct c as [|f r]; [congruence|].
  rewrite running_y_snoc. unfold running_y.
  cbn [app chunk_fits fold_left]. rewrite fits_from_app. cbn [fits_from].
  now rewrite andb_true_r.
Qed.

Lemma boundaries_snoc (theme : Theme) (chunks : list (list Element))
    (closed next : list Element) :
  boundaries theme (chunks ++ [closed]) ->
  boundary theme closed next ->
  boundaries theme (chunks ++ [closed; next]).
Proof.
  induction chunks as [|c cs IH]; intros Hb Hn.
  - cbn. auto.
  - cbn [app boundaries] in *. destruct Hb as [H1 H2]. split.
    + destruct cs; cbn [app] in *; exact H1.
    + now apply IH.
Qed.

Lemma boundaries_grow_last (theme : Theme) (chunks : list (list Element))
    (c : list Element) (e : Element) :
  c <> [] ->
  boundaries theme (chunks ++ [c]) ->
  boundaries theme (chunks ++ [c ++ [e]]).
Proof.
  intro Hc. destruct c as [|f r]; [congruence|].
  induction chunks as [|c0 cs IH]; intro Hb.
  - cbn. auto.
  - cbn [app boundaries] in *. destruct Hb as [H1 H2]. split.
    + destruct cs; cbn [app] in *; exact H1.
    + now apply IH.
Qed.

Lemma boundaries_middle (theme : Theme) (a b : list (list Element))
    (closed next : list Element) :
  boundaries theme (a ++ closed :: next :: b) -> boundary theme closed next.
Proof.
  induction a as [|c a IH]; cbn [app boundaries].
  - tauto.
  - intros [_ H]. now apply IH.
Qed.

Lemma page_inv_start (theme : Theme) :
  page_inv theme (mkPageState [] [] top_y).
Proof.
  unfold page_inv. cbn. repeat split; auto; try reflexivity.
Qed.

Lemma page_inv_step (theme : Theme) (st : PageState) (e : Element) :
  page_inv theme st -> page_inv theme (overflow_step theme st e).
Proof.
  intros (Hclosed & Hcur & Hy & Hempty & Hb).
  unfold overflow_step.
  set (est := _estimate_element_height e theme) in *.
  assert (Hcy : current_y st - est - 10
                == running_y theme (current_slide_elements st ++ [e])).
  { rewrite running_y_snoc. unfold est_step. fold est. rewrite Hy. ring. }
  assert (Hfirst : forall cy, cy == top_y ->
                     cy - (est + 10) == running_y theme [e]).
  { intros cy H. unfold running_y. cbn [fold_left]. unfold est_step.
    fold est. rewrite H. reflexivity. }
  destruct (Qltb (current_y st - est - 10) DEFAULT_MARGIN_BOTTOM) eqn:Hlt;
    [destruct (truthy (current_slide_elements st)) eqn:Hne|]; cbn [andb].
  - (* the pending slide is closed, a new one starts with [e] *)
    apply truthy_true in Hne. apply Qltb_true in Hlt.
    unfold page_inv; cbn [slides current_slide_elements current_y].
    split; [|split; [|split; [|split]]].
    + apply Forall_app. split; [exact Hclosed|].
      constructor; [|constructor]. cbn [slide_elements]. auto.
    + reflexivity.
    + rewrite <- (Hfirst top_y (Qeq_refl _)). unfold top_y. ring.
    + intro H. discriminate H.
    + rewrite map_app. cbn [map slide_elements]. rewrite <- app_assoc.
      apply boundaries_snoc; [exact Hb|].
      unfold boundary. rewrite <- Hcy. exact Hlt.
  - (* nothing pending: the element opens the first slide *)
    apply truthy_false in Hne.
    unfold page_inv; cbn [slides current_slide_elements current_y].
    rewrite Hne in *. rewrite (Hempty eq_refl) in *. cbn [app map].
    split; [|split; [|split; [|split]]].
    + constructor.
    + reflexivity.
    + apply Hfirst. exact Hy.
    + intro H. discriminate H.
    + cbn. auto.
  - (* the element fits after the pending ones *)
    apply Qltb_false in Hlt.
    unfold page_inv; cbn [slides current_slide_elements current_y].
    destruct (current_slide_elements st) as [|f r] eqn:Hc.
    + rewrite (Hempty eq_refl) in *. cbn [app map].
      split; [|split; [|split; [|split]]].
      * constructor.
      * reflexivity.
      * apply Hfirst. exact Hy.
      * intro H. discriminate H.
      * cbn. auto.
    + split; [|split; [|split; [|split]]].
      * exact Hclosed.
      * rewrite chunk_fits_snoc by discriminate. rewrite Hcur. cbn [andb].
        apply Qleb_true. rewrite <- Hcy. exact Hlt.
      * rewrite running_y_snoc. unfold est_step. fold est. rewrite Hy.
        reflexivity.
      * intro H. discriminate H.
      * apply boundaries_grow_last; [discriminate|exact Hb].
Qed.

Lemma page_inv_fold (theme : Theme) (es : list Element) :
  forall st, page_inv theme st ->
  page_inv theme (fold_left (overflow_step theme) es st).
Proof.
  induction es as [|e es IH]; intros st H; [exact H|].
  cbn. apply IH. now apply page_inv_step.
Qed.

(** What pagination returns for a non-empty slide: slides that are not
    empty, that fit by estimate, and that were closed only where the next
    element did not fit. *)
Lemma pagination_shape (self : Slide) (theme : Theme) :
  slide_elements self <> [] ->
  let physical := render_with_overflow_detection self theme in
  Forall (fun s => slide_elements s <> []
                   /\ chunk_fits theme (slide_elements s) = true) physical
  /\ boundaries theme (map slide_elements physical).
Proof.
  intros Hne physical. subst physical.
  rewrite (render_with_overflow_detection_flush self theme Hne).
  pose proof (page_inv_fold theme (slide_elements self) _
                (page_inv_start theme)) as (Hclosed & Hcur & _ & Hempty & Hb).
  set (st := fold_left _ _ _) in *.
  unfold flush. destruct (current_slide_elements st) as [|f r] eqn:Hc;
    cbn [truthy].
  - rewrite (Hempty eq_refl). cbn. auto.
  - split.
    + apply Forall_app. split; [exact Hclosed|].
      constructor; [|constructor]. cbn. split; [discriminate|exact Hcur].
    + rewrite map_app. exact Hb.
Qed.

Lemma chunk_fits_app_l (theme : Theme) (a b : list Element) :
  chunk_fits theme (a ++ b) = true -> chunk_fits theme a = true.
Proof.
  destruct a as [|f r]; [reflexivity|].
  cbn [app chunk_fits]. rewrite fits_from_app.
  intro H. apply andb_true_iff in H. tauto.
Qed.

(** While the elements fit by estimate the loop only appends. *)
Lemma overflow_fold_fits (theme : Theme) (es : list Element) :
  forall st,
    slides st = [] ->
    current_y st == running_y theme (current_slide_elements st) ->
    chunk_fits theme (current_slide_elements st ++ es) = true ->
    slides (fold_left (overflow_step theme) es st) = []
    /\ current_slide_elements (fold_left (overflow_step theme) es st)
       = current_slide_elements st ++ es.
Proof.
  induction es as [|e es IH]; intros st Hs Hy Hfit.
  - cbn. now rewrite app_nil_r.
  - cbn [fold_left].
    assert (Hstep : slides (overflow_step theme st e) = []
                    /\ current_slide_elements (overflow_step theme st e)
                       = current_slide_elements st ++ [e]
                    /\ current_y (overflow_step theme st e)
                       = current_y st
                         - (_estimate_element_height e theme + 10)).
    { unfold overflow_step.
      destruct (current_slide_elements st) as [|f r] eqn:Hc.
      - rewrite andb_false_r. cbn. auto.
      - assert (Hpre : chunk_fits theme ((f :: r) ++ [e]) = true).
        { apply (chunk_fits_app_l theme ((f :: r) ++ [e]) es).
          rewrite <- app_assoc. exact Hfit. }
        pose proof (chunk_fits_snoc theme (f :: r) e ltac:(discriminate))
          as Hsn.
        rewrite Hpre in Hsn. symmetry in Hsn.
        apply andb_true_iff in Hsn. destruct Hsn as [_ Hsn].
        apply Qleb_true in Hsn. rewrite running_y_snoc in Hsn.
        unfold est_step in Hsn. rewrite <- Hy in Hsn.
        assert (Hlt : Qltb (current_y st - _estimate_element_height e theme
                            - 10) DEFAULT_MARGIN_BOTTOM = false).
        { apply Qltb_false. lra. }
        rewrite Hlt. cbn. auto. }
    destruct Hstep as (Hs1 & Hc1 & Hy1).
    destruct (IH (overflow_step theme st e)) as [Hs2 Hc2].
    + exact Hs1.
    + rewrite Hc1, Hy1, running_y_snoc. unfold est_step. now rewrite Hy.
    + rewrite Hc1, <- app_assoc. exact Hfit.
    + split; [exact Hs2|]. rewrite Hc2, Hc1, <- app_assoc. reflexivity.
Qed.

Lemma flatten_length (physical : list Slide) :
  Forall (fun s => slide_elements s <> []) physical ->
  (List.length physical <= List.length (flatten physical))%nat.
Proof.
  induction 1 as [|s ss Hs _ IH]; [cbn; lia|].
  change (s :: ss) with ([s] ++ ss). rewrite flatten_app, length_app.
  unfold flatten at 1. cbn [map List.concat]. rewrite app_nil_r.
  destruct (slide_elements s); [congruence|].
  cbn [List.length app] in *. rewrite length_app. lia.
Qed.

(** X4.  For a slide that is not empty, no physical slide is empty, and
    there are at most as many physical slides as elements. *)
Theorem physical_slides_not_empty (self : Slide) (theme : Theme) :
  slide_elements self <> [] ->
  Forall (fun s => slide_elements s <> [])
    (render_with_overflow_detection self theme)
  /\ (List.length (render_with_overflow_detection self theme)
      <= List.length (slide_elements self))%nat.
Proof.
  intro Hne.
  destruct (pagination_shape self theme Hne) as [Hall _].
  assert (Hnon : Forall (fun s => slide_elements s <> [])
                   (render_with_overflow_detection self theme)).
  { eapply Forall_impl; [|exact Hall]. cbn. tauto. }
  split; [exact Hnon|].
  pose proof (flatten_length _ Hnon) as Hlen.
  rewrite (render_with_overflow_detection_flush self theme Hne) in Hlen |- *.
  destruct (overflow_fold_flush theme (slide_elements self)
              (mkPageState [] [] top_y)) as [extra [Hf Hx]].
  rewrite Hf in *. cbn [slides app current_slide_elements] in *.
  now rewrite Hx in Hlen.
Qed.

Lemma physical_slides_not_empty_witness :
  let self := mkSlide [Img (py "a.png") []; Img (py "b.png") [];
                       BodyText (py "text") None] in
  Forall (fun s => slide_elements s <> [])
    (render_with_overflow_detection self default_theme)
  /\ (List.length (render_with_overflow_detection self default_theme)
      <= List.length (slide_elements self))%nat.
Proof.
  intro self. apply physical_slides_not_empty. discriminate.
Defined.

(** ** Text wrapping: lines and words *)

Lemma str_split_no_sep (sep : ascii) (s : str) :
  ~ In sep s -> str_split sep s = [s].
Proof.
  induction s as [|c s IH]; intro H; [reflexivity|].
  cbn [str_split]. destruct (Ascii.eqb c sep) eqn:E.
  - apply Ascii.eqb_eq in E. subst c. exfalso. apply H. now left.
  - rewrite IH; [reflexivity|]. intro Hin. apply H. now right.
Qed.

Lemma str_split_app_sep (sep : ascii) (a b : str) :
  str_split sep (a ++ sep :: b) = str_split sep a ++ str_split sep b.
Proof.
  induction a as [|c a IH]; cbn [app str_split].
  - now rewrite Ascii.eqb_refl.
  - destruct (Ascii.eqb c sep); rewrite IH; [reflexivity|].
    destruct (str_split sep a) as [|l ls] eqn:E.
    + exfalso. exact (str_split_not_nil sep a E).
    + reflexivity.
Qed.

Lemma str_split_pieces_no_sep (sep : ascii) (s : str) :
  Forall (fun w => ~ In sep w) (str_split sep s).
Proof.
  induction s as [|c s IH]; cbn [str_split].
  - constructor; [intros []|constructor].
  - destruct (Ascii.eqb c sep) eqn:E.
    + constructor; [intros []|exact IH].
    + destruct (str_split sep s) as [|l ls]; [constructor;[|constructor]|].
      * intros [Hc|[]]. subst c. now rewrite Ascii.eqb_refl in E.
      * inversion IH as [|? ? Hl Hls]. constructor; [|exact Hls].
        intros [Hc|Hc]; [|now apply Hl].
        subst c. now rewrite Ascii.eqb_refl in E.
Qed.

Lemma nonempty_words_word (w : str) :
  ~ In SP w -> nonempty_words w = if truthy w then [w] else [].
Proof.
  intro H. unfold nonempty_words. rewrite (str_split_no_sep SP w H).
  cbn. destruct (truthy w); reflexivity.
Qed.

Lemma nonempty_words_app_sep (a b : str) :
  nonempty_words (a ++ SP :: b) = nonempty_words a ++ nonempty_words b.
Proof.
  unfold nonempty_words. now rewrite str_split_app_sep, filter_app.
Qed.

Section WrapLines.

Variable stringWidth : str -> str -> Q -> Q.
Variables (font_name : str) (font_size max_width : Q).

Let step := wrap_step stringWidth font_name font_size max_width.
Let fits (l : str) := stringWidth l font_name font_size <= max_width.

(** The line that a step tries, by cases on the current line. *)
Lemma test_line_cases (current_line word : str) :
  current_line ++ (if truthy current_line then [SP] else []) ++ word
  = if truthy current_line then current_line ++ SP :: word else word.
Proof.
  destruct current_line; reflexivity.
Qed.

Lemma wrap_fold_invariant (W : str -> Prop) (P : list str -> str -> Prop) :
  (forall lines cur word,
     W word -> P lines cur -> P (fst (step (lines, cur) word))
                                (snd (step (lines, cur) word))) ->
  forall words lines cur,
    Forall W words ->
    P lines cur ->
    P (fst (fold_left step words (lines, cur)))
      (snd (fold_left step words (lines, cur))).
Proof.
  intros Hstep words.
  induction words as [|w ws IH]; intros lines cur Hw HP; [exact HP|].
  cbn [fold_left]. inversion Hw as [|? ? Hw1 Hws]; subst.
  specialize (Hstep lines cur w Hw1 HP).
  destruct (step (lines, cur) w) as [lines' cur']. cbn [fst snd] in Hstep.
  now apply IH.
Qed.

(** A property of the result of [wrap_text], from an invariant of its
    loop: [W] holds of the words, [P] of the lines and the current line,
    [R] of the lines returned. *)
Lemma wrap_text_result (text : str) (W : str -> Prop)
    (P : list str -> str -> Prop) (R : list str -> Prop) :
  Forall W (str_split SP text) ->
  (forall lines cur word,
     W word -> P lines cur -> P (fst (step (lines, cur) word))
                                (snd (step (lines, cur) word))) ->
  P [] [] ->
  (forall lines cur,
     P lines cur -> R (if truthy cur then lines ++ [cur] else lines)) ->
  R (wrap_text stringWidth text font_name font_size max_width).
Proof.
  intros HW Hstep H0 Hend. unfold wrap_text.
  pose proof (wrap_fold_invariant W P Hstep (str_split SP text) [] []
                HW H0) as H.
  set (r := fold_left _ _ _).
  change (P (fst r) (snd r)) in H.
  destruct r as [lines cur]. apply Hend. exact H.
Qed.

(** When every word of the text fits, every line returned fits. *)
Lemma wrap_text_lines_fit (text : str) :
  (forall w, In w (str_split SP text) -> fits w) ->
  Forall fits (wrap_text stringWidth text font_name font_size max_width).
Proof.
  intro Hwords.
  apply (wrap_text_result text fits
           (fun lines cur => Forall fits lines /\ (cur = [] \/ fits cur))).
  - apply Forall_forall. exact Hwords.
  - intros lines cur word Hw [Hl Hc]. unfold step, wrap_step.
    destruct (Qleb _ _) eqn:E; cbn [fst snd].
    + split; [exact Hl|]. right. now apply Qleb_true.
    + destruct (truthy cur) eqn:Hcur; cbn [fst snd].
      * split; [|now right]. apply Forall_app. split; [exact Hl|].
        constructor; [|constructor].
        destruct Hc as [Hc|Hc]; [subst cur; discriminate Hcur|exact Hc].
      * split; [|now left]. apply Forall_app. split; [exact Hl|].
        constructor; [exact Hw|constructor].
  - split; [constructor|now left].
  - intros lines cur [Hl Hc]. destruct (truthy cur) eqn:Hcur; [|exact Hl].
    apply Forall_app. split; [exact Hl|]. constructor; [|constructor].
    destruct Hc as [Hc|Hc]; [subst cur; discriminate Hcur|exact Hc].
Qed.

(** X6.  When the empty string measures at most [max_width], [wrap_text]
    returns no empty line. *)
Theorem wrap_text_no_empty_line (text : str) :
  stringWidth [] font_name font_size <= max_width ->
  Forall (fun line => line <> [])
    (wrap_text stringWidth text font_name font_size max_width).
Proof.
  intro Hempty.
  apply (wrap_text_result text (fun _ => True)
           (fun lines _ => Forall (fun line => line <> []) lines)).
  - apply Forall_forall. auto.
  - intros lines cur word _ Hl. unfold step, wrap_step.
    rewrite test_line_cases.
    destruct (truthy cur) eqn:Hc.
    + destruct (Qleb _ _); cbn [fst snd]; [exact Hl|].
      apply Forall_app. split; [exact Hl|].
      constructor; [|constructor]. now apply truthy_true.
    + destruct (Qleb _ _) eqn:E; cbn [fst snd]; [exact Hl|].
      apply Forall_app. split; [exact Hl|].
      constructor; [|constructor]. intro Hw. subst word.
      apply Qleb_false in E. lra.
  - constructor.
  - intros lines cur Hl. destruct (truthy cur) eqn:Hc; [|exact Hl].
    apply Forall_app. split; [exact Hl|].
    constructor; [|constructor]. now apply truthy_true.
Qed.

(** X7.  Every line that [wrap_text] returns measures at most
    [max_width], unless it is a single word: a line wider than
    [max_width] holds no space. *)
Theorem wrap_text_lines_fit_or_single_word (text : str) :
  Forall (fun line => fits line \/ ~ In SP line)
    (wrap_text stringWidth text font_name font_size max_width).
Proof.
  apply (wrap_text_result text (fun w => ~ In SP w)
           (fun lines cur =>
              Forall (fun line => fits line \/ ~ In SP line) lines
              /\ (fits cur \/ ~ In SP cur))).
  - apply str_split_pieces_no_sep.
  - intros lines cur word Hw [Hl Hc]. unfold step, wrap_step.
    destruct (Qleb _ _) eqn:E; cbn [fst snd].
    + split; [exact Hl|]. left. now apply Qleb_true.
    + destruct (truthy cur); cbn [fst snd].
      * split; [|now right]. apply Forall_app. split; [exact Hl|].
        constructor; [exact Hc|constructor].
      * split; [|right; intros []]. apply Forall_app. split; [exact Hl|].
        constructor; [now right|constructor].
  - split; [constructor|]. right. intros [].
  - intros lines cur [Hl Hc]. destruct (truthy cur); [|exact Hl].
    apply Forall_app. split; [exact Hl|]. constructor; [exact Hc|constructor].
Qed.

(** X8.  [wrap_text] keeps the words: the words of the lines, in order,
    are the words of the text; none is lost, repeated or moved. *)
Theorem wrap_text_keeps_words (text : str) :
  flat_map nonempty_words
    (wrap_text stringWidth text font_name font_size max_width)
  = nonempty_words text.
Proof.
  unfold wrap_text. fold step.
  assert (Hinv : forall words lines cur,
            Forall (fun w => ~ In SP w) words ->
            flat_map nonempty_words
              (fst (fold_left step words (lines, cur)))
            ++ nonempty_words (snd (fold_left step words (lines, cur)))
            = flat_map nonempty_words lines ++ nonempty_words cur
              ++ filter truthy words).
  { induction words as [|w ws IH]; intros lines cur Hw.
    - cbn. now rewrite app_nil_r.
    - inversion Hw as [|? ? Hw1 Hws]; subst. cbn [fold_left filter].
      assert (Hstep : flat_map nonempty_words (fst (step (lines, cur) w))
                      ++ nonempty_words (snd (step (lines, cur) w))
                      = flat_map nonempty_words lines ++ nonempty_words cur
                        ++ nonempty_words w).
      { unfold step, wrap_step. rewrite test_line_cases.
        destruct (truthy cur) eqn:Hc.
        - destruct (Qleb _ _); cbn [fst snd].
          + now rewrite nonempty_words_app_sep.
          + rewrite flat_map_app. cbn [flat_map].
            now rewrite app_nil_r, <- app_assoc.
        - apply truthy_false in Hc. subst cur.
          destruct (Qleb _ _); cbn [fst snd].
          + reflexivity.
          + rewrite flat_map_app. cbn [flat_map].
            rewrite app_nil_r. cbn. now rewrite app_nil_r. }
      destruct (step (lines, cur) w) as [lines' cur'].
      cbn [fst snd] in Hstep. rewrite (IH lines' cur' Hws).
      rewrite app_assoc, Hstep, (nonempty_words_word w Hw1).
      rewrite <- !app_assoc. destruct (truthy w); reflexivity. }
  specialize (Hinv (str_split SP text) [] []
                (str_split_pieces_no_sep SP text)).
  unfold step.
  set (r := fold_left _ _ _).
  change (flat_map nonempty_words (fst r) ++ nonempty_words (snd r)
          = flat_map nonempty_words [] ++ nonempty_words []
            ++ filter truthy (str_split SP text)) in Hinv.
  destruct r as [lines cur].
  change (nonempty_words []) with (@nil str) in Hinv.
  cbn [fst snd flat_map app] in Hinv.
  unfold nonempty_words at 2. rewrite <- Hinv.
  destruct (truthy cur) eqn:Hc.
  - rewrite flat_map_app. cbn [flat_map]. now rewrite app_nil_r.
  - apply truthy_false in Hc. subst cur. cbn. now rewrite app_nil_r.
Qed.

(** X9.  A text that is not empty and holds no space is never broken: it
    comes back as one line, unchanged, however wide it is. *)
Theorem wrap_text_unbroken_word (text : str) :
  text <> [] ->
  ~ In SP text ->
  wrap_text stringWidth text font_name font_size max_width = [text].
Proof.
  intros Hne Hsp. unfold wrap_text.
  rewrite (str_split_no_sep SP text Hsp). cbn [fold_left].
  unfold wrap_step. cbn [truthy app].
  destruct (Qleb _ _).
  - destruct text; [congruence|reflexivity].
  - reflexivity.
Qed.

End WrapLines.

Lemma wrap_text_no_empty_line_witness :
  Forall (fun line => line <> [])
    (wrap_text courier_width (py "two  spaces and a tail ") (py "Courier")
       24 100).
Proof.
  apply wrap_text_no_empty_line. vm_compute. discriminate.
Defined.

Lemma wrap_text_unbroken_word_witness :
  wrap_text courier_width (py "Pneumonoultramicroscopic") (py "Courier")
    24 100
  = [py "Pneumonoultramicroscopic"].
Proof.
  apply wrap_text_unbroken_word.
  - discriminate.
  - intro H. cbn in H. repeat (destruct H as [H|H]; [discriminate H|]).
    exact H.
Defined.

(** ** Centering: text that fits is centred exactly *)

Lemma Qhalf (a : Q) : a / 2 == a * (1 # 2).
Proof. unfold Qdiv. reflexivity. Qed.

Lemma centred_start (width : Q) :
  width <= get_available_width ->
  Qmin (Qmax DEFAULT_MARGIN_LEFT (fst SLIDE_16_9 / 2 - width / 2))
       (fst SLIDE_16_9 - DEFAULT_MARGIN_RIGHT - width)
  == fst SLIDE_16_9 / 2 - width / 2.
Proof.
  intro Hw.
  assert (Hmax : Qmax DEFAULT_MARGIN_LEFT (fst SLIDE_16_9 / 2 - width / 2)
                 == fst SLIDE_16_9 / 2 - width / 2).
  { apply Q.max_r. rewrite !Qhalf. page_lra. }
  rewrite Q.min_l; [exact Hmax|].
  rewrite Hmax, !Qhalf. page_lra.
Qed.

(** X10.  [Center] centres a text child exactly when its measured width is
    at most the width of the content area: the middle of the text is the
    middle of the page. *)
Theorem Center_exactly_centred
    (stringWidth : str -> str -> Q -> Q) (child : Element) (theme : Theme) :
  is_text_element child = true ->
  Center_estimate_text_width stringWidth child theme <= get_available_width ->
  Center_center_x stringWidth child theme
  + Center_estimate_text_width stringWidth child theme / 2
  == fst SLIDE_16_9 / 2.
Proof.
  intros Htext Hw. unfold Center_center_x. rewrite Htext.
  set (width := Center_estimate_text_width stringWidth child theme) in *.
  assert (Hc : DEFAULT_MARGIN_LEFT
               + (fst SLIDE_16_9 - DEFAULT_MARGIN_LEFT - DEFAULT_MARGIN_RIGHT)
                 / 2 - width / 2
               == fst SLIDE_16_9 / 2 - width / 2).
  { rewrite !Qhalf. unfold DEFAULT_MARGIN_LEFT, DEFAULT_MARGIN_RIGHT. ring. }
  rewrite Hc, (centred_start width Hw). ring.
Qed.

Lemma Center_exactly_centred_witness :
  let child := Head1 (py "Title") None in
  Center_center_x courier_width child courier_theme
  + Center_estimate_text_width courier_width child courier_theme / 2
  == fst SLIDE_16_9 / 2.
Proof.
  apply Center_exactly_centred.
  - reflexivity.
  - vm_compute. discriminate.
Defined.

Lemma fold_max_le {A} (measure : A -> Q) (items : list A) (bound : Q) :
  Forall (fun item => measure item <= bound) items ->
  forall init, init <= bound ->
  fold_left (fun m item => Qmax m (measure item)) items init <= bound.
Proof.
  induction 1 as [|w ws Hw _ IH]; intros init Hi; cbn [fold_left].
  - exact Hi.
  - apply IH. now apply Q.max_lub.
Qed.

Lemma longest_line_width_le (stringWidth : str -> str -> Q -> Q)
    (text font_name : str) (font_size : Q) :
  (forall w, In w (str_split SP text) ->
     stringWidth w font_name font_size <= get_available_width) ->
  longest_line_width stringWidth text font_name font_size
  <= get_available_width.
Proof.
  intro Hwords. unfold longest_line_width.
  pose proof (wrap_text_lines_fit stringWidth font_name font_size
                get_available_width text Hwords) as Hfit.
  apply (fold_max_le (fun line => stringWidth line font_name font_size)).
  - exact Hfit.
  - page_lra.
Qed.

Lemma TitleSlide_width_is_longest_line (stringWidth : str -> str -> Q -> Q)
    (child : Element) (theme : Theme) (text font_name : str) (font_size : Q) :
  text_font child theme = Some (text, font_name, font_size) ->
  is_text_element child = true
  /\ TitleSlide_estimate_text_width stringWidth child theme
     = longest_line_width stringWidth text font_name font_size.
Proof.
  destruct child; cbn; try discriminate;
    intro H; injection H as <- <- <-; auto.
Qed.

(** X11.  [TitleSlide] keeps a text child inside the margins and centres
    it exactly when no single word of the text is wider than the content
    area: the longest wrapped line then starts at or after the left
    margin, ends at or before the right margin, and has its middle at the
    middle of the page. *)
Theorem TitleSlide_within_margins
    (stringWidth : str -> str -> Q -> Q) (child : Element) (theme : Theme)
    (text font_name : str) (font_size : Q) :
  text_font child theme = Some (text, font_name, font_size) ->
  (forall w, In w (str_split SP text) ->
     stringWidth w font_name font_size <= get_available_width) ->
  let width := TitleSlide_estimate_text_width stringWidth child theme in
  let start := TitleSlide_center_x stringWidth child theme in
  DEFAULT_MARGIN_LEFT <= start
  /\ start + width <= fst SLIDE_16_9 - DEFAULT_MARGIN_RIGHT
  /\ start + width / 2 == fst SLIDE_16_9 / 2.
Proof.
  intros Hfont Hwords width start.
  destruct (TitleSlide_width_is_longest_line stringWidth child theme
              text font_name font_size Hfont) as [Htext Hwidth].
  assert (Hw : width <= get_available_width).
  { unfold width. rewrite Hwidth. now apply longest_line_width_le. }
  assert (Hs : start == fst SLIDE_16_9 / 2 - width / 2).
  { unfold start, TitleSlide_center_x. rewrite Htext. fold width.
    now apply centred_start. }
  rewrite Hs. split; [|split].
  - rewrite !Qhalf. page_lra.
  - rewrite !Qhalf. page_lra.
  - ring.
Qed.

Lemma TitleSlide_within_margins_witness :
  let child := Head1 (py "A title of several words that wraps") None in
  let width := TitleSlide_estimate_text_width courier_width child
                 courier_theme in
  let start := TitleSlide_center_x courier_width child courier_theme in
  DEFAULT_MARGIN_LEFT <= start
  /\ start + width <= fst SLIDE_16_9 - DEFAULT_MARGIN_RIGHT
  /\ start + width / 2 == fst SLIDE_16_9 / 2.
Proof.
  apply (TitleSlide_within_margins courier_width
           (Head1 (py "A title of several words that wraps") None)
           courier_theme _ _ _ eq_refl).
  intros w Hw. cbn in Hw.
  repeat (destruct Hw as [<-|Hw]; [vm_compute; discriminate|]).
  destruct Hw.
Defined.

(** ** Heights are not negative *)

Section LoopHeights.

Variable render_element : Element -> Q -> Q -> Theme -> M Q.

Lemma CombinedElement_loop_nonneg (theme : Theme) (elements : list Element) :
  Forall (fun e => forall x y cv h cv',
            render_element e x y theme cv = Ok (h, cv') -> 0 <= h) elements ->
  forall x cy total cv h cv',
    0 <= total ->
    CombinedElement_loop render_element elements x cy total theme cv
    = Ok (h, cv') ->
    0 <= h.
Proof.
  induction 1 as [|e es He _ IH]; intros x cy total cv h cv' Ht Hrun;
    cbn [CombinedElement_loop] in Hrun.
  - unfold ret in Hrun. injection Hrun as <- _. exact Ht.
  - unfold bind in Hrun.
    destruct (render_element e x cy theme cv) as [[a c]| |] eqn:E;
      try discriminate.
    pose proof (He _ _ _ _ _ E) as Ha.
    assert (Hsum : 0 <= total + a) by lra.
    exact (IH _ _ _ _ _ _ Hsum Hrun).
Qed.

Lemma GridLayout_loop_ge_init (theme : Theme) (columns : Z)
    (elements : list Element) :
  forall i cw y m cv h cv',
    GridLayout_loop render_element elements i columns cw y m theme cv
    = Ok (h, cv') ->
    m <= h.
Proof.
  induction elements as [|e es IH]; intros i cw y m cv h cv' Hrun;
    cbn [GridLayout_loop] in Hrun.
  - unfold ret in Hrun. injection Hrun as <- _. apply Qle_refl.
  - destruct (i >=? columns)%Z.
    + unfold ret in Hrun. injection Hrun as <- _. apply Qle_refl.
    + unfold bind in Hrun.
      destruct (render_element e _ y theme cv) as [[a c]| |] eqn:E;
        try discriminate.
      eapply Qle_trans; [apply (Qmax_ge_l m a)|].
      exact (IH _ _ _ _ _ _ _ Hrun).
Qed.

End LoopHeights.

Lemma scaled_height_nonneg (w h : Z) :
  (0 <= w)%Z -> (0 <= h)%Z ->
  ((w =? 0) || (h =? 0))%Z = false ->
  0 <= inject_Z h * Qmin (Qmin (400 / inject_Z w) (300 / inject_Z h)) 1.
Proof.
  intros Hw Hh Hz. apply orb_false_iff in Hz. destruct Hz as [Hw0 Hh0].
  assert (Hwq : 0 < inject_Z w).
  { change 0 with (inject_Z 0). rewrite <- Zlt_Qlt. lia. }
  assert (Hhq : 0 < inject_Z h).
  { change 0 with (inject_Z 0). rewrite <- Zlt_Qlt. lia. }
  apply Qmult_le_0_compat; [now apply Qlt_le_weak|].
  apply Q.min_glb; [apply Q.min_glb|discriminate].
  - apply Qlt_le_weak. apply Qlt_shift_div_l; [exact Hwq|]. lra.
  - apply Qlt_le_weak. apply Qlt_shift_div_l; [exact Hhq|]. lra.
Qed.

Section Heights.

Variable stringWidth : str -> str -> Q -> Q.
Variable path_exists : str -> bool.
Variable ImageReader : str -> str + (Z * Z).
Variable get_lexer_by_name : str -> bool.
Variable fuel : nat.

Let rend := render stringWidth path_exists ImageReader get_lexer_by_name fuel.

(** X12.  Every element renders with a height that is not negative, for
    a theme without negative font sizes and images without negative
    sizes; a background image always takes 0. *)
Theorem render_height_nonneg (theme : Theme) (element : Element)
    (x y : Q) (cv : Canvas) (height : Q) (cv' : Canvas) :
  sizes_nonneg theme ->
  sizes_of_images_nonneg ImageReader ->
  rend element x y theme cv = Ok (height, cv') ->
  0 <= height
  /\ (forall path, element = BackgroundImage path -> height = 0).
Proof.
  intros [Hf Hh] Himg Hrun. split.
  - revert x y cv height cv' Hrun.
    induction element
      as [t c|t c|t c|t c|t c|c l b|p c|e IH|e IH|e IH|es n IH|p|es IH]
      using Element_nested_ind;
      intros x y cv h cv' Hrun;
      unfold rend in Hrun; cbn [render] in Hrun; fold rend in Hrun.
    1-5: unfold Head1_render, Head2_render, Head3_render, BodyText_render,
           Bold_render in Hrun;
         match type of Hrun with
         | render_text ?sw ?f ?s ?col ?g ?tr ?txt _ _ _ = _ =>
             destruct (render_text_height sw f s col g tr txt x y cv)
               as [c1 E1]
         end;
         rewrite E1 in Hrun; injection Hrun as <- _;
         unfold text_height; apply text_height_nonneg; try lra; lia.
    + apply Code_render_height in Hrun. rewrite Hrun.
      assert (H0 : 0 <= inject_Z (Z.of_nat (List.length
                      (Code_render_lines get_lexer_by_name c l)))
                    * (get (theme_font_size theme) 24 * (8 # 10) + 2) + 10).
      { apply text_height_nonneg; try lra. lia. }
      lra.
    + unfold Img_render, Img_render_error in Hrun.
      destruct (path_exists p).
      * destruct (ImageReader p) as [message|[w hh]] eqn:Eimg.
        { unfold bind, draw, ret in Hrun. injection Hrun as <- _. lra. }
        destruct ((w =? 0)%Z || (hh =? 0)%Z) eqn:Ez.
        { unfold bind, draw, ret in Hrun. injection Hrun as <- _. lra. }
        destruct (Himg p w hh Eimg) as [Hw0 Hh0].
        pose proof (scaled_height_nonneg w hh Hw0 Hh0 Ez) as Hs.
        destruct (truthy c); unfold bind, draw, ret in Hrun;
          injection Hrun as <- _; lra.
      * destruct (truthy c); unfold bind, draw, ret in Hrun;
          injection Hrun as <- _; lra.
    + exact (IH _ _ _ _ _ Hrun).
    + exact (IH _ _ _ _ _ Hrun).
    + exact (IH _ _ _ _ _ Hrun).
    + destruct (n =? 0)%Z; [discriminate Hrun|].
      exact (GridLayout_loop_ge_init rend theme n es _ _ _ _ _ _ _ Hrun).
    + unfold BackgroundImage_render in Hrun.
      destruct (path_exists p); [destruct (ImageReader p)|];
        unfold bind, draw, ret in Hrun; injection Hrun as <- _; lra.
    + apply (CombinedElement_loop_nonneg rend theme es IH
               _ _ _ _ _ _ (Qle_refl 0) Hrun).
  - intros path ->. unfold rend in Hrun. cbn [render] in Hrun.
    unfold BackgroundImage_render in Hrun.
    destruct (path_exists path); [destruct (ImageReader path)|];
      unfold bind, draw, ret in Hrun; injection Hrun as <- _; reflexivity.
Qed.

(** X13.  The height that an element returns depends neither on the
    position nor on the canvas where it is rendered. *)
Theorem render_height_position_free (theme : Theme) (element : Element)
    (x y : Q) (cv : Canvas) (height : Q) (cv1 : Canvas)
    (x' y' : Q) (cv' : Canvas) (height' : Q) (cv1' : Canvas) :
  rend element x y theme cv = Ok (height, cv1) ->
  rend element x' y' theme cv' = Ok (height', cv1') ->
  height = height'.
Proof.
  apply (render_height_fixed stringWidth path_exists ImageReader
           get_lexer_by_name fuel theme element).
Qed.

End Heights.

Lemma render_height_nonneg_witness :
  exists height cv',
    render courier_width every_file image_640_480 every_lexer 0
      (CombinedElement [Img (py "photo.png") (py "caption");
                        BackgroundImage (py "bg.png")])
      50 300 default_theme [] = Ok (height, cv')
    /\ 0 <= height.
Proof.
  destruct (render courier_width every_file image_640_480 every_lexer 0
              (CombinedElement [Img (py "photo.png") (py "caption");
                                BackgroundImage (py "bg.png")])
              50 300 default_theme []) as [[height cv']| |] eqn:E;
    try (vm_compute in E; discriminate E).
  exists height, cv'. split; [reflexivity|].
  refine (proj1 (render_height_nonneg courier_width every_file image_640_480
                   every_lexer 0 default_theme _ 50 300 [] height cv'
                   _ _ E)).
  - split; vm_compute; discriminate.
  - intros path w h H. injection H as <- <-. lia.
Defined.

Lemma render_height_position_free_witness :
  exists h1 c1 h2 c2,
    render courier_width no_file broken_image every_lexer 0
      (BodyText (py "text") None) 50 300 default_theme [] = Ok (h1, c1)
    /\ render courier_width no_file broken_image every_lexer 0
         (BodyText (py "text") None) 100 20 default_theme
         [SetFillColor (py "#FFFFFF")] = Ok (h2, c2)
    /\ h1 = h2.
Proof.
  destruct (render courier_width no_file broken_image every_lexer 0
              (BodyText (py "text") None) 50 300 default_theme [])
    as [[h1 c1]| |] eqn:E1; try (vm_compute in E1; discriminate E1).
  destruct (render courier_width no_file broken_image every_lexer 0
              (BodyText (py "text") None) 100 20 default_theme
              [SetFillColor (py "#FFFFFF")])
    as [[h2 c2]| |] eqn:E2; try (vm_compute in E2; discriminate E2).
  exists h1, c1, h2, c2. repeat split.
  exact (render_height_position_free courier_width no_file broken_image
           every_lexer 0 default_theme _ _ _ _ _ _ _ _ _ _ _ E1 E2).
Defined.

(** X14.  The estimated height of an element is never negative, for a
    theme without negative font sizes. *)
Theorem estimated_height_nonneg (theme : Theme) (element : Element) :
  sizes_nonneg theme ->
  0 <= _estimate_element_height element theme.
Proof.
  intro Hth. now apply estimate_nonneg.
Qed.

Lemma estimated_height_nonneg_witness :
  0 <= _estimate_element_height
         (GridLayout [Code (py "x = 1") None (py "#F5F5F5");
                      Head2 (py "Title") None] 2) default_theme.
Proof.
  apply estimated_height_nonneg. split; vm_compute; discriminate.
Defined.

(** ** The canvas only grows *)

Lemma appends_only_ret {A} (a : A) : appends_only (ret a).
Proof.
  intros cv b cv' H. unfold ret in H. injection H as _ <-.
  exists []. now rewrite app_nil_r.
Qed.

Lemma appends_only_draw (op : DrawOp) : appends_only (draw op).
Proof.
  intros cv b cv' H. unfold draw in H. injection H as _ <-. now exists [op].
Qed.

Lemma appends_only_bind {A B} (m : M A) (k : A -> M B) :
  appends_only m -> (forall a, appends_only (k a)) -> appends_only (bind m k).
Proof.
  intros Hm Hk cv b cv' H. unfold bind in H.
  destruct (m cv) as [[a c]| |] eqn:E; try discriminate.
  destruct (Hm _ _ _ E) as [ops1 ->].
  destruct (Hk a _ _ _ H) as [ops2 ->].
  exists (ops1 ++ ops2). now rewrite app_assoc.
Qed.

Lemma appends_only_fail {A} (m : M A) :
  (forall cv a cv', m cv <> Ok (a, cv')) -> appends_only m.
Proof. intros H cv a cv' E. exfalso. exact (H _ _ _ E). Qed.

Ltac appends_only_step :=
  first
    [ apply appends_only_ret
    | apply appends_only_draw
    | apply appends_only_bind; [|intro]
    | apply appends_only_fail; intros ? ? ?; discriminate ].

Section AppendsOnly.

Variable stringWidth : str -> str -> Q -> Q.
Variable path_exists : str -> bool.
Variable ImageReader : str -> str + (Z * Z).
Variable get_lexer_by_name : str -> bool.
Variable fuel : nat.

Let rend := render stringWidth path_exists ImageReader get_lexer_by_name fuel.

Lemma draw_lines_appends (lines : list str) (x step : Q) :
  forall cy, appends_only (draw_lines lines x cy step).
Proof.
  induction lines as [|l ls IH]; intro cy; cbn [draw_lines];
    repeat appends_only_step. apply IH.
Qed.

Lemma render_text_appends (font_name : str) (font_size : Q) (color : str)
    (gap trailing : Q) (text : str) (x y : Q) :
  appends_only
    (render_text stringWidth font_name font_size color gap trailing text x y).
Proof.
  unfold render_text. repeat appends_only_step. apply draw_lines_appends.
Qed.

Lemma draw_code_segments_appends (segments : list str) (x line_height : Q)
    (font_name : str) (font_size : Q) :
  forall cy,
    appends_only
      (draw_code_segments segments x cy line_height font_name font_size).
Proof.
  induction segments as [|s ss IH]; intro cy; cbn [draw_code_segments];
    repeat appends_only_step. apply IH.
Qed.

Lemma draw_code_lines_appends (code_lines : list str)
    (x line_height max_width : Q) (font_name : str) (font_size : Q) :
  forall cy,
    appends_only
      (draw_code_lines stringWidth fuel code_lines x cy line_height
         max_width font_name font_size).
Proof.
  induction code_lines as [|l ls IH]; intro cy; cbn [draw_code_lines].
  - appends_only_step.
  - destruct (Qleb _ _).
    + repeat appends_only_step. apply IH.
    + destruct (_wrap_code_line _ _ _ _ _ _).
      * appends_only_step; [apply draw_code_segments_appends|apply IH].
      * unfold out_of_fuel. appends_only_step.
Qed.

Lemma CombinedElement_loop_appends (theme : Theme) (elements : list Element) :
  Forall (fun e => forall x y, appends_only (rend e x y theme)) elements ->
  forall x cy total,
    appends_only (CombinedElement_loop rend elements x cy total theme).
Proof.
  induction 1 as [|e es He _ IH]; intros x cy total;
    cbn [CombinedElement_loop]; repeat appends_only_step.
  - apply He.
  - apply IH.
Qed.

Lemma GridLayout_loop_appends (theme : Theme) (columns : Z)
    (elements : list Element) :
  Forall (fun e => forall x y, appends_only (rend e x y theme)) elements ->
  forall i cw y m,
    appends_only (GridLayout_loop rend elements i columns cw y m theme).
Proof.
  induction 1 as [|e es He _ IH]; intros i cw y m;
    cbn [GridLayout_loop]; [appends_only_step|].
  destruct (i >=? columns)%Z; repeat appends_only_step.
  - apply He.
  - apply IH.
Qed.

Lemma render_appends (theme : Theme) (element : Element) :
  forall x y, appends_only (rend element x y theme).
Proof.
  induction element
    as [t c|t c|t c|t c|t c|c l b|p c|e IH|e IH|e IH|es n IH|p|es IH]
    using Element_nested_ind; intros x y;
    unfold rend; cbn [render]; fold rend.
  1-5: apply render_text_appends.
  - unfold Code_render. repeat appends_only_step.
    apply draw_code_lines_appends.
  - unfold Img_render, Img_render_error.
    destruct (path_exists p);
      [destruct (ImageReader p) as [m|[w h]];
       [|destruct ((w =? 0)%Z || (h =? 0)%Z)]|];
      try destruct (truthy c); repeat appends_only_step.
  - apply IH.
  - apply IH.
  - apply IH.
  - destruct (n =? 0)%Z.
    + unfold raise. appends_only_step.
    + now apply GridLayout_loop_appends.
  - unfold BackgroundImage_render.
    destruct (path_exists p); [destruct (ImageReader p)|];
      repeat appends_only_step.
  - now apply CombinedElement_loop_appends.
Qed.

End AppendsOnly.

(** ** Rendering a slide and generating the document *)

Lemma pagination_at_least_one (self : Slide) (theme : Theme) :
  (1 <= List.length (render_with_overflow_detection self theme))%nat.
Proof.
  unfold render_with_overflow_detection.
  match goal with
  | |- context [if negb (truthy ?l) then _ else _] =>
      destruct l as [|s l']; cbn; lia
  end.
Qed.

Lemma pagination_flatten (self : Slide) (theme : Theme) :
  flatten (render_with_overflow_detection self theme) = slide_elements self.
Proof.
  destruct (slide_elements self) as [|e es] eqn:E.
  - destruct self as [es']. cbn in E. subst es'. reflexivity.
  - rewrite render_with_overflow_detection_flush by (rewrite E; discriminate).
    destruct (overflow_fold_flush theme (slide_elements self)
                (mkPageState [] [] top_y)) as [extra [Hf Hx]].
    rewrite Hf. cbn [slides app current_slide_elements] in *.
    now rewrite Hx, E.
Qed.

Lemma in_flatten (physical : list Slide) (e : Element) :
  In e (flatten physical) ->
  exists s, In s physical /\ In e (slide_elements s).
Proof.
  unfold flatten. intro H. apply in_concat in H.
  destruct H as [l [Hl He]]. apply in_map_iff in Hl.
  destruct Hl as [s [<- Hs]]. now exists s.
Qed.

Section SlideLoop.

Variable render_element : Element -> Q -> Q -> Theme -> M Q.

Lemma Slide_render_loop_stacked (theme : Theme) (y0 : Q)
    (elements : list Element) :
  forall cy offset cv cv',
    Slide_render_loop render_element elements cy theme cv = Ok (tt, cv') ->
    cy == y0 - offset ->
    exists heights,
      stacked_with_gap render_element theme y0 offset elements cv heights cv'.
Proof.
  induction elements as [|e es IH]; intros cy offset cv cv' Hrun Hy;
    cbn [Slide_render_loop] in Hrun.
  - unfold ret in Hrun. injection Hrun as <-. exists []. constructor.
  - unfold bind in Hrun.
    destruct (render_element e DEFAULT_MARGIN_LEFT cy theme cv)
      as [[h c1]| |] eqn:E; try discriminate.
    destruct (IH (cy - (h + 10)) (offset + (h + 10)) c1 cv' Hrun)
      as [hs Hst].
    { rewrite Hy. ring. }
    exists (h :: hs). econstructor; eassumption.
Qed.

Lemma Slide_render_loop_returns (theme : Theme) (elements : list Element) :
  all_return render_element theme elements ->
  forall cy cv,
    exists cv',
      Slide_render_loop render_element elements cy theme cv = Ok (tt, cv').
Proof.
  induction elements as [|e es IH]; intros Hall cy cv;
    cbn [Slide_render_loop].
  - eexists; reflexivity.
  - unfold bind.
    destruct (Hall e (or_introl eq_refl) DEFAULT_MARGIN_LEFT cy cv)
      as [h [c1 He]].
    rewrite He. apply IH. intros c Hc. apply Hall. now right.
Qed.

(** A slide is rendered only if each of its elements is. *)
Lemma Slide_render_loop_each (theme : Theme) (elements : list Element) :
  forall cy cv u cv',
    Slide_render_loop render_element elements cy theme cv = Ok (u, cv') ->
    forall e, In e elements ->
    exists x y c0 h c1, render_element e x y theme c0 = Ok (h, c1).
Proof.
  induction elements as [|e es IH]; intros cy cv u cv' Hrun e' Hin;
    [destruct Hin|].
  cbn [Slide_render_loop] in Hrun. unfold bind in Hrun.
  destruct (render_element e DEFAULT_MARGIN_LEFT cy theme cv)
    as [[h c1]| |] eqn:E; try discriminate.
  destruct Hin as [<-|Hin].
  - now exists DEFAULT_MARGIN_LEFT, cy, cv, h, c1.
  - exact (IH _ _ _ _ Hrun e' Hin).
Qed.

Lemma Slide_render_loop_appends (theme : Theme) (elements : list Element) :
  (forall e x y, appends_only (render_element e x y theme)) ->
  forall cy, appends_only (Slide_render_loop render_element elements cy theme).
Proof.
  intro Hr. induction elements as [|e es IH]; intro cy;
    cbn [Slide_render_loop]; repeat appends_only_step.
  - apply Hr.
  - apply IH.
Qed.

End SlideLoop.

Lemma Forall2_Forall_r {A B : Type} (P : A -> B -> Prop) (R : B -> Prop)
    (l : list A) (l' : list B) :
  Forall2 P l l' -> (forall a b, P a b -> R b) -> Forall R l'.
Proof.
  intros H HR. induction H; constructor; eauto.
Qed.

Lemma Forall2_In_l {A B : Type} (P : A -> B -> Prop)
    (l : list A) (l' : list B) :
  Forall2 P l l' -> forall a, In a l -> exists b, P a b.
Proof.
  induction 1 as [|a b l l' Hab _ IH]; intros a' Hin; [destruct Hin|].
  destruct Hin as [<-|Hin]; [now exists b|now apply IH].
Qed.

Section DocumentFacts.

Variable stringWidth : str -> str -> Q -> Q.
Variable path_exists : str -> bool.
Variable ImageReader : str -> str + (Z * Z).
Variable get_lexer_by_name : str -> bool.
Variable fuel : nat.

Let rend := render stringWidth path_exists ImageReader get_lexer_by_name fuel.
Let slide_render :=
  Slide_render stringWidth path_exists ImageReader get_lexer_by_name fuel.
Let page_of :=
  render_slide stringWidth path_exists ImageReader get_lexer_by_name fuel.
Let document :=
  generate stringWidth path_exists ImageReader get_lexer_by_name fuel.

(** X15.  Whenever [Slide.render] returns, the elements of the slide have
    been rendered in order at the left margin, the first at the top of
    the content area and each next one lower by the height of the one
    before it plus a gap of 10; it returns whenever its elements do. *)
Theorem Slide_render_stacks (self : Slide) (theme : Theme) (cv : Canvas) :
  (forall cv',
     slide_render self theme cv = Ok (tt, cv') ->
     exists heights,
       stacked_with_gap rend theme top_y 0 (slide_elements self) cv
         heights cv')
  /\ (all_return rend theme (slide_elements self) ->
      exists cv', slide_render self theme cv = Ok (tt, cv')).
Proof.
  unfold slide_render, Slide_render. fold rend. fold top_y. split.
  - intros cv' Hrun.
    apply (Slide_render_loop_stacked rend theme top_y _ _ 0 _ _ Hrun).
    ring.
  - intro Hall. now apply Slide_render_loop_returns.
Qed.

Lemma render_slide_background (s : Slide) (theme : Theme) (page : Canvas) :
  page_of s theme = Ok page ->
  exists rest, page = page_background theme ++ rest.
Proof.
  unfold page_of, render_slide, Slide_render. fold rend.
  unfold bind at 1 2, draw at 1 2. cbn [app].
  match goal with
  | |- context [Slide_render_loop rend ?es ?cy theme ?c0] =>
      destruct (Slide_render_loop rend es cy theme c0) as [[u c1]| |] eqn:E;
        try discriminate
  end.
  intro H. injection H as <-.
  destruct (Slide_render_loop_appends rend theme _
              (fun e x y => render_appends stringWidth path_exists ImageReader
                              get_lexer_by_name fuel theme e x y)
              _ _ _ _ E) as [ops ->].
  now exists ops.
Qed.

Lemma render_overflow_slides_pages (theme : Theme) (physical : list Slide) :
  forall total pages total' pages',
    render_overflow_slides stringWidth path_exists ImageReader
      get_lexer_by_name fuel physical theme total pages = Ok (total', pages') ->
    total' = (total + List.length physical)%nat
    /\ exists new,
         pages' = pages ++ new
         /\ List.length new = List.length physical
         /\ Forall2 (fun s page => page_of s theme = Ok page) physical new.
Proof.
  induction physical as [|s ss IH]; intros total pages total' pages' H;
    cbn [render_overflow_slides] in H.
  - injection H as <- <-. split; [cbn; lia|].
    exists []. rewrite app_nil_r. repeat split. constructor.
  - fold page_of in H.
    destruct (page_of s theme) as [page| |] eqn:E; try discriminate.
    destruct (IH _ _ _ _ H) as [Ht [new [Hp [Hl Hall]]]].
    split; [cbn [List.length]; lia|].
    exists (page :: new). rewrite Hp, <- app_assoc. repeat split.
    + cbn. now rewrite Hl.
    + constructor; assumption.
Qed.

Lemma count_pages_cons (slide : Slide) (rest : list Slide) (theme : Theme) :
  count_pages (slide :: rest) theme
  = (List.length (render_with_overflow_detection slide theme)
     + count_pages rest theme)%nat.
Proof. reflexivity. Qed.

Lemma generate_loop_pages (theme : Theme) (slides : list Slide) :
  forall total pages total' pages',
    generate_loop stringWidth path_exists ImageReader get_lexer_by_name fuel
      slides theme total pages = Ok (total', pages') ->
    total' = (total + count_pages slides theme)%nat
    /\ exists new,
         pages' = pages ++ new
         /\ List.length new = count_pages slides theme
         /\ Forall (fun page => exists rest,
                      page = page_background theme ++ rest) new
         /\ forall slide s, In slide slides ->
              In s (render_with_overflow_detection slide theme) ->
              exists page, page_of s theme = Ok page.
Proof.
  induction slides as [|slide rest IH]; intros total pages total' pages' H;
    cbn [generate_loop] in H.
  - injection H as <- <-. split; [cbn; lia|].
    exists []. rewrite app_nil_r. repeat split; [constructor|].
    intros slide s [].
  - destruct (render_overflow_slides _ _ _ _ _ _ theme total pages)
      as [[t p]| |] eqn:E; try discriminate.
    destruct (render_overflow_slides_pages theme _ _ _ _ _ E)
      as [Ht [new1 [Hp1 [Hl1 Hall1]]]].
    destruct (IH _ _ _ _ H) as [Ht' [new2 [Hp2 [Hl2 [Hbg2 Hok2]]]]].
    rewrite count_pages_cons.
    split; [lia|].
    exists (new1 ++ new2).
    split; [rewrite Hp2, Hp1; now rewrite app_assoc|].
    split; [rewrite length_app; lia|].
    split.
    + apply Forall_app. split; [|exact Hbg2].
      apply (Forall2_Forall_r _ _ _ _ Hall1).
      intros s page Hs. exact (render_slide_background s theme page Hs).
    + intros slide' s [<-|Hin] Hs.
      * exact (Forall2_In_l _ _ _ Hall1 s Hs).
      * exact (Hok2 slide' s Hin Hs).
Qed.

Lemma count_pages_ge (slides : list Slide) (theme : Theme) :
  (List.length slides <= count_pages slides theme)%nat.
Proof.
  induction slides as [|s ss IH]; [cbn; lia|].
  rewrite count_pages_cons. cbn [List.length].
  pose proof (pagination_at_least_one s theme). lia.
Qed.

(** X17.  Whenever [generate] returns, the count it reports is the number
    of pages of the document, which is the number of physical slides of
    all the slides together and at least the number of slides; and every
    page begins with the background colour and the rectangle that fills
    the page. *)
Theorem generate_pages (slides : list Slide) (theme : Theme)
    (total : nat) (pages : list Canvas) :
  document slides theme = Ok (total, pages) ->
  total = List.length pages
  /\ total = count_pages slides theme
  /\ (List.length slides <= total)%nat
  /\ Forall (fun page => exists rest, page = page_background theme ++ rest)
       pages.
Proof.
  intro H. unfold document, generate in H.
  destruct (generate_loop_pages theme slides _ _ _ _ H)
    as [Ht [new [Hp [Hl [Hbg _]]]]].
  cbn [app] in Hp. subst pages. cbn [Nat.add] in Ht.
  split; [congruence|]. split; [exact Ht|]. split; [|exact Hbg].
  rewrite Ht. apply count_pages_ge.
Qed.

(** X18.  A failure is not contained: when an element at the top of any
    slide cannot be rendered, [generate] does not return, and no document
    is written. *)
Theorem generate_fails_with_element (slides : list Slide) (theme : Theme)
    (slide : Slide) (element : Element) :
  In slide slides ->
  In element (slide_elements slide) ->
  (forall x y cv h cv', rend element x y theme cv <> Ok (h, cv')) ->
  forall result, document slides theme <> Ok result.
Proof.
  intros Hslide Helem Hfail [total pages] H.
  unfold document, generate in H.
  destruct (generate_loop_pages theme slides _ _ _ _ H)
    as [_ [new [_ [_ [_ Hok]]]]].
  rewrite <- (pagination_flatten slide theme) in Helem.
  destruct (in_flatten _ _ Helem) as [s [Hs He]].
  destruct (Hok slide s Hslide Hs) as [page Hpage].
  unfold page_of, render_slide, Slide_render in Hpage. fold rend in Hpage.
  unfold bind at 1 2, draw at 1 2 in Hpage.
  match type of Hpage with
  | context [Slide_render_loop rend ?es ?cy theme ?c0] =>
      destruct (Slide_render_loop rend es cy theme c0) as [[u c1]| |] eqn:E;
        try discriminate
  end.
  destruct (Slide_render_loop_each rend theme _ _ _ _ _ E element He)
    as [x [y [c0' [h [c1' Hr]]]]].
  exact (Hfail _ _ _ _ _ Hr).
Qed.

End DocumentFacts.

Lemma generate_pages_witness :
  let slides :=
    [mkSlide [Head1 (py "Title") None];
     mkSlide [Img (py "a.png") []; Img (py "b.png") (py "Figure")]] in
  exists total pages,
    generate courier_width no_file broken_image every_lexer 10 slides
      default_theme
    = Ok (total, pages)
    /\ total = List.length pages
    /\ total = count_pages slides default_theme
    /\ (List.length slides <= total)%nat
    /\ Forall (fun page => exists rest,
                 page = page_background default_theme ++ rest) pages.
Proof.
  intro slides.
  destruct (generate courier_width no_file broken_image every_lexer 10
              slides default_theme) as [[total pages]| |] eqn:E;
    [|vm_compute in E; discriminate E..].
  exists total, pages. split; [reflexivity|].
  exact (generate_pages courier_width no_file broken_image every_lexer 10
           slides default_theme total pages E).
Defined.

Lemma generate_fails_with_element_witness :
  let grid := GridLayout [BodyText (py "left") None] 0 in
  let title := mkSlide [Head1 (py "Title") None] in
  let broken := mkSlide [BodyText (py "before") None; grid] in
  (In broken [title; broken] /\ In grid (slide_elements broken))
  /\ forall result,
       generate courier_width no_file broken_image every_lexer 10
         [title; broken] default_theme
       <> Ok result.
Proof.
  intros grid title broken.
  assert (Hs : In broken [title; broken]) by (right; left; reflexivity).
  assert (He : In grid (slide_elements broken))
    by (right; left; reflexivity).
  split; [split; assumption|].
  apply (generate_fails_with_element courier_width no_file broken_image
           every_lexer 10 [title; broken] default_theme broken grid Hs He).
  intros x y cv h cv' H. discriminate H.
Defined.

(** ** Code blocks: what is drawn and what is wrapped *)

Lemma str_split_all_blank (s : str) :
  forallb is_space s = true -> forallb blank (str_split NL s) = true.
Proof.
  induction s as [|c s IH]; intro H; [reflexivity|].
  cbn [forallb] in H. apply andb_true_iff in H. destruct H as [Hc Hs].
  specialize (IH Hs).
  destruct (Ascii.eqb c NL) eqn:Hnl.
  - cbn [str_split]. rewrite Hnl. cbn [forallb]. now rewrite IH.
  - destruct (str_split_cons_other NL c s Hnl) as [l [ls [Hsl Hcs]]].
    rewrite Hcs. rewrite Hsl in IH. cbn [forallb] in *.
    apply andb_true_iff in IH. destruct IH as [Hl Hls].
    now rewrite blank_cons, Hc, Hl, Hls.
Qed.

Lemma all_space_forallb (s : str) :
  (forall c, In c s -> is_space c = true) -> forallb is_space s = true.
Proof. intro H. now apply forallb_forall. Qed.

Lemma leading_whitespace_prefix (line : str) :
  line
  = leading_whitespace line
    ++ skipn (List.length (leading_whitespace line)) line.
Proof.
  induction line as [|c line IH]; [reflexivity|].
  cbn [leading_whitespace].
  destruct (Ascii.eqb c SP || Ascii.eqb c TAB); [|reflexivity].
  cbn [List.length skipn app]. now rewrite <- IH.
Qed.

Section WrapCodeSegments.

Variable stringWidth : str -> str -> Q -> Q.
Variables (font_name : str) (font_size max_width : Q).

Lemma fit_chars_prefix (content : str) :
  forall current_line k,
    exists fitted,
      fst (fit_chars stringWidth font_name font_size max_width
             current_line content k)
      = current_line ++ fitted.
Proof.
  induction content as [|c rest IH]; intros cur k; cbn [fit_chars].
  - exists []. now rewrite app_nil_r.
  - destruct (Qleb _ _).
    + destruct (IH (cur ++ [c]) (S k)) as [t Ht]. exists (c :: t).
      rewrite Ht, <- app_assoc. reflexivity.
    + exists []. now rewrite app_nil_r.
Qed.

(** Every prefix of the content fits: the loop runs to its [else]. *)
Lemma fit_chars_all (content : str) :
  forall current_line k,
    (forall n, (1 <= n <= List.length content)%nat ->
       stringWidth (current_line ++ firstn n content) font_name font_size
       <= max_width) ->
    fit_chars stringWidth font_name font_size max_width
      current_line content k
    = (current_line ++ content, None).
Proof.
  induction content as [|c rest IH]; intros cur k Hfit; cbn [fit_chars].
  - now rewrite app_nil_r.
  - assert (H1 : Qleb (stringWidth (cur ++ [c]) font_name font_size)
                   max_width = true).
    { apply Qleb_true. apply (Hfit 1%nat). cbn [List.length]. lia. }
    rewrite H1. rewrite (IH (cur ++ [c]) (S k)).
    + now rewrite <- app_assoc.
    + intros n Hn. rewrite <- app_assoc. apply (Hfit (S n)).
      cbn [List.length]. lia.
Qed.

(** Every prefix of [fitted] fits and one character more does not: the
    loop breaks at that character. *)
Lemma fit_chars_break (fitted : str) (c : ascii) (rest : str) :
  forall current_line k,
    (forall n, (1 <= n <= List.length fitted)%nat ->
       stringWidth (current_line ++ firstn n fitted) font_name font_size
       <= max_width) ->
    max_width
    < stringWidth ((current_line ++ fitted) ++ [c]) font_name font_size ->
    fit_chars stringWidth font_name font_size max_width
      current_line (fitted ++ c :: rest) k
    = (current_line ++ fitted, Some (k + List.length fitted)%nat).
Proof.
  induction fitted as [|d fitted IH]; intros cur k Hfit Hover;
    cbn [fit_chars app].
  - rewrite app_nil_r in *. apply Qleb_false in Hover. rewrite Hover.
    cbn [List.length]. now rewrite Nat.add_0_r.
  - assert (H1 : Qleb (stringWidth (cur ++ [d]) font_name font_size)
                   max_width = true).
    { apply Qleb_true. apply (Hfit 1%nat). cbn [List.length]. lia. }
    rewrite H1. rewrite (IH (cur ++ [d]) (S k)).
    + rewrite <- app_assoc. cbn [List.length app]. f_equal. f_equal. lia.
    + intros n Hn. rewrite <- app_assoc. apply (Hfit (S n)).
      cbn [List.length]. lia.
    + replace ((cur ++ [d]) ++ fitted) with (cur ++ d :: fitted)
        by (now rewrite <- app_assoc).
      exact Hover.
Qed.

(** The first segment begins with the indentation of the line, every
    further one with four more spaces. *)
Let indented (leading : str) (segments : list str) : Prop :=
  exists first rest,
    segments
    = (leading ++ first) :: map (app (leading ++ py "    ")) rest.

Lemma indented_snoc (leading : str) (wrapped_lines : list str)
    (fitted : str) :
  wrapped_lines = [] \/ indented leading wrapped_lines ->
  indented leading
    (wrapped_lines
     ++ [(if truthy wrapped_lines then leading ++ py "    " else leading)
         ++ fitted]).
Proof.
  intros [->|[first [rest ->]]].
  - exists fitted, []. reflexivity.
  - exists first, (rest ++ [fitted]).
    cbn [truthy app]. now rewrite map_app.
Qed.

Lemma wrap_code_loop_indented (leading : str) (fuel : nat) :
  forall wrapped_lines remaining_line segments,
    wrapped_lines = [] \/ indented leading wrapped_lines ->
    wrap_code_loop stringWidth fuel font_name font_size max_width leading
      wrapped_lines remaining_line = Some segments ->
    (remaining_line = [] /\ segments = wrapped_lines)
    \/ indented leading segments.
Proof.
  induction fuel as [|fuel IH]; intros wl rem segs Hwl H; [discriminate|].
  cbn [wrap_code_loop] in H.
  destruct rem as [|r rem']; cbn [truthy negb] in H.
  { injection H as <-. now left. }
  right.
  set (indent := if truthy wl then leading ++ py "    " else leading) in *.
  set (content := if truthy wl then lstrip (r :: rem')
                  else skipn (List.length leading) (r :: rem')) in *.
  destruct (fit_chars_prefix content indent 0) as [t Ht].
  destruct (fit_chars _ _ _ _ indent content 0) as [cur [i|]] eqn:Hfit;
    cbn [fst] in Ht; subst cur.
  - set (bp := match search_break content i (i - Nat.max 0 (i - 20)) with
               | Some b => b
               | None => i
               end) in *.
    assert (Hseg : firstn (List.length indent + bp) (indent ++ t)
                   = indent ++ firstn bp t).
    { rewrite firstn_app.
      replace (List.length indent + bp - List.length indent)%nat
        with bp by lia.
      rewrite firstn_all2 by lia. reflexivity. }
    rewrite Hseg in H.
    pose proof (indented_snoc leading wl (firstn bp t) Hwl) as Hnew.
    fold indent in Hnew.
    destruct (truthy (lstrip (skipn bp content))); cbn [negb] in H.
    + destruct (IH _ _ _ (or_intror Hnew) H) as [[_ ->]|Hs]; assumption.
    + injection H as <-. exact Hnew.
  - injection H as <-. apply (indented_snoc leading wl t Hwl).
Qed.

(** X19.  [_wrap_code_line] preserves the indentation: whatever it
    returns, the first segment begins with the leading spaces and tabs of
    the line, and every continuation segment with these and four spaces
    more. *)
Theorem wrap_code_line_keeps_indentation (fuel : nat) (line : str)
    (segments : list str) :
  _wrap_code_line stringWidth fuel line font_name font_size max_width
  = Some segments ->
  exists first rest,
    segments
    = (leading_whitespace line ++ first)
      :: map (app (leading_whitespace line ++ py "    ")) rest.
Proof.
  unfold _wrap_code_line. intro H.
  assert (Hone : exists first rest,
             [line]
             = (leading_whitespace line ++ first)
               :: map (app (leading_whitespace line ++ py "    ")) rest).
  { exists (skipn (List.length (leading_whitespace line)) line), [].
    cbn [map]. now rewrite <- leading_whitespace_prefix. }
  destruct (blank line) eqn:Hb; [injection H as <-; exact Hone|].
  destruct (Qleb _ _); [injection H as <-; exact Hone|].
  destruct (wrap_code_loop_indented _ _ _ _ _ (or_introl eq_refl) H)
    as [[-> _]|Hs]; [discriminate Hb|exact Hs].
Qed.

(** X20.  A character is lost where a line is wrapped at a break
    character.  When the content [fitted] of a line fits after its
    indentation and the next character [c], a break character such as a
    comma or a bracket, does not, the first segment is the indentation
    and [fitted], and wrapping goes on after [c]: when what follows fits
    on one continuation line, the segments hold [fitted] and what
    follows, and [c] is in neither. *)
Theorem wrap_code_line_drops_break_char (fuel : nat) (line fitted : str)
    (c : ascii) (rest : str) :
  let leading := leading_whitespace line in
  let following := lstrip rest in
  blank line = false ->
  max_width < stringWidth line font_name font_size ->
  skipn (List.length leading) line = fitted ++ c :: rest ->
  fitted <> [] ->
  is_break_char c = true ->
  (forall n, (1 <= n <= List.length fitted)%nat ->
     stringWidth (leading ++ firstn n fitted) font_name font_size
     <= max_width) ->
  max_width < stringWidth ((leading ++ fitted) ++ [c]) font_name font_size ->
  (forall n, (1 <= n <= List.length following)%nat ->
     stringWidth ((leading ++ py "    ") ++ firstn n following)
       font_name font_size
     <= max_width) ->
  (2 <= fuel)%nat ->
  _wrap_code_line stringWidth fuel line font_name font_size max_width
  = Some (if truthy following
          then [leading ++ fitted; (leading ++ py "    ") ++ following]
          else [leading ++ fitted]).
Proof.
  intros leading following Hb Hwide Hcontent Hne Hc Hfit Hover Hnext Hfuel.
  unfold _wrap_code_line. fold leading. rewrite Hb.
  apply Qleb_false in Hwide. rewrite Hwide.
  destruct fuel as [|[|fuel]]; [lia|lia|].
  destruct line as [|l line']; [discriminate Hb|].
  remember (l :: line') as whole eqn:Hwhole.
  cbn [wrap_code_loop].
  assert (Ht : truthy whole = true) by (subst whole; reflexivity).
  rewrite Ht. cbn [negb truthy].
  rewrite Hcontent.
  rewrite (fit_chars_break fitted c rest leading 0 Hfit Hover).
  cbn [Nat.add].
  set (i := List.length fitted).
  assert (Hi : (1 <= i)%nat).
  { unfold i. destruct fitted; [congruence|cbn; lia]. }
  assert (Hsearch : search_break (fitted ++ c :: rest) i
                      (i - Nat.max 0 (i - 20))
                    = Some (i + 1)%nat).
  { destruct (i - Nat.max 0 (i - 20))%nat as [|count] eqn:Hcount; [lia|].
    cbn [search_break]. unfold i.
    rewrite app_nth2 by lia. rewrite Nat.sub_diag. cbn [nth].
    now rewrite Hc. }
  rewrite Hsearch.
  rewrite firstn_all2 by (rewrite length_app; fold i; lia).
  replace (skipn (i + 1) (fitted ++ c :: rest)) with rest.
  2:{ unfold i. rewrite skipn_app.
      rewrite skipn_all2 by lia.
      replace (List.length fitted + 1 - List.length fitted)%nat
        with 1%nat by lia.
      reflexivity. }
  fold following. cbn [app].
  destruct following as [|f following'] eqn:Hfol; cbn [truthy negb];
    [reflexivity|].
  rewrite <- Hfol in *.
  assert (Hidem : lstrip following = following).
  { unfold following. clear. induction rest as [|d rest IH];
      [reflexivity|]. cbn [lstrip].
    destruct (is_space d) eqn:Hd; [exact IH|]. cbn [lstrip]. now rewrite Hd. }
  rewrite Hfol at 1. cbn [truthy negb]. rewrite <- Hfol.
  rewrite Hidem.
  rewrite (fit_chars_all following (leading ++ py "    ") 0 Hnext).
  reflexivity.
Qed.

End WrapCodeSegments.

Lemma wrap_code_line_keeps_indentation_witness :
  let line :=
    py "  total = " ++ repeat "a"%char 40 ++ py " + " ++ repeat "b"%char 40 in
  exists segments first rest,
    _wrap_code_line courier_width 100 line (py "Courier") (96 # 5) 672
    = Some segments
    /\ segments
       = (leading_whitespace line ++ first)
         :: map (app (leading_whitespace line ++ py "    ")) rest.
Proof.
  intro line.
  destruct (_wrap_code_line courier_width 100 line (py "Courier") (96 # 5)
              672) as [segments|] eqn:E; [|vm_compute in E; discriminate E].
  exists segments.
  destruct (wrap_code_line_keeps_indentation courier_width (py "Courier")
              (96 # 5) 672 100 line segments E) as [first [rest H]].
  exists first, rest. split; [reflexivity|exact H].
Defined.

Lemma courier_prefix_fits (indent content font_name : str)
    (font_size max_width : Q) :
  0 <= font_size ->
  courier_width (indent ++ content) font_name font_size <= max_width ->
  forall n,
    courier_width (indent ++ firstn n content) font_name font_size
    <= max_width.
Proof.
  intros Hs Hfit n.
  eapply Qle_trans; [|exact Hfit].
  rewrite <- (firstn_skipn n content) at 2. rewrite app_assoc.
  now apply courier_width_prefix.
Qed.

Lemma wrap_code_line_drops_break_char_witness :
  let fitted := py "print(" ++ repeat "a"%char 50 in
  let line := py "  " ++ fitted ++ py ", sep)" in
  _wrap_code_line courier_width 2 line (py "Courier") (96 # 5) 672
  = Some [py "  " ++ fitted; py "      sep)"].
Proof.
  intros fitted line.
  apply (wrap_code_line_drops_break_char courier_width (py "Courier")
           (96 # 5) 672 2 line fitted ","%char (py " sep)")).
  - reflexivity.
  - vm_compute. reflexivity.
  - reflexivity.
  - discriminate.
  - reflexivity.
  - intros n _. apply courier_prefix_fits; vm_compute; discriminate.
  - vm_compute. reflexivity.
  - intros n _. apply courier_prefix_fits; vm_compute; discriminate.
  - lia.
Defined.

Section CodeBlocks.

Variable stringWidth : str -> str -> Q -> Q.
Variable path_exists : str -> bool.
Variable ImageReader : str -> str + (Z * Z).
Variable get_lexer_by_name : str -> bool.
Variable fuel : nat.

Let rend := render stringWidth path_exists ImageReader get_lexer_by_name fuel.

(** X21.  On a code that is not all whitespace, the height [Code.render]
    returns, whenever it returns, is the height the pagination estimated:
    the lines of the stripped code at 0.8 of the font size plus 2 each,
    twice the padding of 10, and 10. *)
Theorem Code_height_is_estimated (code : str) (language : option str)
    (background_color : str) (x y : Q) (theme : Theme) (cv : Canvas)
    (height : Q) (cv' : Canvas) :
  has_non_whitespace code ->
  rend (Code code language background_color) x y theme cv
  = Ok (height, cv') ->
  height
  = _estimate_element_height (Code code language background_color) theme
  /\ height
     = inject_Z (Z.of_nat (List.length (str_split NL (strip code))))
       * (get (theme_font_size theme) 24 * (8 # 10) + 2) + 2 * 10 + 10.
Proof.
  intros Hcode Hrun.
  exact (Code_render_is_estimate stringWidth path_exists ImageReader
           get_lexer_by_name fuel code language background_color x y theme
           cv height cv' Hcode Hrun).
Qed.

(** X22.  [Code.render] returns when every line that is drawn either fits
    the width of a code block, or is such that each of its characters
    fits on its own after the indentation of the line and after the
    continuation indentation; fuel above the length of the lines is
    enough. *)
Theorem Code_render_terminates (code : str) (language : option str)
    (background_color : str) (x y : Q) (theme : Theme) (cv : Canvas) :
  let font_size := get (theme_font_size theme) 24 * (8 # 10) in
  let max_width := get_available_width - 20 in
  Forall
    (fun line =>
       (stringWidth line (py "Courier") font_size <= max_width
        \/ makes_progress stringWidth (py "Courier") font_size max_width line)
       /\ (List.length line < fuel)%nat)
    (Code_render_lines get_lexer_by_name code language) ->
  exists height cv',
    rend (Code code language background_color) x y theme cv
    = Ok (height, cv').
Proof.
  intros font_size max_width Hlines.
  exact (Code_render_returns stringWidth path_exists ImageReader
           get_lexer_by_name fuel code language background_color x y theme
           cv Hlines).
Qed.

(** X23.  A code of whitespace only is drawn as an empty box: the
    background rectangle of height 20 and no line, the height returned
    is 30; the estimate counts one line and is taller by the height of a
    line. *)
Theorem Code_render_whitespace_only (code : str) (language : option str)
    (background_color : str) (x y : Q) (theme : Theme) (cv : Canvas) :
  (forall c, In c code -> is_space c = true) ->
  let font_size := get (theme_font_size theme) 24 * (8 # 10) in
  exists box_y box_height,
    rend (Code code language background_color) x y theme cv
    = Ok (box_height + 10,
          cv ++ [SetFillColor background_color;
                 Rect (x - 10) box_y (get_available_width - 20 + 20)
                   box_height true true;
                 SetFillColor (get (theme_font_color theme) (py "#000000"));
                 SetFont (py "Courier") font_size])
    /\ box_height == 20
    /\ _estimate_element_height (Code code language background_color) theme
       == box_height + 10 + (font_size + 2).
Proof.
  intros Hall font_size.
  apply all_space_forallb in Hall.
  assert (Hlines : Code_render_lines get_lexer_by_name code language = []).
  { rewrite Code_render_lines_eq.
    rewrite (pop_leading_blank_all _ (str_split_all_blank code Hall)).
    reflexivity. }
  assert (Hstrip : strip code = []).
  { unfold strip. apply rstrip_nil_iff. now rewrite lstrip_all_space. }
  unfold rend. cbn [render]. unfold Code_render. rewrite Hlines.
  cbn [draw_code_lines List.length]. unfold bind, draw, ret.
  eexists _, _. split; [|split].
  - rewrite <- !app_assoc. cbn [app]. reflexivity.
  - cbn [Z.of_nat inject_Z]. ring.
  - cbn [_estimate_element_height]. rewrite Hstrip.
    cbn [str_split List.length Z.of_nat inject_Z]. fold font_size.
    change (inject_Z (Z.of_nat 1)) with 1. change (inject_Z 0) with 0.
    ring.
Qed.

End CodeBlocks.

Lemma Code_height_is_estimated_witness :
  let block := Code code_example (Some (py "python")) (py "#F5F5F5") in
  exists height cv',
    render courier_width no_file broken_image every_lexer 10 block 50 300
      default_theme []
    = Ok (height, cv')
    /\ height = _estimate_element_height block default_theme
    /\ height
       = inject_Z (Z.of_nat (List.length (str_split NL (strip code_example))))
         * (get (theme_font_size default_theme) 24 * (8 # 10) + 2)
         + 2 * 10 + 10.
Proof.
  intro block.
  destruct (render courier_width no_file broken_image every_lexer 10 block
              50 300 default_theme []) as [[height cv']| |] eqn:E;
    [|vm_compute in E; discriminate E..].
  exists height, cv'. split; [reflexivity|].
  apply (Code_height_is_estimated courier_width no_file broken_image
           every_lexer 10 code_example (Some (py "python")) (py "#F5F5F5")
           50 300 default_theme [] height cv').
  - exists "x"%char. split; [right; right; left; reflexivity|reflexivity].
  - exact E.
Defined.

Lemma Code_render_terminates_witness :
  let code :=
    py "result = compute(" ++ repeat "a"%char 60 ++ py ")" ++ [NL]
    ++ py "print(result)" in
  exists height cv',
    render courier_width no_file broken_image every_lexer 100
      (Code code None (py "#F5F5F5")) 50 300 default_theme []
    = Ok (height, cv').
Proof.
  intro code.
  apply (Code_render_terminates courier_width no_file broken_image
           every_lexer 100 code None (py "#F5F5F5") 50 300 default_theme []).
  cbv zeta.
  change (Code_render_lines every_lexer code None)
    with [py "result = compute(" ++ repeat "a"%char 60 ++ py ")";
          py "print(result)"].
  constructor; [|constructor; [|constructor]].
  - split; [|vm_compute; lia].
    right. intros c Hc. split; vm_compute; reflexivity.
  - split; [|vm_compute; lia].
    left. vm_compute. discriminate.
Defined.

Lemma Code_render_whitespace_only_witness :
  exists box_y box_height,
    render courier_width no_file broken_image every_lexer 0
      (Code (py "  " ++ [NL; TAB]) None (py "#F5F5F5")) 50 300
      default_theme []
    = Ok (box_height + 10,
          [SetFillColor (py "#F5F5F5");
           Rect (50 - 10) box_y (get_available_width - 20 + 20) box_height
             true true;
           SetFillColor (py "#000000");
           SetFont (py "Courier") (24 * (8 # 10))])
    /\ box_height == 20
    /\ _estimate_element_height
         (Code (py "  " ++ [NL; TAB]) None (py "#F5F5F5")) default_theme
       == box_height + 10 + (24 * (8 # 10) + 2).
Proof.
  apply (Code_render_whitespace_only courier_width no_file broken_image
           every_lexer 0 (py "  " ++ [NL; TAB]) None (py "#F5F5F5") 50 300
           default_theme []).
  intros c Hc. cbn in Hc.
  destruct Hc as [<-|[<-|[<-|[<-|[]]]]]; reflexivity.
Defined.

(** ** Operators: [+] on elements *)

(** Sums and differences that are equal term by term, numerator and
    denominator: the positions and heights computed along two paths are
    then the same numbers, not only equal fractions. *)
Lemma Qplus_0_l_eq (a : Q) : 0 + a = a.
Proof.
  destruct a as [n d]. unfold Qplus. cbn [Qnum Qden].
  f_equal; lia.
Qed.

Lemma Qplus_0_r_eq (a : Q) : a + 0 = a.
Proof.
  destruct a as [n d]. unfold Qplus. cbn [Qnum Qden].
  f_equal; first [lia|apply Pos.mul_1_r].
Qed.

Lemma Qminus_0_r_eq (a : Q) : a - 0 = a.
Proof.
  destruct a as [n d]. unfold Qminus, Qplus, Qopp. cbn [Qnum Qden].
  f_equal; first [lia|apply Pos.mul_1_r].
Qed.

Lemma Qplus_assoc_eq (a b c : Q) : (a + b) + c = a + (b + c).
Proof.
  destruct a as [an ad], b as [bn bd], c as [cn cd].
  unfold Qplus. cbn [Qnum Qden].
  f_equal; first [rewrite !Pos2Z.inj_mul; ring|now rewrite Pos.mul_assoc].
Qed.

Lemma Qminus_plus_eq (y a b : Q) : (y - a) - b = y - (a + b).
Proof.
  destruct y as [yn yd], a as [an ad], b as [bn bd].
  unfold Qminus, Qplus, Qopp. cbn [Qnum Qden].
  f_equal; first [rewrite !Pos2Z.inj_mul; ring|now rewrite Pos.mul_assoc].
Qed.

Section CombinedLoops.

Variable render_element : Element -> Q -> Q -> Theme -> M Q.
Variable theme : Theme.

(** The total the loop starts from is added to what it accumulates. *)
Lemma CombinedElement_loop_total (elements : list Element) (x : Q) :
  forall current_y total cv,
    CombinedElement_loop render_element elements x current_y total theme cv
    = match CombinedElement_loop render_element elements x current_y 0
              theme cv with
      | Ok (height, cv') => Ok (total + height, cv')
      | Raise e => Raise e
      | OutOfFuel => OutOfFuel
      end.
Proof.
  induction elements as [|e es IH]; intros cy t cv;
    cbn [CombinedElement_loop].
  - unfold ret. now rewrite Qplus_0_r_eq.
  - unfold bind.
    destruct (render_element e x cy theme cv) as [[h c1]| |]; try reflexivity.
    rewrite (IH (cy - h) (t + h) c1), (IH (cy - h) (0 + h) c1).
    destruct (CombinedElement_loop render_element es x (cy - h) 0 theme c1)
      as [[h' c2]| |]; try reflexivity.
    now rewrite Qplus_0_l_eq, Qplus_assoc_eq.
Qed.

(** The loop over [front ++ back] is the loop over [front] followed by
    the loop over [back], lower by the height of [front]. *)
Lemma CombinedElement_loop_app (front back : list Element) (x : Q) :
  forall current_y total cv,
    CombinedElement_loop render_element (front ++ back) x current_y total
      theme cv
    = match CombinedElement_loop render_element front x current_y 0
              theme cv with
      | Ok (height, cv') =>
          CombinedElement_loop render_element back x (current_y - height)
            (total + height) theme cv'
      | Raise e => Raise e
      | OutOfFuel => OutOfFuel
      end.
Proof.
  induction front as [|e es IH]; intros cy t cv;
    cbn [CombinedElement_loop app].
  - unfold ret. now rewrite Qminus_0_r_eq, Qplus_0_r_eq.
  - unfold bind.
    destruct (render_element e x cy theme cv) as [[h c1]| |]; try reflexivity.
    rewrite (IH (cy - h) (t + h) c1).
    rewrite (CombinedElement_loop_total es x (cy - h) (0 + h) c1).
    destruct (CombinedElement_loop render_element es x (cy - h) 0 theme c1)
      as [[h' c2]| |]; try reflexivity.
    now rewrite Qplus_0_l_eq, Qminus_plus_eq, Qplus_assoc_eq.
Qed.

(** A combined element among the elements is rendered as its elements
    in its place. *)
Lemma CombinedElement_loop_flat (inner : list Element) :
  (forall x y cv,
     render_element (CombinedElement inner) x y theme cv
     = CombinedElement_loop render_element inner x y 0 theme cv) ->
  forall front back x current_y total cv,
    CombinedElement_loop render_element
      (front ++ CombinedElement inner :: back) x current_y total theme cv
    = CombinedElement_loop render_element (front ++ inner ++ back) x
        current_y total theme cv.
Proof.
  intros Hinner front back x.
  induction front as [|e es IH]; intros cy t cv.
  - cbn [app]. rewrite CombinedElement_loop_app.
    cbn [CombinedElement_loop]. unfold bind. now rewrite Hinner.
  - cbn [app CombinedElement_loop]. unfold bind.
    destruct (render_element e x cy theme cv) as [[h c1]| |]; try reflexivity.
    apply IH.
Qed.

End CombinedLoops.

Lemma fold_plus_total (heights : list Q) :
  forall total,
    fold_left (fun total_height height => total_height + height) heights total
    = total
      + fold_left (fun total_height height => total_height + height)
          heights 0.
Proof.
  induction heights as [|h hs IH]; intro t; cbn [fold_left].
  - now rewrite Qplus_0_r_eq.
  - rewrite (IH (t + h)), (IH (0 + h)).
    now rewrite Qplus_0_l_eq, Qplus_assoc_eq.
Qed.

Lemma Element_add_element (a b : Element) :
  Element_add a (an_element b)
  = Some (CombinedElement (operands_of a ++ [b])).
Proof. destruct a; reflexivity. Qed.

Lemma estimate_operands (theme : Theme) (element : Element) :
  fold_left (fun total_height height => total_height + height)
    (map (fun sub_element => _estimate_element_height sub_element theme)
       (operands_of element)) 0
  = _estimate_element_height element theme.
Proof.
  destruct element as [t c|t c|t c|t c|t c|c l b|p c|e|e|e|es n|p|es];
    cbn [operands_of map fold_left]; try apply Qplus_0_l_eq.
  reflexivity.
Qed.

Section Operators.

Variable stringWidth : str -> str -> Q -> Q.
Variable path_exists : str -> bool.
Variable ImageReader : str -> str + (Z * Z).
Variable get_lexer_by_name : str -> bool.
Variable fuel : nat.

Let rend := render stringWidth path_exists ImageReader get_lexer_by_name fuel.

Lemma render_operands (theme : Theme) (element : Element) (x y : Q)
    (cv : Canvas) (back : list Element) (total : Q) :
  CombinedElement_loop rend (element :: back) x y total theme cv
  = CombinedElement_loop rend (operands_of element ++ back) x y total
      theme cv.
Proof.
  destruct element as [t c|t c|t c|t c|t c|c l b|p c|e|e|e|es n|p|es];
    try reflexivity.
  apply (CombinedElement_loop_flat rend theme es
           ltac:(reflexivity) [] back).
Qed.

(** X24.  [+] is associative as far as rendering goes.  [(a + b) + c] is
    one combined element of three, [a + (b + c)] holds [b + c] as an
    element of its own; both are drawn the same, operation by operation,
    return the same height, fail the same way, and are estimated the
    same. *)
Theorem add_is_associative_when_rendered (a b c : Element) :
  exists ab ab_c bc a_bc,
    Element_add a (an_element b) = Some ab
    /\ Element_add ab (an_element c) = Some ab_c
    /\ Element_add b (an_element c) = Some bc
    /\ Element_add a (an_element bc) = Some a_bc
    /\ (forall x y theme cv,
          rend ab_c x y theme cv = rend a_bc x y theme cv)
    /\ (forall theme,
          _estimate_element_height ab_c theme
          = _estimate_element_height a_bc theme).
Proof.
  exists (CombinedElement (operands_of a ++ [b])),
         (CombinedElement ((operands_of a ++ [b]) ++ [c])),
         (CombinedElement (operands_of b ++ [c])),
         (CombinedElement (operands_of a ++ [CombinedElement
                                                (operands_of b ++ [c])])).
  split; [apply Element_add_element|].
  split; [reflexivity|].
  split; [apply Element_add_element|].
  split; [apply Element_add_element|].
  split.
  - intros x y theme cv. unfold rend. cbn [render]. fold rend.
    rewrite <- app_assoc. cbn [app].
    rewrite (CombinedElement_loop_flat rend theme (operands_of b ++ [c])
               ltac:(reflexivity) (operands_of a) [] x y 0 cv).
    rewrite app_nil_r.
    rewrite !CombinedElement_loop_app.
    destruct (CombinedElement_loop rend (operands_of a) x y 0 theme cv)
      as [[h c1]| |]; try reflexivity.
    apply render_operands.
  - intro theme.
    set (est := fun sub_element => _estimate_element_height sub_element theme).
    set (plus := fun total_height height : Q => total_height + height).
    change (fold_left plus (map est ((operands_of a ++ [b]) ++ [c])) 0
            = fold_left plus
                (map est (operands_of a
                          ++ [CombinedElement (operands_of b ++ [c])])) 0).
    rewrite !map_app, !fold_left_app. cbn [map fold_left].
    change (est (CombinedElement (operands_of b ++ [c])))
      with (fold_left plus (map est (operands_of b ++ [c])) 0).
    rewrite map_app, fold_left_app. cbn [map fold_left].
    pose proof (estimate_operands theme b) as Hb.
    change (fold_left plus (map est (operands_of b)) 0 = est b) in Hb.
    rewrite Hb. unfold plus. now rewrite Qplus_assoc_eq.
Qed.

(** X25.  A grid of a negative number of columns draws nothing and
    returns the height 0, whatever its elements; the pagination
    nevertheless estimates it as tall as the tallest of its elements but
    the last [-columns]. *)
Theorem GridLayout_negative_columns (elements : list Element) (columns : Z)
    (x y : Q) (theme : Theme) (cv : Canvas) :
  (columns < 0)%Z ->
  rend (GridLayout elements columns) x y theme cv = Ok (0, cv)
  /\ _estimate_element_height (GridLayout elements columns) theme
     = max_heights
         (map (fun e => _estimate_element_height e theme)
            (firstn (List.length elements - Z.to_nat (- columns)) elements)).
Proof.
  intro Hneg. split.
  - unfold rend. cbn [render].
    destruct (columns =? 0)%Z eqn:E; [lia|].
    destruct elements as [|e es]; cbn [GridLayout_loop]; [reflexivity|].
    destruct (0 >=? columns)%Z eqn:G; [reflexivity|lia].
  - cbn [_estimate_element_height]. rewrite slice_to_map.
    unfold slice_to, max_heights.
    destruct (0 <=? columns)%Z eqn:G; [lia|reflexivity].
Qed.

End Operators.

Lemma GridLayout_negative_columns_witness :
  let cells := [BodyText (py "left") None; BodyText (py "right") None] in
  render courier_width no_file broken_image every_lexer 0
    (GridLayout cells (-1)) 50 300 default_theme []
  = Ok (0, [])
  /\ _estimate_element_height (GridLayout cells (-1)) default_theme
     = max_heights
         (map (fun e => _estimate_element_height e default_theme)
            [BodyText (py "left") None]).
Proof.
  intro cells.
  apply (GridLayout_negative_columns courier_width no_file broken_image
           every_lexer 0 cells (-1) 50 300 default_theme []).
  lia.
Defined.

(** ** Configuration: a theme without keys *)

Lemma estimate_empty_theme (element : Element) :
  _estimate_element_height element empty_theme
  = _estimate_element_height element default_theme.
Proof.
  induction element
    as [t c|t c|t c|t c|t c|c l b|p c|e IH|e IH|e IH|es n IH|p|es IH]
    using Element_nested_ind; try reflexivity; try exact IH.
  - cbn [_estimate_element_height]. f_equal. f_equal.
    induction IH as [|e es He _ IHes]; [reflexivity|].
    cbn [map]. now rewrite He, IHes.
  - cbn [_estimate_element_height]. f_equal.
    induction IH as [|e es He _ IHes]; [reflexivity|].
    cbn [map]. now rewrite He, IHes.
Qed.

Lemma existsb_false_Forall {A} (f : A -> bool) (l : list A) :
  existsb f l = false -> Forall (fun a => f a = false) l.
Proof.
  induction l as [|a l IH]; intro H; constructor;
    cbn [existsb] in H; apply orb_false_iff in H; tauto.
Qed.

Section LoopsOfTwoThemes.

Variable render_element : Element -> Q -> Q -> Theme -> M Q.
Variables theme theme' : Theme.

Lemma CombinedElement_loop_themes (elements : list Element) (x : Q) :
  Forall (fun e => forall x y cv,
            render_element e x y theme cv = render_element e x y theme' cv)
    elements ->
  forall current_y total cv,
    CombinedElement_loop render_element elements x current_y total theme cv
    = CombinedElement_loop render_element elements x current_y total
        theme' cv.
Proof.
  induction 1 as [|e es He _ IH]; intros cy t cv;
    cbn [CombinedElement_loop]; [reflexivity|].
  unfold bind. rewrite He.
  destruct (render_element e x cy theme' cv) as [[h c1]| |];
    try reflexivity.
  apply IH.
Qed.

Lemma GridLayout_loop_themes (elements : list Element)
    (columns : Z) (column_width y : Q) :
  Forall (fun e => forall x y cv,
            render_element e x y theme cv = render_element e x y theme' cv)
    elements ->
  forall i max_height cv,
    GridLayout_loop render_element elements i columns column_width y
      max_height theme cv
    = GridLayout_loop render_element elements i columns column_width y
        max_height theme' cv.
Proof.
  induction 1 as [|e es He _ IH]; intros i m cv;
    cbn [GridLayout_loop]; [reflexivity|].
  destruct (i >=? columns)%Z; [reflexivity|].
  unfold bind. rewrite He.
  destruct (render_element e _ y theme' cv) as [[h c1]| |];
    try reflexivity.
  apply IH.
Qed.

End LoopsOfTwoThemes.

Lemma Forall_impl2 {A} (P R S : A -> Prop) (l : list A) :
  (forall a, P a -> R a -> S a) -> Forall P l -> Forall R l -> Forall S l.
Proof.
  intros H HP. induction HP as [|a l Ha _ IH]; intro HR;
    inversion HR; subst; constructor; auto.
Qed.

Section ThemeDefaults.

Variable stringWidth : str -> str -> Q -> Q.
Variable path_exists : str -> bool.
Variable ImageReader : str -> str + (Z * Z).
Variable get_lexer_by_name : str -> bool.
Variable fuel : nat.

Let rend := render stringWidth path_exists ImageReader get_lexer_by_name fuel.

Lemma render_empty_theme (element : Element) :
  has_caption element = false ->
  forall x y cv,
    rend element x y empty_theme cv = rend element x y default_theme cv.
Proof.
  induction element
    as [t c|t c|t c|t c|t c|c l b|p c|e IH|e IH|e IH|es n IH|p|es IH]
    using Element_nested_ind; intros Hcap x y cv;
    cbn [has_caption] in Hcap; try reflexivity.
  - destruct c; [reflexivity|discriminate Hcap].
  - unfold rend. cbn [render]. fold rend.
    replace (Center_center_x stringWidth e empty_theme)
      with (Center_center_x stringWidth e default_theme)
      by (destruct e; reflexivity).
    now apply IH.
  - unfold rend. cbn [render]. fold rend. now apply IH.
  - unfold rend. cbn [render]. fold rend.
    replace (TitleSlide_center_x stringWidth e empty_theme)
      with (TitleSlide_center_x stringWidth e default_theme)
      by (destruct e; reflexivity).
    now apply IH.
  - unfold rend. cbn [render]. fold rend.
    destruct (n =? 0)%Z; [reflexivity|].
    apply GridLayout_loop_themes.
    apply (Forall_impl2 _ _ _ es (fun e H1 H2 => H1 H2) IH
             (existsb_false_Forall _ _ Hcap)).
  - unfold rend. cbn [render]. fold rend.
    apply CombinedElement_loop_themes.
    apply (Forall_impl2 _ _ _ es (fun e H1 H2 => H1 H2) IH
             (existsb_false_Forall _ _ Hcap)).
Qed.

(** X26.  The defaults the renderers fall back on are the default
    configuration.  With the empty theme of a configuration without a
    [theme] key, every element is estimated, every slide is split, and
    every element without a captioned image is drawn, as with the theme
    of [get_default_config]. *)
Theorem empty_theme_is_default_theme :
  (forall element,
     _estimate_element_height element empty_theme
     = _estimate_element_height element default_theme)
  /\ (forall self,
        render_with_overflow_detection self empty_theme
        = render_with_overflow_detection self default_theme)
  /\ (forall element x y cv,
        has_caption element = false ->
        rend element x y empty_theme cv = rend element x y default_theme cv).
Proof.
  split; [exact estimate_empty_theme|]. split.
  - intro self. unfold render_with_overflow_detection.
    assert (Hstep : forall elements st,
               fold_left (overflow_step empty_theme) elements st
               = fold_left (overflow_step default_theme) elements st).
    { induction elements as [|e es IH]; intro st; [reflexivity|].
      cbn [fold_left]. rewrite IH. f_equal.
      unfold overflow_step. now rewrite estimate_empty_theme. }
    now rewrite Hstep.
  - intros element x y cv Hcap. now apply render_empty_theme.
Qed.

(** X27.  The caption of an image is the exception: under an image that
    is found and loaded, the caption is set in size 20 when the theme
    has no font size, not in the 24 of the default configuration. *)
Theorem Img_caption_font_size (path caption : str) (width height : Z)
    (x y : Q) (cv : Canvas) :
  path_exists path = true ->
  ImageReader path = inr (width, height) ->
  width <> 0%Z -> height <> 0%Z ->
  caption <> [] ->
  exists scaled_width scaled_height,
    let drawn font_size :=
      Ok (scaled_height + 30,
          cv ++ [DrawImage path x (y - scaled_height)
                   scaled_width scaled_height;
                 SetFont (py "Helvetica") font_size;
                 SetFillColor (py "#000000");
                 DrawString x (y - scaled_height - 25) caption]) in
    rend (Img path caption) x y empty_theme cv = drawn 20
    /\ rend (Img path caption) x y default_theme cv = drawn 24.
Proof.
  intros Hexists Hload Hw Hh Hcap.
  unfold rend. cbn [render]. unfold Img_render.
  rewrite Hexists, Hload.
  destruct (width =? 0)%Z eqn:Ew; [lia|].
  destruct (height =? 0)%Z eqn:Eh; [lia|].
  cbn [orb]. destruct caption as [|c caption]; [congruence|].
  cbn [truthy]. unfold bind, draw, ret.
  eexists _, _. cbv zeta. split.
  - rewrite <- !app_assoc. cbn [app]. reflexivity.
  - rewrite <- !app_assoc. cbn [app]. reflexivity.
Qed.

End ThemeDefaults.

Lemma Img_caption_font_size_witness :
  exists scaled_width scaled_height,
    let drawn font_size :=
      Ok (scaled_height + 30,
          [DrawImage (py "plot.png") 50 (300 - scaled_height)
             scaled_width scaled_height;
           SetFont (py "Helvetica") font_size;
           SetFillColor (py "#000000");
           DrawString 50 (300 - scaled_height - 25) (py "Figure 1")]) in
    render courier_width every_file image_640_480 every_lexer 0
      (Img (py "plot.png") (py "Figure 1")) 50 300 empty_theme []
    = drawn 20
    /\ render courier_width every_file image_640_480 every_lexer 0
         (Img (py "plot.png") (py "Figure 1")) 50 300 default_theme []
       = drawn 24.
Proof.
  apply (Img_caption_font_size courier_width every_file image_640_480
           every_lexer 0 (py "plot.png") (py "Figure 1") 640 480 50 300 []);
    first [reflexivity|discriminate].
Defined.

(** ** Syntax highlighting: every character is drawn, once *)

Lemma scan_string_length (quote_char : ascii) (after : str) :
  (scan_string quote_char after <= List.length after)%nat.
Proof.
  assert (H : forall n after, (List.length after <= n)%nat ->
                (scan_string quote_char after <= List.length after)%nat).
  { induction n as [|n IH]; intros s Hs.
    - destruct s; [cbn; lia|cbn in Hs; lia].
    - destruct s as [|c s']; cbn [scan_string List.length] in *; [lia|].
      destruct (Ascii.eqb c quote_char); [lia|].
      destruct (Ascii.eqb c BACKSLASH).
      + destruct s' as [|d s'']; cbn [List.length] in *; [lia|].
        pose proof (IH s'' ltac:(lia)). lia.
      + pose proof (IH s' ltac:(lia)). lia. }
  now apply (H (List.length after)).
Qed.

Lemma run_length_length (p : ascii -> bool) (s : str) :
  (run_length p s <= List.length s)%nat.
Proof.
  induction s as [|c s IH]; cbn; [lia|]. destruct (p c); cbn; lia.
Qed.

Lemma run_length_first (p : ascii -> bool) (c : ascii) (s : str) :
  p c = true -> (1 <= run_length p (c :: s))%nat.
Proof. intro H. cbn. rewrite H. lia. Qed.

Lemma drawn_text_piece (color : str) (x y : Q) (text : str) (ops : Canvas) :
  drawn_text (SetFillColor color :: DrawString x y text :: ops)
  = text ++ drawn_text ops.
Proof. reflexivity. Qed.

Section HighlightFacts.

Variable stringWidth : str -> str -> Q -> Q.
Variables isdigit isalpha isalnum : ascii -> bool.
Hypothesis isalpha_isalnum : forall c, isalpha c = true -> isalnum c = true.

Variables (language : option str) (y : Q) (font_name : str) (font_size : Q).
Variable theme : Theme.

Lemma highlight_loop_pieces (fuel : nat) :
  forall rest current_x cv,
    (List.length rest <= fuel)%nat ->
    exists ops,
      highlight_loop stringWidth isdigit isalpha isalnum fuel language rest
        current_x y font_name font_size theme cv
      = Ok (tt, cv ++ ops)
      /\ drawn_text ops = rest
      /\ laid_out stringWidth y font_name font_size current_x ops.
Proof.
  induction fuel as [|fuel IH]; intros rest x cv Hlen.
  { destruct rest; [|cbn in Hlen; lia].
    exists []. cbn. rewrite app_nil_r. repeat split. constructor. }
  destruct rest as [|char after].
  { exists []. cbn. rewrite app_nil_r. repeat split. constructor. }
  cbn [List.length] in Hlen.
  assert (Hpiece : forall color text left,
             text ++ left = char :: after ->
             (List.length left <= fuel)%nat ->
             exists ops,
               (draw (SetFillColor color) ;;;
                draw (DrawString x y text) ;;;
                highlight_loop stringWidth isdigit isalpha isalnum fuel
                  language left
                  (x + stringWidth text font_name font_size) y font_name
                  font_size theme) cv
               = Ok (tt, cv ++ ops)
               /\ drawn_text ops = char :: after
               /\ laid_out stringWidth y font_name font_size x ops).
  { intros color text left Heq Hleft.
    unfold bind at 1 2, draw at 1 2.
    destruct (IH left (x + stringWidth text font_name font_size)
                ((cv ++ [SetFillColor color]) ++ [DrawString x y text])
                Hleft) as [ops [Hrun [Htext Hlaid]]].
    exists (SetFillColor color :: DrawString x y text :: ops).
    split; [|split].
    - rewrite Hrun. now rewrite <- !app_assoc.
    - now rewrite drawn_text_piece, Htext.
    - now constructor. }
  cbn [highlight_loop].
  destruct (Ascii.eqb char "#" || _).
  { exists [SetFillColor (py "#808080"); DrawString x y (char :: after)].
    unfold bind, draw. split; [|split].
    - now rewrite <- !app_assoc.
    - cbn. now rewrite app_nil_r.
    - repeat constructor. }
  destruct (Ascii.eqb char DQUOTE || Ascii.eqb char SQUOTE).
  { pose proof (scan_string_length char after) as Hn.
    apply Hpiece.
    - cbn [app]. now rewrite firstn_skipn.
    - rewrite length_skipn. lia. }
  destruct (isdigit char) eqn:Hdigit.
  { set (p := fun c => isdigit c || Ascii.eqb c ".").
    pose proof (run_length_first p char after) as Hn.
    unfold p at 1 in Hn. rewrite Hdigit in Hn. specialize (Hn eq_refl).
    apply Hpiece.
    - apply firstn_skipn.
    - rewrite length_skipn. cbn [List.length]. lia. }
  destruct (isalpha char || Ascii.eqb char "_") eqn:Hword.
  { set (p := fun c => isalnum c || Ascii.eqb c "_").
    pose proof (run_length_first p char after) as Hn.
    assert (Hp : p char = true).
    { unfold p. apply orb_true_iff in Hword. destruct Hword as [Ha|Hu].
      - now rewrite (isalpha_isalnum char Ha).
      - rewrite Hu. apply orb_true_r. }
    specialize (Hn Hp).
    apply Hpiece.
    - apply firstn_skipn.
    - rewrite length_skipn. cbn [List.length]. lia. }
  apply Hpiece; [reflexivity|lia].
Qed.

(** X28.  [_render_highlighted_line] draws the line, whole and once.
    Since a letter is alphanumeric, it returns on every line, with fuel
    of the length of the line; the strings it draws are, one after the
    other, the line itself, so no character is dropped or repeated; and
    they are drawn from left to right, each in a colour of its own, the
    first at [x] and each next one further right by the width of the one
    before it. *)
Theorem highlighted_line_is_the_line (fuel : nat) (line : str) (x : Q)
    (cv : Canvas) :
  (List.length line <= fuel)%nat ->
  exists ops,
    _render_highlighted_line stringWidth isdigit isalpha isalnum fuel
      language line x y font_name font_size theme cv
    = Ok (tt, cv ++ ops)
    /\ drawn_text ops = line
    /\ laid_out stringWidth y font_name font_size x ops.
Proof.
  intro Hlen. unfold _render_highlighted_line.
  now apply highlight_loop_pieces.
Qed.

End HighlightFacts.

Lemma highlighted_line_is_the_line_witness :
  let line := py "return total // 2  # half" in
  exists ops,
    _render_highlighted_line courier_width ascii_isdigit ascii_isalpha
      ascii_isalnum 25 (Some (py "python")) line 50 300 (py "Courier")
      (96 # 5) default_theme []
    = Ok (tt, ops)
    /\ drawn_text ops = line
    /\ laid_out courier_width 300 (py "Courier") (96 # 5) 50 ops.
Proof.
  intro line.
  apply (highlighted_line_is_the_line courier_width ascii_isdigit
           ascii_isalpha ascii_isalnum
           ltac:(intros c H; unfold ascii_isalnum; now rewrite H)
           (Some (py "python")) 300 (py "Courier") (96 # 5) default_theme
           25 line 50 []).
  vm_compute. lia.
Defined.

(** ** Pagination in Python's numbers *)

Section PaginationPy.

Variable theme : PyTheme.

Let step := overflow_step_py theme.

(** Whether the last of the chunks [chunks ++ [chunk]] is the first
    slide. *)
Let last_is_first (is_first : bool) (chunks : list (list Element)) : bool :=
  if truthy chunks then false else is_first.

Lemma holds_snoc (elements : list Element) (element : Element) :
  forall current_y,
    holds theme current_y (elements ++ [element])
    = holds theme current_y elements
      && negb (overflows theme
                 (fold_left (placed theme) elements current_y) element).
Proof.
  induction elements as [|e es IH]; intro cy; cbn [holds app fold_left].
  - now rewrite andb_true_r.
  - rewrite IH. now rewrite andb_assoc.
Qed.

Lemma slide_holds_snoc (is_first : bool) (chunk : list Element)
    (element : Element) :
  chunk <> [] ->
  slide_holds theme is_first chunk = true ->
  overflows theme (slide_cursor theme is_first chunk) element = false ->
  slide_holds theme is_first (chunk ++ [element]) = true.
Proof.
  intros Hne Hholds Hfits. destruct chunk as [|e es]; [congruence|].
  cbn [slide_holds slide_cursor app] in *.
  now rewrite holds_snoc, Hholds, Hfits.
Qed.

Lemma slide_cursor_snoc (is_first : bool) (chunk : list Element)
    (element : Element) :
  chunk <> [] ->
  slide_cursor theme is_first (chunk ++ [element])
  = placed theme (slide_cursor theme is_first chunk) element.
Proof.
  intro Hne. destruct chunk as [|e es]; [congruence|].
  cbn [slide_cursor app]. now rewrite fold_left_app.
Qed.

Lemma paged_not_nil (is_first : bool) (chunks : list (list Element)) :
  paged theme is_first chunks -> Forall (fun chunk => chunk <> []) chunks.
Proof.
  induction 1 as [f c Hc _|f c e r cs Hc _ _ _ IH].
  - constructor; [exact Hc|constructor].
  - constructor; assumption.
Qed.

Lemma paged_inv (is_first : bool) (chunk : list Element)
    (chunks : list (list Element)) :
  paged theme is_first (chunk :: chunks) ->
  chunk <> []
  /\ slide_holds theme is_first chunk = true
  /\ (chunks = []
      \/ exists element rest others,
           chunks = (element :: rest) :: others
           /\ overflows theme (slide_cursor theme is_first chunk) element
              = true
           /\ paged theme false chunks).
Proof.
  intro Hp. inversion Hp as [? ? Hc Hh|? ? e r rest Hc Hh Hb Hrest]; subst.
  - split; [exact Hc|]. split; [exact Hh|]. now left.
  - split; [exact Hc|]. split; [exact Hh|]. right.
    now exists e, r, rest.
Qed.

(** A slide is closed and [element] opens the next one. *)
Lemma paged_open (chunks : list (list Element)) (chunk : list Element)
    (element : Element) :
  forall is_first,
    paged theme is_first (chunks ++ [chunk]) ->
    overflows theme
      (slide_cursor theme (last_is_first is_first chunks) chunk) element
    = true ->
    paged theme is_first (chunks ++ [chunk; [element]]).
Proof.
  unfold last_is_first.
  induction chunks as [|c cs IH]; intros f Hp Ho; cbn [app truthy] in *.
  - apply paged_inv in Hp. destruct Hp as [Hc [Hh _]].
    apply paged_next; try assumption.
    apply paged_last; [discriminate|reflexivity].
  - apply paged_inv in Hp.
    destruct Hp as [Hc [Hh [Hnil|[e [r [rest [Heq [Hb Hrest]]]]]]]];
      [destruct cs; discriminate|].
    assert (Hnext : paged theme false (cs ++ [chunk; [element]])).
    { apply IH; [exact Hrest|]. now destruct cs. }
    replace (cs ++ [chunk; [element]])
      with ((cs ++ [chunk]) ++ [[element]]) in *
      by (now rewrite <- app_assoc).
    rewrite Heq in *. cbn [app] in *.
    now apply paged_next.
Qed.

(** [element] is added to the last slide. *)
Lemma paged_add (chunks : list (list Element)) (chunk : list Element)
    (element : Element) :
  forall is_first,
    paged theme is_first (chunks ++ [chunk]) ->
    overflows theme
      (slide_cursor theme (last_is_first is_first chunks) chunk) element
    = false ->
    paged theme is_first (chunks ++ [chunk ++ [element]]).
Proof.
  unfold last_is_first.
  induction chunks as [|c cs IH]; intros f Hp Ho; cbn [app truthy] in *.
  - apply paged_inv in Hp. destruct Hp as [Hc [Hh _]].
    apply paged_last; [destruct chunk; discriminate|].
    now apply slide_holds_snoc.
  - apply paged_inv in Hp.
    destruct Hp as [Hc [Hh [Hnil|[e [r [rest [Heq [Hb Hrest]]]]]]]];
      [destruct cs; discriminate|].
    assert (Hnext : paged theme false (cs ++ [chunk ++ [element]])).
    { apply IH; [exact Hrest|]. now destruct cs. }
    destruct cs as [|c' cs'].
    + cbn [app] in *. injection Heq as -> <-.
      cbn [app] in *. now apply paged_next.
    + cbn [app] in *. injection Heq as -> _.
      now apply paged_next.
Qed.

(** The state of the loop once an element has been taken. *)
Let taken (st : PyPageState) : Prop :=
  paged theme true
    (map slide_elements (py_slides st) ++ [py_current_slide_elements st])
  /\ py_current_y st
     = slide_cursor theme (negb (truthy (py_slides st)))
         (py_current_slide_elements st).

Lemma taken_step (st : PyPageState) (element : Element) :
  taken st -> taken (step st element).
Proof.
  intros [Hp Hy].
  assert (Hcur : py_current_slide_elements st <> []).
  { pose proof (paged_not_nil _ _ Hp) as Hall.
    apply Forall_app in Hall. destruct Hall as [_ Hall].
    now inversion Hall. }
  assert (Hflag : negb (truthy (py_slides st))
                  = last_is_first true (map slide_elements (py_slides st))).
  { unfold last_is_first. now destruct (py_slides st). }
  unfold step, overflow_step_py.
  destruct (overflows theme (py_current_y st) element) eqn:Ho;
    cbn [andb].
  - destruct (py_current_slide_elements st) as [|c cs] eqn:Ecur;
      [congruence|]. cbn [truthy].
    split; cbn [py_slides py_current_slide_elements py_current_y].
    + rewrite map_app, <- app_assoc. cbn [map app slide_elements].
      apply paged_open; [exact Hp|].
      now rewrite <- Hflag, <- Hy.
    + destruct (py_slides st); reflexivity.
  - split; cbn [py_slides py_current_slide_elements py_current_y].
    + apply paged_add; [exact Hp|]. now rewrite <- Hflag, <- Hy.
    + rewrite slide_cursor_snoc by exact Hcur. now rewrite Hy.
Qed.

Lemma taken_fold (elements : list Element) :
  forall st, taken st -> taken (fold_left step elements st).
Proof.
  induction elements as [|e es IH]; intros st H; [exact H|].
  cbn [fold_left]. apply IH. now apply taken_step.
Qed.

Lemma taken_first (element : Element) :
  taken (step (mkPyPageState [] [] top_y_py) element).
Proof.
  unfold step, overflow_step_py. cbn [py_current_slide_elements truthy].
  rewrite andb_false_r. split; cbn.
  - apply paged_last; [discriminate|reflexivity].
  - reflexivity.
Qed.

(** The physical slides of a slide that is not empty. *)
Lemma pagination_py_paged (self : Slide) :
  slide_elements self <> [] ->
  paged theme true
    (map slide_elements (render_with_overflow_detection_py self theme)).
Proof.
  intro Hne. unfold render_with_overflow_detection_py.
  destruct (slide_elements self) as [|e es]; [congruence|].
  cbn [fold_left]. fold step.
  destruct (taken_fold es _ (taken_first e)) as [Hp _].
  set (st := fold_left step es _) in *.
  assert (Hcur : py_current_slide_elements st <> []).
  { pose proof (paged_not_nil _ _ Hp) as Hall.
    apply Forall_app in Hall. destruct Hall as [_ Hall].
    now inversion Hall. }
  destruct (py_current_slide_elements st) as [|c cs] eqn:Ecur;
    [congruence|]. cbn [truthy].
  destruct (py_slides st ++ [mkSlide (c :: cs)]) eqn:E;
    [destruct (py_slides st); discriminate|].
  cbn [truthy negb]. rewrite <- E, map_app. exact Hp.
Qed.

(** Elements that hold are all added to the slide. *)
Lemma holds_fold (elements : list Element) :
  forall st,
    holds theme (py_current_y st) elements = true ->
    fold_left step elements st
    = mkPyPageState (py_slides st)
        (py_current_slide_elements st ++ elements)
        (fold_left (placed theme) elements (py_current_y st)).
Proof.
  induction elements as [|e es IH]; intros st H; cbn [holds fold_left] in *.
  - rewrite app_nil_r. now destruct st.
  - apply andb_true_iff in H. destruct H as [Hfit Hrest].
    apply negb_true_iff in Hfit.
    assert (Hstep : step st e
                    = mkPyPageState (py_slides st)
                        (py_current_slide_elements st ++ [e])
                        (placed theme (py_current_y st) e)).
    { unfold step, overflow_step_py. now rewrite Hfit. }
    rewrite Hstep, IH by exact Hrest.
    cbn [py_slides py_current_slide_elements py_current_y].
    now rewrite <- app_assoc.
Qed.

Lemma slide_holds_alone (elements : list Element) :
  slide_holds theme true elements = true ->
  render_with_overflow_detection_py (mkSlide elements) theme
  = [mkSlide elements].
Proof.
  intro H. unfold render_with_overflow_detection_py. cbn [slide_elements].
  destruct elements as [|e es]; [reflexivity|].
  cbn [fold_left slide_holds first_cursor] in *. fold step.
  assert (Hfirst : step (mkPyPageState [] [] top_y_py) e
                   = mkPyPageState [] [e] (placed theme top_y_py e)).
  { unfold step, overflow_step_py. cbn [py_current_slide_elements truthy].
    now rewrite andb_false_r. }
  rewrite Hfirst, holds_fold by exact H.
  reflexivity.
Qed.

Lemma paged_holds (chunks : list (list Element)) :
  forall is_first chunk,
    paged theme is_first (chunk :: chunks) ->
    slide_holds theme is_first chunk = true
    /\ Forall (fun c => slide_holds theme false c = true) chunks.
Proof.
  induction chunks as [|c cs IH]; intros f chunk Hp;
    apply paged_inv in Hp;
    destruct Hp as [_ [Hh [Hnil|[e [r [rest [Heq [Hb Hrest]]]]]]]];
    try discriminate.
  - split; [exact Hh|constructor].
  - destruct (IH false c Hrest) as [H1 H2].
    split; [exact Hh|]. constructor; assumption.
Qed.

Lemma paged_boundary (before : list (list Element)) :
  forall is_first closed next after,
    paged theme is_first (before ++ closed :: next :: after) ->
    exists first rest,
      next = first :: rest
      /\ overflows theme
           (slide_cursor theme (last_is_first is_first before) closed) first
         = true.
Proof.
  unfold last_is_first.
  induction before as [|b bs IH]; intros f closed next after Hp;
    cbn [app truthy] in *;
    apply paged_inv in Hp;
    destruct Hp as [_ [_ [Hnil|[e [r [rest [Heq [Hb Hrest]]]]]]]].
  - discriminate.
  - injection Heq as -> _. now exists e, r.
  - destruct bs; discriminate.
  - destruct (IH false closed next after Hrest) as [e' [r' [Hn Ho]]].
    exists e', r'. split; [exact Hn|]. now destruct bs.
Qed.

(** X1.  In Python's numbers, pagination returns the slide alone and
    unchanged exactly when its elements hold: below the first element,
    placed from the top of the content area, none of the further ones
    fails the test of the loop at the cursor the loop has there. *)
Theorem pagination_single_slide_iff (self : Slide) :
  render_with_overflow_detection_py self theme = [self]
  <-> slide_holds theme true (slide_elements self) = true.
Proof.
  destruct self as [es]. cbn [slide_elements]. split.
  - intro H. destruct es as [|e r]; [reflexivity|].
    pose proof (pagination_py_paged (mkSlide (e :: r))
                  ltac:(discriminate)) as Hp.
    rewrite H in Hp. cbn [map slide_elements] in Hp.
    now inversion Hp.
  - apply slide_holds_alone.
Qed.

(** X2.  Every physical slide that pagination returns holds its
    elements: on each of them only the first element can fail the test
    of the loop, the cursor being the one the loop has, from the top on
    the first slide and from the opening of the slide on the others. *)
Theorem physical_slides_fit (self first : Slide) (later : list Slide) :
  render_with_overflow_detection_py self theme = first :: later ->
  slide_holds theme true (slide_elements first) = true
  /\ Forall (fun s => slide_holds theme false (slide_elements s) = true)
       later.
Proof.
  intro H. destruct (slide_elements self) as [|e r] eqn:E.
  - destruct self as [es]. cbn in E. subst es.
    cbn in H. injection H as <- <-. split; [reflexivity|constructor].
  - pose proof (pagination_py_paged self ltac:(rewrite E; discriminate))
      as Hp.
    rewrite H in Hp. cbn [map] in Hp.
    destruct (paged_holds _ _ _ Hp) as [H1 H2].
    split; [exact H1|]. now apply Forall_map in H2.
Qed.

(** X3.  Pagination is greedy: wherever one physical slide is followed
    by another, the first element of the next one failed the test of
    the loop below the elements of the one before. *)
Theorem slide_boundary_greedy (self : Slide)
    (before after : list Slide) (closed next : Slide) :
  render_with_overflow_detection_py self theme
  = before ++ closed :: next :: after ->
  exists first rest,
    slide_elements next = first :: rest
    /\ overflows theme
         (slide_cursor theme (negb (truthy before)) (slide_elements closed))
         first
       = true.
Proof.
  intro H. destruct (slide_elements self) as [|e r] eqn:E.
  - destruct self as [es]. cbn in E. subst es. cbn in H.
    destruct before as [|b [|b' bs]]; discriminate.
  - pose proof (pagination_py_paged self ltac:(rewrite E; discriminate))
      as Hp.
    rewrite H, map_app in Hp. cbn [map] in Hp.
    destruct (paged_boundary _ _ _ _ _ Hp) as [f [rest [Hn Ho]]].
    exists f, rest. split; [exact Hn|].
    unfold last_is_first in Ho. now destruct before.
Qed.

(** X5.  The first physical slide is stable: paginating it again
    returns it alone. *)
Theorem pagination_first_slide_stable (self first : Slide)
    (later : list Slide) :
  render_with_overflow_detection_py self theme = first :: later ->
  render_with_overflow_detection_py first theme = [first].
Proof.
  intro H.
  assert (Hh : slide_holds theme true (slide_elements first) = true).
  { destruct (slide_elements self) as [|e r] eqn:E.
    - destruct self as [es]. cbn in E. subst es.
      cbn in H. injection H as <- _. reflexivity.
    - pose proof (pagination_py_paged self ltac:(rewrite E; discriminate))
        as Hp.
      rewrite H in Hp. cbn [map] in Hp.
      exact (proj1 (paged_holds _ _ _ Hp)). }
  destruct first as [es]. now apply slide_holds_alone.
Qed.

End PaginationPy.

(** A body text and a first heading of two letters each, under a theme
    of font size 100.1 and header font size 210.4: the estimates are
    105.1 and 220.4, and below the body text the heading would end at
    49.999999999999972, under the bottom margin of 50. *)
Lemma physical_slides_fit_witness :
  let theme := mkPyTheme (Some (PyFloat 100.1)) (Some (PyFloat 210.4)) in
  let body := BodyText (py "ab") None in
  let heading := Head1 (py "ab") None in
  render_with_overflow_detection_py (mkSlide [body; heading]) theme
  = [mkSlide [body]; mkSlide [heading]]
  /\ slide_holds theme true [body] = true
  /\ Forall (fun s => slide_holds theme false (slide_elements s) = true)
       [mkSlide [heading]].
Proof.
  intros theme body heading.
  assert (E : render_with_overflow_detection_py (mkSlide [body; heading])
                theme
              = [mkSlide [body]; mkSlide [heading]])
    by (vm_compute; reflexivity).
  split; [exact E|].
  exact (physical_slides_fit theme (mkSlide [body; heading])
           (mkSlide [body]) [mkSlide [heading]] E).
Defined.

Lemma slide_boundary_greedy_witness :
  let theme := mkPyTheme (Some (PyFloat 100.1)) (Some (PyFloat 210.4)) in
  let body := BodyText (py "ab") None in
  let heading := Head1 (py "ab") None in
  render_with_overflow_detection_py (mkSlide [body; heading]) theme
  = [] ++ mkSlide [body] :: mkSlide [heading] :: []
  /\ exists first rest,
       slide_elements (mkSlide [heading]) = first :: rest
       /\ overflows theme
            (slide_cursor theme (negb (truthy (@nil Slide)))
               (slide_elements (mkSlide [body])))
            first
          = true.
Proof.
  intros theme body heading.
  assert (E : render_with_overflow_detection_py (mkSlide [body; heading])
                theme
              = [] ++ mkSlide [body] :: mkSlide [heading] :: [])
    by (vm_compute; reflexivity).
  split; [exact E|].
  exact (slide_boundary_greedy theme (mkSlide [body; heading]) [] []
           (mkSlide [body]) (mkSlide [heading]) E).
Defined.

Lemma pagination_first_slide_stable_witness :
  let theme :=
    mkPyTheme (Some (PyFloat 124.9)) (Some (PyFloat 185.60000000000002)) in
  let image := Img (py "a.png") [] in
  let body := BodyText (py "ab") None in
  let heading := Head1 (py "ab") None in
  render_with_overflow_detection_py (mkSlide [image; body; heading]) theme
  = [mkSlide [image]; mkSlide [body; heading]]
  /\ render_with_overflow_detection_py (mkSlide [image]) theme
     = [mkSlide [image]].
Proof.
  intros theme image body heading.
  assert (E : render_with_overflow_detection_py
                (mkSlide [image; body; heading]) theme
              = [mkSlide [image]; mkSlide [body; heading]])
    by (vm_compute; reflexivity).
  split; [exact E|].
  exact (pagination_first_slide_stable theme
           (mkSlide [image; body; heading]) (mkSlide [image])
           [mkSlide [body; heading]] E).
Defined.

(** A later physical slide need not be stable.  Under a theme of font
    size 124.9 and header font size 185.60000000000002, after an image
    the body text opens a slide at 395.5 - 129.9 - 10 and the heading
    ends at 50 on it; paginated on its own, the body text is placed at
    395.5 - (129.9 + 10), the heading would end at 49.999999999999972,
    and the slide is split. *)
Lemma pagination_later_slide_not_stable :
  let theme :=
    mkPyTheme (Some (PyFloat 124.9)) (Some (PyFloat 185.60000000000002)) in
  let image := Img (py "a.png") [] in
  let body := BodyText (py "ab") None in
  let heading := Head1 (py "ab") None in
  render_with_overflow_detection_py (mkSlide [image; body; heading]) theme
  = [mkSlide [image]; mkSlide [body; heading]]
  /\ render_with_overflow_detection_py (mkSlide [body; heading]) theme
     = [mkSlide [body]; mkSlide [heading]]
  /\ py_sub (py_sub (opened theme body)
               (_estimate_element_height_py heading theme)) (PyInt 10)
     = PyFloat 50
  /\ py_sub (py_sub (placed theme top_y_py body)
               (_estimate_element_height_py heading theme)) (PyInt 10)
     = PyFloat 49.999999999999972.
Proof.
  cbv zeta. repeat split; vm_compute; reflexivity.
Qed.

(** The last bit decides.  Under a theme of font size 100.1 and header
    font size 210.4 the body text and the heading are split in Python's
    numbers, where the heading would end at 49.999999999999972; in exact
    arithmetic it ends at 50 and they share the slide. *)
Lemma pagination_rounding_decides :
  let body := BodyText (py "ab") None in
  let heading := Head1 (py "ab") None in
  render_with_overflow_detection_py (mkSlide [body; heading])
    (mkPyTheme (Some (PyFloat 100.1)) (Some (PyFloat 210.4)))
  = [mkSlide [body]; mkSlide [heading]]
  /\ render_with_overflow_detection (mkSlide [body; heading])
       (mkTheme None (Some (1001 # 10)) (Some (2104 # 10)) None None None)
     = [mkSlide [body; heading]].
Proof.
  cbv zeta. split; vm_compute; reflexivity.
Qed.
